(** * Search proxy worker: request dispatch-and-cache pipeline

    A shallow embedding of the worker's [fetch] handler and its helpers
    ([handleOptions], [fetchFromAlgolia], [isInvalidQuery],
    [parseRequestBody], [tryAlgoliaHosts], [isOriginAllowed],
    [addCorsHeaders]) together with the platform classes they call
    ([URLSearchParams], [Headers], [RegExp.test], [parseInt]).

    Text that the program only compares, concatenates or percent-encodes (URLs,
    header values, environment values) is a [string], read as the UTF-8 bytes
    of the text.  The [query] field of a search request item is inspected by
    length and by a regular expression, both of which work on UTF-16 code
    units, so it is a [list N] of code units. *)

From Stdlib Require Import Ascii List ZArith NArith Bool Lia.
From Stdlib Require String.
From stdpp Require Import base option gmap strings list fin_maps pretty.
Import ListNotations.

Local Open Scope list_scope.

Set Default Proof Using "Type".

(* ===================================================================== *)
(** ** Regular expressions ([RegExp.prototype.test] on anchored patterns) *)
(* ===================================================================== *)

(** Every pattern of the program has the shape [/^...$/] without flags, uses
    only literals, character classes, groups, [|], [*], [+] and [?], so
    [test] decides membership of the whole input in a regular language.  The
    matcher below computes that by derivatives. *)

Module Regex.
Section Regex.
Context {A : Type}.

Inductive regex : Type :=
| ReNone                         (* matches nothing *)
| ReEmpty                        (* matches the empty input *)
| ReClass (p : A -> bool)        (* one character of a class *)
| ReSeq (r s : regex)
| ReAlt (r s : regex)
| ReStar (r : regex).

Definition RePlus (r : regex) : regex := ReSeq r (ReStar r).
Definition ReOpt (r : regex) : regex := ReAlt r ReEmpty.

Fixpoint nullable (r : regex) : bool :=
  match r with
  | ReNone => false
  | ReEmpty => true
  | ReClass _ => false
  | ReSeq r s => nullable r && nullable s
  | ReAlt r s => nullable r || nullable s
  | ReStar _ => true
  end.

Fixpoint deriv (c : A) (r : regex) : regex :=
  match r with
  | ReNone => ReNone
  | ReEmpty => ReNone
  | ReClass p => if p c then ReEmpty else ReNone
  | ReSeq r s =>
      if nullable r
      then ReAlt (ReSeq (deriv c r) s) (deriv c s)
      else ReSeq (deriv c r) s
  | ReAlt r s => ReAlt (deriv c r) (deriv c s)
  | ReStar r => ReSeq (deriv c r) (ReStar r)
  end.

Fixpoint re_match (r : regex) (w : list A) : bool :=
  match w with
  | [] => nullable r
  | c :: w' => re_match (deriv c r) w'
  end.

(** The language of a pattern, as the reference for the matcher. *)
Inductive lang : regex -> list A -> Prop :=
| LEmpty : lang ReEmpty []
| LClass p c : p c = true -> lang (ReClass p) [c]
| LSeq r s u v : lang r u -> lang s v -> lang (ReSeq r s) (u ++ v)
| LAltL r s u : lang r u -> lang (ReAlt r s) u
| LAltR r s u : lang s u -> lang (ReAlt r s) u
| LStarNil r : lang (ReStar r) []
| LStarApp r u v : lang r u -> lang (ReStar r) v -> lang (ReStar r) (u ++ v).

End Regex.
Arguments regex A : clear implicits.
End Regex.
Import Regex.

(* ===================================================================== *)
(** ** JavaScript values met in a decoded request body *)
(* ===================================================================== *)

(** A JavaScript string, as its UTF-16 code units. *)
Definition jsstr : Type := list N.

(** The code units of an ASCII literal. *)
Definition units (s : string) : jsstr :=
  map N_of_ascii (String.list_ascii_of_string s).

(** The values a [query] property can hold after [request.json()].  The
    declared type is [query?: string]; the cast [as IncomingBody] is unchecked,
    so [null], booleans and numbers reach the validator as well.  A number is
    represented by the text that [String(n)] gives for it, which is all the
    program observes of it; that text is ["0"] exactly for the numbers [+0]
    and [-0], the only falsy numbers a JSON text can denote.  An array or an
    object is represented likewise by the text that [String(v)] gives for it;
    one for which that conversion throws is not a [JsValue] (see
    [IllTypedRequests]). *)
Inductive JsValue : Type :=
| JUndefined                 (* the property is absent *)
| JNull
| JBool (b : bool)
| JNumber (text : jsstr)
| JString (s : jsstr)
| JObject (text : jsstr).    (* an array or an object *)

#[global] Instance JsValue_eq_dec : EqDecision JsValue.
Proof. solve_decision. Defined.

(** [if (v)] *)
Definition ToBoolean (v : JsValue) : bool :=
  match v with
  | JUndefined => false
  | JNull => false
  | JBool b => b
  | JNumber text => negb (bool_decide (text = units "0"))
  | JString s => match s with [] => false | _ :: _ => true end
  | JObject _ => true
  end.

(** [String(v)] *)
Definition ToString (v : JsValue) : jsstr :=
  match v with
  | JUndefined => units "undefined"
  | JNull => units "null"
  | JBool true => units "true"
  | JBool false => units "false"
  | JNumber text => text
  | JString s => s
  | JObject text => text
  end.

(** [s.substring(0, n)] *)
Definition substring0 (n : nat) (s : jsstr) : jsstr := firstn n s.

(** [type SearchRequest = { query?: string; [key: string]: unknown }]: the
    other properties are carried along and never read. *)
Record SearchRequest : Type := mkSearchRequest {
  query : JsValue;
  otherFields : list (string * string);
}.

(** [type IncomingBody = { requests?: SearchRequest[]; ... }], with the text
    that [JSON.stringify] gives for the decoded value. *)
Record IncomingBody : Type := mkIncomingBody {
  requests : option (list SearchRequest);
  stringify : string;
}.

Inductive ValidationErrorType : Type := too_short | invalid_characters | malformed_json.

Inductive ErrorType : Type :=
| of_validation (t : ValidationErrorType)
| network
| algolia.

#[global] Instance ValidationErrorType_eq_dec : EqDecision ValidationErrorType.
Proof. solve_decision. Defined.
#[global] Instance ErrorType_eq_dec : EqDecision ErrorType.
Proof. solve_decision. Defined.

(* ===================================================================== *)
(** ** Query validator *)
(* ===================================================================== *)

Definition in_range (lo hi c : N) : bool := (lo <=? c)%N && (c <=? hi)%N.

(** The character class of [ALLOWED_QUERY_REGEX], in the order of the source:
    [\x20-\x7E], [\xA0-\xFF], then the literal characters. *)
Definition ALLOWED_QUERY_LITERALS : list N :=
  [ 0x2605; 0x2022; 0x201a; 0x27; 0x27; 0x201e; 0x22; 0x22; 0x22; 0x27;
    0x203a; 0x2039; 0x2013; 0x2026; 0x2012; 0x221a; 0xb0; 0xac; 0x2665;
    0x1d58; 0x1d56; 0x24c7; 0x2122; 0x26; 0x23a5; 0x20ac; 0x2234; 0x2d0;
    0x2205; 0xc6; 0xe6; 0x100; 0x101; 0x10c; 0x10d; 0x1dd; 0x112; 0x113;
    0x401; 0x451; 0x119; 0x142; 0x131; 0xcf; 0xef; 0xee; 0xd1; 0xf1;
    0x14c; 0x14d; 0x2300; 0x160; 0x161; 0x1e9e; 0xdf; 0x16a; 0x16b ]%N.

Definition ALLOWED_QUERY_CLASS (c : N) : bool :=
  in_range 0x20 0x7E c || in_range 0xA0 0xFF c
  || existsb (N.eqb c) ALLOWED_QUERY_LITERALS.

(** [/^[...]+$/] *)
Definition ALLOWED_QUERY_REGEX : regex N := RePlus (ReClass ALLOWED_QUERY_CLASS).

(** [re.test(s)] *)
Definition test {A : Type} (re : regex A) (s : list A) : bool := re_match re s.

(** The object [isInvalidQuery] returns:
    [{ invalid: boolean; errorType?: ValidationErrorType; query?: string }]. *)
Record Validation : Type := mkValidation {
  invalid : bool;
  v_errorType : option ValidationErrorType;
  v_query : option jsstr;
}.

(** The [for (const req of requests)] loop: [inl] is the [return] from inside
    the loop, [inr] the value of [hasLongQuery] when the loop ends. *)
Fixpoint isInvalidQuery_loop (reqs : list SearchRequest) (hasLongQuery : bool)
  : Validation + bool :=
  match reqs with
  | [] => inr hasLongQuery
  | req :: rest =>
      let queryValue := query req in
      if ToBoolean queryValue then
        let query := ToString queryValue in
        let hasLongQuery := if (3 <=? length query)%nat then true else hasLongQuery in
        if negb (test ALLOWED_QUERY_REGEX query) then
          inl {| invalid := true;
                 v_errorType := Some invalid_characters;
                 v_query := Some (substring0 100 query) |}
        else isInvalidQuery_loop rest hasLongQuery
      else isInvalidQuery_loop rest hasLongQuery
  end.

Definition isInvalidQuery (reqs : list SearchRequest) : Validation :=
  if forallb (fun req => bool_decide (query req = JString [])
                         || bool_decide (query req = JUndefined)) reqs
  then {| invalid := false; v_errorType := None; v_query := None |}
  else
    match isInvalidQuery_loop reqs false with
    | inl early => early
    | inr hasLongQuery =>
        if hasLongQuery
        then {| invalid := false; v_errorType := None; v_query := None |}
        else {| invalid := true;
                v_errorType := Some too_short;
                v_query :=
                  match find (fun r => ToBoolean (query r)) reqs with
                  | Some r => Some (substring0 100 (ToString (query r)))
                  | None => None
                  end |}
    end.

(* ===================================================================== *)
(** ** [URLSearchParams] *)
(* ===================================================================== *)

(** An ordered list of name-value pairs; names are case-sensitive. *)
Definition URLSearchParams : Type := list (string * string).

Module SearchParams.

Definition name_is (name : string) (kv : string * string) : bool :=
  String.eqb (fst kv) name.

(** [params.get(name)]: the value of the first pair with that name. *)
Definition get (name : string) (l : URLSearchParams) : option string :=
  snd <$> find (name_is name) l.

Definition has (name : string) (l : URLSearchParams) : bool :=
  existsb (name_is name) l.

(** [params.delete(name)]: remove every pair with that name. *)
Definition delete (name : string) (l : URLSearchParams) : URLSearchParams :=
  List.filter (fun kv => negb (name_is name kv)) l.

(** [params.set(name, value)]: overwrite the first pair with that name and
    remove the others, or append a new pair. *)
Fixpoint set (name value : string) (l : URLSearchParams) : URLSearchParams :=
  match l with
  | [] => [(name, value)]
  | kv :: rest =>
      if name_is name kv
      then (fst kv, value) :: delete name rest
      else kv :: set name value rest
  end.

(** *** The [application/x-www-form-urlencoded] serializer *)

Definition hex_digit (n : N) : ascii :=
  ascii_of_N (if (n <? 10)%N then 48 + n else 55 + n).

(** Bytes left as they are: ASCII alphanumerics and [* - . _]. *)
Definition unreserved (c : ascii) : bool :=
  let n := N_of_ascii c in
  in_range 0x30 0x39 n || in_range 0x41 0x5A n || in_range 0x61 0x7A n
  || (n =? 0x2A)%N || (n =? 0x2D)%N || (n =? 0x2E)%N || (n =? 0x5F)%N.

Definition encode_byte (c : ascii) : string :=
  let n := N_of_ascii c in
  if (n =? 0x20)%N then "+"
  else if unreserved c then String c ""
  else String "%" (String (hex_digit (n / 16)) (String (hex_digit (n mod 16)) "")).

Fixpoint encode (s : string) : string :=
  match s with
  | EmptyString => ""
  | String c rest => encode_byte c +:+ encode rest
  end.

(** [params.toString()] *)
Definition toString (l : URLSearchParams) : string :=
  String.concat "&" (map (fun kv => encode (fst kv) +:+ "=" +:+ encode (snd kv)) l).

(** *** The [application/x-www-form-urlencoded] parser *)

(** [s.split(sep)] for a one-character separator. *)
Fixpoint split_on (sep : ascii) (s : string) : list string :=
  match s with
  | EmptyString => [""]
  | String c rest =>
      if Ascii.eqb c sep then "" :: split_on sep rest
      else match split_on sep rest with
           | [] => [String c ""]
           | piece :: pieces => String c piece :: pieces
           end
  end.

(** Cut at the first [sep]: the part before it, and the part after it when
    there is one. *)
Fixpoint break_on (sep : ascii) (s : string) : string * option string :=
  match s with
  | EmptyString => ("", None)
  | String c rest =>
      if Ascii.eqb c sep then ("", Some rest)
      else let '(before, after) := break_on sep rest in (String c before, after)
  end.

Fixpoint plus_to_space (s : string) : string :=
  match s with
  | EmptyString => ""
  | String c rest => String (if Ascii.eqb c "+" then " "%char else c) (plus_to_space rest)
  end.

Definition hex_value (c : ascii) : option N :=
  let n := N_of_ascii c in
  if in_range 0x30 0x39 n then Some (n - 0x30)%N
  else if in_range 0x41 0x46 n then Some (n - 0x37)%N
  else if in_range 0x61 0x66 n then Some (n - 0x57)%N
  else None.

(** The bytes that the escapes of a text stand for.  (A decoded byte
    sequence that is not UTF-8 is kept as it is; the platform puts U+FFFD in
    its place.) *)
Fixpoint percent_decode (s : string) : string :=
  match s with
  | EmptyString => ""
  | String c rest =>
      let plain := String c (percent_decode rest) in
      if Ascii.eqb c "%" then
        match rest with
        | String h (String l rest') =>
            match hex_value h, hex_value l with
            | Some a, Some b => String (ascii_of_N (16 * a + b)) (percent_decode rest')
            | _, _ => plain
            end
        | _ => plain
        end
      else plain
  end.

Definition decode (s : string) : string := percent_decode (plus_to_space s).

Definition parse_pair (piece : string) : string * string :=
  let '(name, value) := break_on "=" piece in
  (decode name, decode (default "" value)).

(** [new URLSearchParams(text)], for a text without a leading [?]. *)
Definition parse (text : string) : URLSearchParams :=
  map parse_pair
      (List.filter (fun piece => negb (String.eqb piece "")) (split_on "&" text)).

End SearchParams.

(** Helpers for reasoning about the serializer. *)
Fixpoint occurs (c : ascii) (s : string) : bool :=
  match s with
  | EmptyString => false
  | String c' rest => Ascii.eqb c' c || occurs c rest
  end.

Definition pair_text (kv : string * string) : string :=
  SearchParams.encode (fst kv) +:+ "=" +:+ SearchParams.encode (snd kv).

(* ===================================================================== *)
(** ** Platform values: headers, URLs, requests, responses *)
(* ===================================================================== *)

(** [a || b] on [string | null] operands, and the truthiness of one. *)
Definition truthy (a : option string) : bool :=
  match a with
  | Some s => negb (String.eqb s "")
  | None => false
  end.

Definition js_or (a b : option string) : option string :=
  if truthy a then a else b.

(** A [Headers] object: a map keyed by the lower-cased header name. *)
Abbreviation Headers := (gmap string string).

Module Headers.
Definition lower (c : ascii) : ascii :=
  let n := N_of_ascii c in
  if in_range 0x41 0x5A n then ascii_of_N (n + 0x20) else c.

Fixpoint lowercase (s : string) : string :=
  match s with
  | EmptyString => ""
  | String c rest => String (lower c) (lowercase rest)
  end.

Definition get (name : string) (h : Headers) : option string :=
  h !! lowercase name.

Definition set (name value : string) (h : Headers) : Headers :=
  <[lowercase name := value]> h.
End Headers.

(** A parsed [URL].  [search] is the query as received, without the leading
    [?]; [url.searchParams] is parsed from it, and writing to
    [url.searchParams] replaces it by the serialized list. *)
Record URL : Type := mkURL {
  url_origin : string;          (* scheme, host and port *)
  pathname : string;
  search : option string;
  hash : string;                (* with its leading [#], or empty *)
}.

Definition searchParams (u : URL) : URLSearchParams :=
  SearchParams.parse (default "" (search u)).

Definition with_searchParams (u : URL) (l : URLSearchParams) : URL :=
  {| url_origin := url_origin u;
     pathname := pathname u;
     search := match SearchParams.toString l with
               | EmptyString => None
               | q => Some q
               end;
     hash := hash u |}.

(** [url.toString()] *)
Definition href (u : URL) : string :=
  url_origin u +:+ pathname u
  +:+ match search u with Some q => "?" +:+ q | None => "" end
  +:+ hash u.

Inductive Details : Type :=
| DetailsQuery (q : jsstr)      (* the template [Query: "${q}"] *)
| DetailsText (s : string).

(** [ErrorDetail], with the four optional [algolia_*] properties that
    [tryAlgoliaHosts] adds. *)
Record ErrorDetail : Type := mkErrorDetail {
  error : string;
  errorType : ErrorType;
  details : option Details;
  timestamp : string;
  algolia_url : option string;
  algolia_method : option string;
  algolia_headers : option Headers;
  algolia_body : option string;
}.

Inductive Body : Type :=
| BodyNull
| BodyText (s : string)
| BodyJson (e : ErrorDetail).   (* [JSON.stringify(e)] *)

Record Response : Type := mkResponse {
  status : N;
  statusText : string;
  headers : Headers;
  body : Body;
}.

(** [response.ok] *)
Definition ok (r : Response) : bool := in_range 200 299 (status r).

(** [new Response(text, { status, headers })] for a string body: a
    [Content-Type] is supplied when the caller gives none. *)
Definition Response_of_text (b : Body) (st : N) (h : Headers) : Response :=
  {| status := st;
     statusText := "";
     headers := match Headers.get "Content-Type" h with
                | Some _ => h
                | None => Headers.set "Content-Type" "text/plain;charset=UTF-8" h
                end;
     body := b |}.

(** A [requests] property on which the validator can throw: a truthy value
    that is not an array (a string, a non-zero number, [true], an object), or
    an array with an item that cannot be read, which is a [null] item or an
    item whose [query] is an object, or an array with such an object, that
    [String(v)] cannot convert (an object with a [toString] property).  Such
    an array is given by the items before the first item that cannot be read;
    the items after it are never read. *)
Inductive IllTypedRequests : Type :=
| NotAnArray
| ArrayWithNull (before : list SearchRequest)
| ArrayWithUnconvertible (before : list SearchRequest).

(** What [request.json()] does: it throws (with this message), or yields a
    decoded body, or yields a decoded value on whose [requests] the validator
    can throw ([text] is what [JSON.stringify] gives for it). *)
Inductive JsonResult : Type :=
| JsonThrows (message : string)
| JsonValue (b : IncomingBody)
| JsonIllTyped (requests : IllTypedRequests) (text : string).

Record Request : Type := mkRequest {
  method : string;
  url : URL;
  req_headers : Headers;
  json : JsonResult;
}.

Record Env : Type := mkEnv {
  ALGOLIA_APPLICATION_ID : string;
  ALGOLIA_API_KEY : string;
  CACHE_TTL_SSR : option string;
  CACHE_TTL_CLIENT : option string;
}.

Record RequestContext : Type := mkRequestContext {
  ctx_url : URL;
  ctx_origin : string;
  ctx_isSSRRequest : bool;
  ctx_method : string;
  ctx_pathname : string;
  ctx_searchParams : URLSearchParams;
}.

(** *** [parseInt(text, 10)] *)

(** Drop leading white space: the ASCII white space characters and line
    terminators, and the UTF-8 forms of U+00A0, U+1680, U+2000-U+200A, U+2028,
    U+2029, U+202F, U+205F, U+3000 and U+FEFF. *)
Fixpoint skip_whitespace (s : string) : string :=
  match s with
  | String c rest =>
      let n := N_of_ascii c in
      if in_range 0x09 0x0D n || (n =? 0x20)%N then skip_whitespace rest
      else
        match rest with
        | String c1 rest1 =>
            let n1 := N_of_ascii c1 in
            if (n =? 0xC2)%N && (n1 =? 0xA0)%N then skip_whitespace rest1
            else
              match rest1 with
              | String c2 rest2 =>
                  let n2 := N_of_ascii c2 in
                  if ((n =? 0xE1)%N && (n1 =? 0x9A)%N && (n2 =? 0x80)%N)
                     || ((n =? 0xE2)%N && (n1 =? 0x80)%N
                         && (in_range 0x80 0x8A n2 || in_range 0xA8 0xA9 n2
                             || (n2 =? 0xAF)%N))
                     || ((n =? 0xE2)%N && (n1 =? 0x81)%N && (n2 =? 0x9F)%N)
                     || ((n =? 0xE3)%N && (n1 =? 0x80)%N && (n2 =? 0x80)%N)
                     || ((n =? 0xEF)%N && (n1 =? 0xBB)%N && (n2 =? 0xBF)%N)
                  then skip_whitespace rest2
                  else s
              | EmptyString => s
              end
        | EmptyString => s
        end
  | EmptyString => ""
  end.

(** The value of the longest prefix of decimal digits, if there is a digit. *)
Fixpoint digits_prefix (s : string) (acc : option N) : option N :=
  match s with
  | String c rest =>
      let n := N_of_ascii c in
      if in_range 0x30 0x39 n
      then digits_prefix rest (Some (10 * default 0 acc + (n - 0x30)))%N
      else acc
  | EmptyString => acc
  end.

(** *** Numbers

    The numbers of this program are integers and infinities.  A number is
    given by its value in [Z], with [INFINITY] and its opposite standing for
    the two infinities. *)
Definition INFINITY : Z := 2 ^ 1024.

(** The double nearest to an integer above 2^53: 53 significant bits are
    kept, a tie goes to the even one, and what reaches 2^1024 is infinite. *)
Definition round_to_double (n : N) : N :=
  let shift := (N.log2 n - 52)%N in
  let q := N.shiftr n shift in
  let r := N.land n (N.ones shift) in
  let half := N.shiftl 1 (shift - 1) in
  let q := if (half <? r)%N || ((half =? r)%N && N.odd q) then (q + 1)%N else q in
  N.min (N.shiftl q shift) (2 ^ 1024).

(** The number that an integer is read as: itself up to 2^53, the nearest
    double above. *)
Definition to_double (z : Z) : Z :=
  if (Z.abs z <=? 2 ^ 53)%Z then z
  else (Z.sgn z * Z.of_N (round_to_double (Z.abs_N z)))%Z.

(** [None] stands for [NaN]. *)
Definition parseInt (s : string) : option Z :=
  to_double <$>
  match skip_whitespace s with
  | String "-" rest => (fun n => (- Z.of_N n)%Z) <$> digits_prefix rest None
  | String "+" rest => Z.of_N <$> digits_prefix rest None
  | rest => Z.of_N <$> digits_prefix rest None
  end.

(** [String(n)] for a number above 2^53 follows the rule of the language:
    the fewest significant digits that read back as the same double, and among
    those the nearest value (the one with the even last digit at a tie). *)
Definition reads_back_as (v c : N) : bool := (to_double (Z.of_N c) =? Z.of_N v)%Z.

(** The choice among the two multiples of [p] around [v]. *)
Definition decimal_candidate (v p : N) : option N :=
  let lo := (v / p * p)%N in
  let hi := (lo + p)%N in
  match reads_back_as v lo, reads_back_as v hi with
  | true, true =>
      Some (if (v - lo <? hi - v)%N then lo
            else if (hi - v <? v - lo)%N then hi
            else if N.even (lo / p) then lo else hi)
  | true, false => Some lo
  | false, true => Some hi
  | false, false => None
  end.

(** The decimal with the fewest significant digits, from the multiples of
    [10 ^ e] down to those of 1. *)
Fixpoint shortest_decimal (v : N) (e : nat) : N :=
  match decimal_candidate v (10 ^ N.of_nat e) with
  | Some c => c
  | None =>
      match e with
      | O => v
      | S e' => shortest_decimal v e'
      end
  end.

Fixpoint drop_zeros (digits : list ascii) : list ascii :=
  match digits with
  | "0"%char :: rest => drop_zeros rest
  | _ => digits
  end.

(** The text of a positive double above 2^53: its digits in full below
    10^21, and [d.ddde+n] from there on. *)
Definition double_text (v : N) : string :=
  let c := shortest_decimal v (String.length (pretty v) - 1) in
  if (c <? 10 ^ 21)%N then pretty c
  else
    let digits := String.list_ascii_of_string (pretty c) in
    let exponent := (length digits - 1)%nat in
    match rev (drop_zeros (rev digits)) with
    | [] => ""
    | d :: rest =>
        String d (match rest with
                  | [] => ""
                  | _ => "." +:+ String.string_of_list_ascii rest
                  end)
        +:+ "e+" +:+ pretty exponent
    end.

(** [String(n)], as in [`${n}`]. *)
Definition number_text (z : Z) : string :=
  if (Z.abs z <=? 2 ^ 53)%Z then pretty z
  else if (INFINITY <=? Z.abs z)%Z then (if (z <? 0)%Z then "-Infinity" else "Infinity")
  else (if (z <? 0)%Z then "-" else "") +:+ double_text (Z.abs_N z).

(** [parseInt(value || fallback, 10) || orElse] *)
Definition parse_ttl (value : option string) (fallback : string) (orElse : Z) : Z :=
  match parseInt (default fallback (js_or value (Some fallback))) with
  | Some 0%Z | None => orElse
  | Some n => n
  end.

(* ===================================================================== *)
(** ** The world outside the worker: network, cache, clock *)
(* ===================================================================== *)

(** The arguments of one [fetch(url, { method, headers, body })] call. *)
Record FetchRequest : Type := mkFetchRequest {
  f_url : string;
  f_method : string;
  f_headers : Headers;
  f_body : option string;
}.

(** The call resolves to a response or throws; [Rejected e] carries
    [String(e)]. *)
Inductive FetchOutcome : Type :=
| Resolved (r : Response)
| Rejected (e : string).

Inductive LogLevel : Type := LogLog | LogError | LogWarn.

(** What the worker does to the outside, in program order.  Of a log entry
    only the level is kept. *)
Inductive Event : Type :=
| EvFetch (rq : FetchRequest)
| EvCacheMatch (key : string)
| EvCachePut (key : string) (r : Response)
| EvLog (level : LogLevel).

(** [upstream] answers a [fetch] call and may depend on everything that
    happened before it; [cache] is [caches.default]; [clock] is what
    [new Date().toISOString()] returns; [trace] is the history, oldest
    first. *)
Record World : Type := mkWorld {
  upstream : list Event -> FetchRequest -> FetchOutcome;
  cache : gmap string Response;
  clock : string;
  trace : list Event;
}.

Definition record (e : Event) (w : World) : World :=
  {| upstream := upstream w; cache := cache w; clock := clock w;
     trace := trace w ++ [e] |}.

(** Computations that act on the world. *)
Definition M (A : Type) : Type := World -> A * World.

#[global] Instance M_ret : MRet M := fun A (a : A) w => (a, w).
#[global] Instance M_bind : MBind M :=
  fun A B (f : A -> M B) (m : M A) w => let '(a, w') := m w in f a w'.

(** [await fetch(...)] *)
Definition do_fetch (rq : FetchRequest) : M FetchOutcome :=
  fun w => (upstream w (trace w) rq, record (EvFetch rq) w).

(** [await cache.match(key)] *)
Definition cache_match (key : string) : M (option Response) :=
  fun w => (cache w !! key, record (EvCacheMatch key) w).

(** [ctx.waitUntil(cache.put(key, response))]: the store is started at this
    point and left to the runtime to complete. *)
Definition cache_put (key : string) (r : Response) : M unit :=
  fun w => (tt, record (EvCachePut key r)
                  {| upstream := upstream w; cache := <[key := r]> (cache w);
                     clock := clock w; trace := trace w |}).

(** [ctx.waitUntil(logEvent(level, ...))] *)
Definition log (level : LogLevel) : M unit :=
  fun w => (tt, record (EvLog level) w).

(** [new Date().toISOString()] *)
Definition now : M string := fun w => (clock w, w).

(* ===================================================================== *)
(** ** Configuration and constants *)
(* ===================================================================== *)

Definition SEARCH_AGENT : string :=
  "Algolia%20for%20JavaScript%20(5.8.1)%3B%20Lite%20(5.8.1)%3B%20Browser%3B%20autocomplete-core%20(1.17.4)%3B%20autocomplete-js%20(1.17.4)".
Definition INSIGHTS_AGENT : string :=
  "insights-js%20(2.17.3)%3B%20insights-js-browser-umd%20(2.17.3)%3B%20insights-middleware%3B%20insights-plugin".

Definition getHosts (applicationId : string) : list string :=
  [ applicationId +:+ "-dsn.algolia.net";
    applicationId +:+ "-1.algolianet.com";
    applicationId +:+ "-2.algolianet.com";
    applicationId +:+ "-3.algolianet.com" ].

Definition chr (c : ascii) : regex ascii := ReClass (Ascii.eqb c).

Fixpoint lit (s : string) : regex ascii :=
  match s with
  | EmptyString => ReEmpty
  | String c rest => ReSeq (chr c) (lit rest)
  end.

(** [[a-z0-9-]] *)
Definition lower_alnum_dash (c : ascii) : bool :=
  let n := N_of_ascii c in
  in_range 0x61 0x7A n || in_range 0x30 0x39 n || (n =? 0x2D)%N.

(** [\d] *)
Definition digit (c : ascii) : bool := in_range 0x30 0x39 (N_of_ascii c).

(** [/^https:\/\/([a-z0-9-]+\.)*avocadostore\.(de|dev)$/] *)
Definition ALLOWED_ORIGIN_PATTERN : regex ascii :=
  ReSeq (lit "https://")
    (ReSeq (ReStar (ReSeq (RePlus (ReClass lower_alnum_dash)) (chr ".")))
       (ReSeq (lit "avocadostore.") (ReAlt (lit "de") (lit "dev")))).

(** [/^http:\/\/localhost(:\d+)?$/] *)
Definition LOCALHOST_PATTERN : regex ascii :=
  ReSeq (lit "http://localhost") (ReOpt (ReSeq (chr ":") (RePlus (ReClass digit)))).

Definition CLOUDFLARE_DASHBOARD : string := "https://dash.cloudflare.com".

Definition SSR_SENTINEL : string := "ASDf928gh2efhajsdf!!".
Definition STOREFRONT_ORIGIN : string := "https://www.avocadostore.de".
Definition ALLOW_METHODS : string := "GET, POST, OPTIONS".
Definition ALLOW_HEADERS : string :=
  "Content-Type, x-algolia-agent, x-algolia-api-key, x-algolia-application-id, x-as-cache-key, x-ssr-request".
Definition MAX_AGE : string := "86400".

(* ===================================================================== *)
(** ** Origin policy *)
(* ===================================================================== *)

Definition isOriginAllowed (origin : string) : bool :=
  test ALLOWED_ORIGIN_PATTERN (String.list_ascii_of_string origin)
  || test LOCALHOST_PATTERN (String.list_ascii_of_string origin)
  || String.eqb origin CLOUDFLARE_DASHBOARD.

Definition handleOptions (ctx : RequestContext) : Response :=
  let headers : Headers :=
    Headers.set "Access-Control-Max-Age" MAX_AGE
      (Headers.set "Access-Control-Allow-Headers" ALLOW_HEADERS
         (Headers.set "Access-Control-Allow-Methods" ALLOW_METHODS ∅)) in
  let headers :=
    if ctx_isSSRRequest ctx then
      Headers.set "Access-Control-Allow-Origin" STOREFRONT_ORIGIN headers
    else if negb (String.eqb (ctx_origin ctx) "") && isOriginAllowed (ctx_origin ctx) then
      Headers.set "Vary" "Origin"
        (Headers.set "Access-Control-Allow-Origin" (ctx_origin ctx) headers)
    else
      Headers.set "Access-Control-Allow-Origin" STOREFRONT_ORIGIN headers in
  {| status := 204; statusText := ""; headers := headers; body := BodyNull |}.

(** The response body is passed on as a stream, so no [Content-Type] is
    supplied by the constructor.  (The constructor throws for a status outside
    200..599, which a response from [fetch] or from the cache does not
    have.) *)
Definition addCorsHeaders (response : Response) (origin : option string)
    (isSSRRequest : bool) : Response :=
  let headers := headers response in
  let headers :=
    if isSSRRequest || negb (truthy origin) || negb (isOriginAllowed (default "" origin)) then
      Headers.set "Access-Control-Allow-Origin" STOREFRONT_ORIGIN headers
    else
      Headers.set "Vary" "Origin"
        (Headers.set "Access-Control-Allow-Origin" (default "" origin) headers) in
  let headers := Headers.set "Access-Control-Allow-Methods" ALLOW_METHODS headers in
  let headers := Headers.set "Access-Control-Allow-Headers" ALLOW_HEADERS headers in
  let headers := Headers.set "Access-Control-Max-Age" MAX_AGE headers in
  {| status := status response;
     statusText := statusText response;
     headers := headers;
     body := body response |}.

(* ===================================================================== *)
(** ** Decoding and validating the request body *)
(* ===================================================================== *)

Definition json_headers : Headers := Headers.set "Content-Type" "application/json" ∅.

(** The messages of the TypeErrors that the validator can throw on such a
    value, in the wording of the engine (V8): [requests.every(...)] for a
    value that is not an array, [req.query] for a [null] item, and
    [String(queryValue)] for a query that cannot be converted. *)
Definition NOT_AN_ARRAY_MESSAGE : string := "requests.every is not a function".
Definition NULL_ITEM_MESSAGE : string := "Cannot read properties of null (reading 'query')".
Definition UNCONVERTIBLE_MESSAGE : string := "Cannot convert object to primitive value".

(** [isInvalidQuery] on such a value: [inl] is the message of the TypeError
    thrown.  On an array with a [null] item, [every] and the loop throw when
    they reach that item, unless they have returned before.  On an array with
    a query that cannot be converted, [every] returns [false] at that item at
    the latest, and the loop throws when it reaches the item. *)
Definition isInvalidQuery_ill_typed (requests : IllTypedRequests) : string + Validation :=
  match requests with
  | NotAnArray => inl NOT_AN_ARRAY_MESSAGE
  | ArrayWithNull before =>
      if forallb (fun req => bool_decide (query req = JString [])
                             || bool_decide (query req = JUndefined)) before
      then inl NULL_ITEM_MESSAGE
      else
        match isInvalidQuery_loop before false with
        | inl early => inr early
        | inr _ => inl NULL_ITEM_MESSAGE
        end
  | ArrayWithUnconvertible before =>
      match isInvalidQuery_loop before false with
      | inl early => inr early
      | inr _ => inl UNCONVERTIBLE_MESSAGE
      end
  end.

(** The 400 response for a batch that the validator found invalid. *)
Definition validation_failure (validation : Validation) (ts : string) : Response :=
  let errorType' := default invalid_characters (v_errorType validation) in
  let errorDetail :=
    {| error := if bool_decide (errorType' = too_short)
                then "Query too short (minimum 3 characters)"
                else "Query contains invalid characters";
       errorType := of_validation errorType';
       details := match v_query validation with
                  | Some ((_ :: _) as q) => Some (DetailsQuery q)
                  | _ => None
                  end;
       timestamp := ts;
       algolia_url := None; algolia_method := None;
       algolia_headers := None; algolia_body := None |} in
  Response_of_text (BodyJson errorDetail) 400 json_headers.

(** The 400 response of the [catch] block. *)
Definition malformed_body (message : string) (ts : string) : Response :=
  let errorDetail :=
    {| error := "Malformed JSON body";
       errorType := of_validation malformed_json;
       details := Some (DetailsText message);
       timestamp := ts;
       algolia_url := None; algolia_method := None;
       algolia_headers := None; algolia_body := None |} in
  Response_of_text (BodyJson errorDetail) 400 json_headers.

(** [ParseResult]: [inl] is [{ error }], [inr] is [{ body }].  The [catch]
    block answers an exception from [request.json()] and one from the
    validator alike.  (On an array with an item that cannot be read the
    validator returns only from inside its loop, with [invalid] set.) *)
Definition parseRequestBody (request : Request) : M (Response + IncomingBody) :=
  match json request with
  | JsonValue body =>
      match requests body with
      | Some reqs =>
          let validation := isInvalidQuery reqs in
          if invalid validation then
            ts ← now;
            mret (inl (validation_failure validation ts))
          else mret (inr body)
      | None => mret (inr body)
      end
  | JsonIllTyped requests _ =>
      match isInvalidQuery_ill_typed requests with
      | inr validation =>
          ts ← now;
          mret (inl (validation_failure validation ts))
      | inl message =>
          ts ← now;
          mret (inl (malformed_body message ts))
      end
  | JsonThrows message =>
      ts ← now;
      mret (inl (malformed_body message ts))
  end.

(* ===================================================================== *)
(** ** Upstream dispatcher *)
(* ===================================================================== *)

(** What [attempt.error] holds: the body read from a non-success response,
    or the text of a thrown error. *)
Inductive AttemptError : Type :=
| ErrorBody (b : Body)
| Thrown (e : string).

Record HostAttempt : Type := mkHostAttempt {
  a_host : string;
  a_status : option N;
  a_error : option AttemptError;
  a_ok : option bool;
}.

(** [`${a.host}${a.status ? ` (${a.status})` : ''}`] *)
Definition attempt_text (a : HostAttempt) : string :=
  a_host a +:+
  match a_status a with
  | Some 0%N | None => ""
  | Some st => " (" +:+ pretty st +:+ ")"
  end.

Definition attempts_details (attempts : list HostAttempt) : string :=
  "Tried " +:+ pretty (length attempts) +:+ " host(s): "
  +:+ String.concat ", " (map attempt_text attempts).

Definition host_url (host pathname search : string) : string :=
  "https://" +:+ host +:+ pathname +:+ search.

(** The [for (const host of hosts || [])] loop: [inl] is the [return response]
    from inside the loop, [inr] the attempts recorded when the loop ends. *)
Fixpoint tryAlgoliaHosts_loop (pathname search method : string) (headers : Headers)
    (bodyStr : option string) (hosts : list string) (attempts : list HostAttempt)
  : M (Response + list HostAttempt) :=
  match hosts with
  | [] => mret (inr attempts)
  | host :: rest =>
      let url := host_url host pathname search in
      outcome ← do_fetch {| f_url := url; f_method := method;
                            f_headers := headers; f_body := bodyStr |};
      match outcome with
      | Resolved response =>
          let attempt :=
            {| a_host := host;
               a_status := Some (status response);
               a_error := if ok response then None else Some (ErrorBody (body response));
               a_ok := Some (ok response) |} in
          if ok response then mret (inl response)
          else tryAlgoliaHosts_loop pathname search method headers bodyStr rest
                 (attempts ++ [attempt])
      | Rejected e =>
          tryAlgoliaHosts_loop pathname search method headers bodyStr rest
            (attempts ++ [{| a_host := host; a_status := None;
                             a_error := Some (Thrown e); a_ok := None |}])
      end
  end.

Definition tryAlgoliaHosts (pathname search method : string) (headers : Headers)
    (bodyStr : option string) (hosts : list string)
    (isSSRRequest : bool) (userAgent : string) : M Response :=
  result ← tryAlgoliaHosts_loop pathname search method headers bodyStr hosts [];
  match result with
  | inl response => mret response
  | inr attempts =>
      let sampleUrl :=
        match hosts with
        | host :: _ => host_url host pathname search
        | [] => "unknown"
        end in
      ts ← now;
      let errorDetail :=
        {| error := "All Algolia hosts failed";
           errorType := algolia;
           details := Some (DetailsText (attempts_details attempts));
           timestamp := ts;
           algolia_url := Some sampleUrl;
           algolia_method := Some method;
           algolia_headers := Some headers;
           algolia_body := bodyStr |} in
      mret (Response_of_text (BodyJson errorDetail) 502 json_headers)
  end.

Definition INSIGHTS_FAILURE : Response :=
  Response_of_text (BodyText "Failed to reach Algolia Insights endpoint") 502 ∅.

(** The parameters that the analytics path forwards. *)
Definition insightsParams (ctx : RequestContext) (env : Env) : URLSearchParams :=
  let algoliaParams := SearchParams.parse (SearchParams.toString (ctx_searchParams ctx)) in
  let algoliaParams := SearchParams.set "x-algolia-api-key" (ALGOLIA_API_KEY env) algoliaParams in
  let algoliaParams :=
    SearchParams.set "x-algolia-application-id" (ALGOLIA_APPLICATION_ID env) algoliaParams in
  let algoliaParams := SearchParams.set "X-Algolia-Agent" INSIGHTS_AGENT algoliaParams in
  let algoliaParams := SearchParams.delete "X-Algolia-Application-Id" algoliaParams in
  SearchParams.delete "X-Algolia-API-Key" algoliaParams.

(** The parameters that the search path forwards. *)
Definition searchPathParams (ctx : RequestContext) (env : Env) : URLSearchParams :=
  let algoliaParams := SearchParams.parse (SearchParams.toString (ctx_searchParams ctx)) in
  let algoliaParams := SearchParams.set "x-algolia-api-key" (ALGOLIA_API_KEY env) algoliaParams in
  let algoliaParams :=
    SearchParams.set "x-algolia-application-id" (ALGOLIA_APPLICATION_ID env) algoliaParams in
  SearchParams.set "x-algolia-agent" SEARCH_AGENT algoliaParams.

Definition insightsUrl (ctx : RequestContext) (env : Env) : string :=
  "https://insights.algolia.io/1/events?" +:+ SearchParams.toString (insightsParams ctx env).

Definition fetchFromAlgolia (ctx : RequestContext) (originalHeaders : Headers)
    (bodyStr : option string) (env : Env) (isSSRRequest : bool) : M Response :=
  let pathname := ctx_pathname ctx in
  let userAgent :=
    default "unknown" (js_or (Headers.get "User-Agent" originalHeaders) (Some "unknown")) in
  let headers := originalHeaders in
  if String.eqb pathname "/1/events" then
    outcome ← do_fetch {| f_url := insightsUrl ctx env; f_method := ctx_method ctx;
                          f_headers := headers; f_body := bodyStr |};
    match outcome with
    | Resolved response => mret response
    | Rejected _ => mret INSIGHTS_FAILURE
    end
  else
    let search := "?" +:+ SearchParams.toString (searchPathParams ctx env) in
    let hosts := getHosts (ALGOLIA_APPLICATION_ID env) in
    tryAlgoliaHosts pathname search (ctx_method ctx) headers bodyStr hosts
      isSSRRequest userAgent.

(* ===================================================================== *)
(** ** The [fetch] handler *)
(* ===================================================================== *)

(** [cacheKeyParam]: the query parameter, or else the header. *)
Definition cacheKeyParam (request : Request) : option string :=
  js_or (SearchParams.get "cacheKey" (searchParams (url request)))
        (Headers.get "X-AS-Cache-Key" (req_headers request)).

Definition isSSR (request : Request) : bool :=
  bool_decide (Headers.get "x-ssr-request" (req_headers request) = Some SSR_SENTINEL).

Definition cacheTtlClient (env : Env) : Z := parse_ttl (CACHE_TTL_CLIENT env) "0" 0.

Definition shouldCache (request : Request) (env : Env) : bool :=
  isSSR request || (0 <? cacheTtlClient env)%Z.

(** The synthesized cache key.  [new URL(url.toString())] is a copy of [url]:
    parsing a serialized URL gives back its components. *)
Definition cacheKeyUrl (url : URL) (cacheKeyParam : string) (isSSRRequest : bool) : string :=
  let cacheUrl := url in
  let params := SearchParams.set "cacheKey" cacheKeyParam (searchParams cacheUrl) in
  let params := SearchParams.set "ssr" (if isSSRRequest then "1" else "0") params in
  href (with_searchParams cacheUrl params).

(** The response handed to [cache.put]: the upstream response with its
    [Cache-Control] rewritten. *)
Definition responseToStore (response : Response) (env : Env) (isSSRRequest : bool) : Response :=
  let cacheTtl :=
    if isSSRRequest
    then parse_ttl (CACHE_TTL_SSR env) "600" 600
    else parse_ttl (CACHE_TTL_CLIENT env) "0" 0 in
  {| status := status response;
     statusText := statusText response;
     headers := Headers.set "Cache-Control" ("public, max-age=" +:+ number_text cacheTtl)
                  (headers response);
     body := body response |}.

Definition requestContext (request : Request) : RequestContext :=
  {| ctx_url := url request;
     ctx_origin := default "*" (js_or (Headers.get "Origin" (req_headers request)) (Some "*"));
     ctx_isSSRRequest := isSSR request;
     ctx_method := method request;
     ctx_pathname := pathname (url request);
     ctx_searchParams := searchParams (url request) |}.

(** The handler.  The two header-filtering loops over
    [BLACKLIST_HEADERS_FOR_GET] build objects that are never used and are left
    out; [Date.now()] only feeds the log entry. *)
Definition fetch (request : Request) (env : Env) : M Response :=
  let reqContext := requestContext request in
  let origin := ctx_origin reqContext in
  let isSSRRequest := ctx_isSSRRequest reqContext in
  if String.eqb (method request) "OPTIONS" then mret (handleOptions reqContext)
  else
    parsed ← (if String.eqb (method request) "POST"
              then result ← parseRequestBody request;
                   mret (match result with
                         | inl error => inl error
                         | inr body => inr (Some (stringify body))
                         end)
              else mret (inr None));
    match parsed with
    | inl error =>
        _ ← log LogError;
        mret error
    | inr bodyStr =>
        let cacheKeyParam := cacheKeyParam request in
        let shouldCache := shouldCache request env in
        lookup ← (if String.eqb (method request) "POST" && truthy cacheKeyParam && shouldCache
                  then
                    let cacheKeyUrl := cacheKeyUrl (url request) (default "" cacheKeyParam)
                                         isSSRRequest in
                    cachedResponse ← cache_match cacheKeyUrl;
                    mret (Some cacheKeyUrl, cachedResponse)
                  else mret (None, None));
        let '(cacheKeyUrl, cachedResponse) := lookup in
        response ← match cachedResponse with
                   | Some response => mret response
                   | None =>
                       response ← fetchFromAlgolia reqContext (req_headers request)
                                    bodyStr env isSSRRequest;
                       _ ← (if truthy cacheKeyUrl && ok response && shouldCache
                            then cache_put (default "" cacheKeyUrl)
                                   (responseToStore response env isSSRRequest)
                            else mret tt);
                       mret response
                   end;
        _ ← log (if ok response then LogLog else LogError);
        mret (addCorsHeaders response (Some origin) isSSRRequest)
    end.

(** The events a computation adds to the history. *)
Definition events_of {A : Type} (m : M A) (w : World) : list Event :=
  drop (length (trace w)) (trace (snd (m w))).

Definition is_cache_event (e : Event) : bool :=
  match e with
  | EvCacheMatch _ | EvCachePut _ _ => true
  | _ => false
  end.

Definition fetched (e : Event) : option FetchRequest :=
  match e with
  | EvFetch rq => Some rq
  | _ => None
  end.

(* ===================================================================== *)
(** ** Vocabulary for stating the properties *)
(* ===================================================================== *)

(** *** Query validation, in the words of the specification *)

Inductive ValidationOutcome : Type :=
| Accepted
| Rejected_as (kind : ValidationErrorType).

(** The outcome that [parseRequestBody] draws from a [Validation]. *)
Definition outcome_of (v : Validation) : ValidationOutcome :=
  if invalid v then Rejected_as (default invalid_characters (v_errorType v))
  else Accepted.

(** The query is the empty string or absent. *)
Definition empty_or_absent (req : SearchRequest) : bool :=
  match query req with
  | JUndefined => true
  | JString [] => true
  | _ => false
  end.

(** The item has a non-empty query with a code unit outside the class. *)
Definition has_disallowed_character (req : SearchRequest) : bool :=
  match query req with
  | JString (c :: s) => existsb (fun u => negb (ALLOWED_QUERY_CLASS u)) (c :: s)
  | _ => false
  end.

(** The item has a query of length at least 3. *)
Definition is_long (req : SearchRequest) : bool :=
  match query req with
  | JString s => (3 <=? length s)%nat
  | _ => false
  end.

Definition classify_spec (reqs : list SearchRequest) : ValidationOutcome :=
  if forallb empty_or_absent reqs then Accepted
  else if existsb has_disallowed_character reqs then Rejected_as invalid_characters
  else if negb (existsb is_long reqs) then Rejected_as too_short
  else Accepted.

(** The query is absent, a string, or one of the falsy values [null], [false]
    and zero.  (Of a true boolean or a non-zero number the validator inspects
    the text form, about which the specification is silent.) *)
Definition string_or_falsy (req : SearchRequest) : bool :=
  match query req with
  | JUndefined | JString _ | JNull | JBool false => true
  | JBool true | JObject _ => false
  | JNumber text => bool_decide (text = units "0")
  end.

(** [null], [false] and the number zero: the falsy values that are neither a
    string nor [undefined]. *)
Definition falsy_non_string (v : JsValue) : bool :=
  match v with
  | JNull => true
  | JBool false => true
  | JNumber text => bool_decide (text = units "0")
  | _ => false
  end.

(** *** Upstream outcomes *)

(** The response of an attempt that succeeded. *)
Definition succeeded (o : FetchOutcome) : option Response :=
  match o with
  | Resolved r => if ok r then Some r else None
  | Rejected _ => None
  end.

Definition hostRequest (pathname search method : string) (headers : Headers)
    (bodyStr : option string) (host : string) : FetchRequest :=
  {| f_url := host_url host pathname search; f_method := method;
     f_headers := headers; f_body := bodyStr |}.

(** The attempt that the loop records for an outcome. *)
Definition attempt_of (host : string) (o : FetchOutcome) : HostAttempt :=
  match o with
  | Resolved response =>
      {| a_host := host;
         a_status := Some (status response);
         a_error := if ok response then None else Some (ErrorBody (body response));
         a_ok := Some (ok response) |}
  | Rejected e =>
      {| a_host := host; a_status := None; a_error := Some (Thrown e); a_ok := None |}
  end.

(** What [details] shows of an outcome, after the host name. *)
Definition status_text (o : FetchOutcome) : string :=
  match o with
  | Resolved response =>
      match status response with
      | 0%N => ""
      | st => " (" +:+ pretty st +:+ ")"
      end
  | Rejected _ => ""
  end.

(** [needle] occurs in [s]. *)
Fixpoint is_substring (needle s : string) : bool :=
  String.prefix needle s
  || match s with
     | String _ rest => is_substring needle rest
     | EmptyString => false
     end.

(** The text lists an attempt with its status or error. *)
Definition lists_attempt (text : string) (a : HostAttempt) : bool :=
  is_substring (a_host a) text
  && match a_status a, a_error a with
     | Some st, _ => is_substring (pretty st) text
     | None, Some (Thrown e) => is_substring e text
     | None, _ => true
     end.

(** The [details] text of a response built by [tryAlgoliaHosts]. *)
Definition details_text (r : Response) : option string :=
  match body r with
  | BodyJson e =>
      match details e with
      | Some (DetailsText s) => Some s
      | _ => None
      end
  | _ => None
  end.

Definition body_errorType (r : Response) : option ErrorType :=
  match body r with
  | BodyJson e => Some (errorType e)
  | _ => None
  end.

(** *** Sample worlds and requests *)

Definition sample_world (up : list Event -> FetchRequest -> FetchOutcome) : World :=
  {| upstream := up; cache := ∅; clock := "2025-01-01T00:00:00.000Z"; trace := [] |}.

Definition text_response (st : N) (h : Headers) (text : string) : Response :=
  {| status := st; statusText := ""; headers := h; body := BodyText text |}.

(** Every upstream call resolves to the same response. *)
Definition always_resolves (r : Response) : list Event -> FetchRequest -> FetchOutcome :=
  fun _ _ => Resolved r.

(** Every upstream call throws. *)
Definition always_throws (e : string) : list Event -> FetchRequest -> FetchOutcome :=
  fun _ _ => Rejected e.

(** The first [n] calls throw, the later ones resolve to [r]. *)
Definition throws_then_resolves (n : nat) (e : string) (r : Response)
  : list Event -> FetchRequest -> FetchOutcome :=
  fun history _ =>
    if (length (omap fetched history) <? n)%nat then Rejected e else Resolved r.

Definition sample_env : Env :=
  {| ALGOLIA_APPLICATION_ID := "testtest"; ALGOLIA_API_KEY := "testtest";
     CACHE_TTL_SSR := None; CACHE_TTL_CLIENT := None |}.

Definition queries_url (q : option string) : URL :=
  {| url_origin := "https://example.com"; pathname := "/1/indexes/*/queries";
     search := q; hash := "" |}.

Definition search_body (q : string) : JsonResult :=
  JsonValue {| requests := Some [ {| query := JString (units q);
                                     otherFields := [("indexName", "test")] |} ];
               stringify := "<the JSON text of the body>" |}.

(** *** Runs *)

(** The world after more events. *)
Definition advance (w : World) (evs : list Event) : World :=
  {| upstream := upstream w; cache := cache w; clock := clock w;
     trace := trace w ++ evs |}.

(** The outcomes of issuing the calls one after another from [w]. *)
Fixpoint outcomes (w : World) (reqs : list FetchRequest) : list FetchOutcome :=
  match reqs with
  | [] => []
  | rq :: rest => upstream w (trace w) rq :: outcomes (record (EvFetch rq) w) rest
  end.

(** The position and response of the first outcome that succeeded. *)
Fixpoint first_success (outs : list FetchOutcome) : option (nat * Response) :=
  match outs with
  | [] => None
  | o :: rest =>
      match succeeded o with
      | Some r => Some (0%nat, r)
      | None => (fun kr => (S (fst kr), snd kr)) <$> first_success rest
      end
  end.

(** The outcome of the decode-and-validate step of the handler: the error
    response, or the serialized body to forward. *)
Definition validated (request : Request) (w : World) : Response + option string :=
  if String.eqb (method request) "POST" then
    match fst (parseRequestBody request w) with
    | inl error => inl error
    | inr body => inr (Some (stringify body))
    end
  else inr None.

(** The condition under which the handler turns to the cache. *)
Definition cache_gate (request : Request) (env : Env) : bool :=
  String.eqb (method request) "POST" && truthy (cacheKeyParam request)
  && shouldCache request env.

(** The key the handler uses for a request. *)
Definition key_of (request : Request) : string :=
  cacheKeyUrl (url request) (default "" (cacheKeyParam request)) (isSSR request).

Definition log_level (r : Response) : LogLevel := if ok r then LogLog else LogError.

(** The [details] of a response list every one of the attempts with its
    status or error. *)
Definition details_list_every_attempt (r : Response) (attempts : list HostAttempt) : Prop :=
  exists text, details_text r = Some text
               /\ forall a, a ∈ attempts -> lists_attempt text a = true.

(** *** Forwarded parameters *)

(** The pairs of a list that carry a given name. *)
Definition named (name : string) (l : URLSearchParams) : URLSearchParams :=
  List.filter (SearchParams.name_is name) l.

(** The query of a URL text: what follows the first [?]. *)
Definition query_of (u : string) : string :=
  default "" (snd (SearchParams.break_on "?" u)).

Definition CREDENTIAL_NAMES : list string :=
  [ "x-algolia-api-key"; "x-algolia-application-id" ].

(** The name is that of a credential parameter up to letter case. *)
Definition is_credential_name (name : string) : bool :=
  existsb (String.eqb (Headers.lowercase name)) CREDENTIAL_NAMES.

(** Credential parameters appear under lower-case names only. *)
Definition lowercase_credentials_only (l : URLSearchParams) : bool :=
  forallb (fun kv => implb (is_credential_name (fst kv))
                           (String.eqb (fst kv) (Headers.lowercase (fst kv)))) l.

(** The names that the analytics path writes or removes. *)
Definition INSIGHTS_NAMES : list string :=
  [ "x-algolia-api-key"; "x-algolia-application-id"; "X-Algolia-Agent";
    "X-Algolia-Application-Id"; "X-Algolia-API-Key" ].

Definition events_context (params : URLSearchParams) : RequestContext :=
  {| ctx_url := {| url_origin := "https://example.com"; pathname := "/1/events";
                   search := None; hash := "" |};
     ctx_origin := "https://www.avocadostore.de";
     ctx_isSSRRequest := false;
     ctx_method := "POST";
     ctx_pathname := "/1/events";
     ctx_searchParams := params |}.

(** The world with another cache content. *)
Definition with_cache (w : World) (c : gmap string Response) : World :=
  {| upstream := upstream w; cache := c; clock := clock w; trace := trace w |}.

Definition browser_headers (origin : string) : Headers :=
  {[ "content-type" := "application/json"; "origin" := origin ]}.

Definition ssr_headers : Headers :=
  {[ "content-type" := "application/json"; "origin" := "https://www.avocadostore.de";
     "x-ssr-request" := SSR_SENTINEL ]}.

(** A POST to the search path with one query. *)
Definition search_request (q : option string) (h : Headers) (text : string) : Request :=
  {| method := "POST"; url := queries_url q; req_headers := h; json := search_body text |}.

Definition hits : Response := text_response 200 ∅ "{hits: []}".

(** *** CORS headers *)

Definition allowOrigin (r : Response) : option string :=
  Headers.get "Access-Control-Allow-Origin" (headers r).

Definition vary (r : Response) : option string := Headers.get "Vary" (headers r).

(** The response carries the CORS header set. *)
Definition carries_cors_headers (r : Response) : Prop :=
  is_Some (allowOrigin r)
  /\ Headers.get "Access-Control-Allow-Methods" (headers r) = Some ALLOW_METHODS
  /\ Headers.get "Access-Control-Allow-Headers" (headers r) = Some ALLOW_HEADERS
  /\ Headers.get "Access-Control-Max-Age" (headers r) = Some MAX_AGE.

(** The origin decision in the words of the specification: the allowed origin,
    and whether [Vary: Origin] is set. *)
Definition origin_decision (request : Request) : string * bool :=
  if isSSR request then (STOREFRONT_ORIGIN, false)
  else
    match Headers.get "Origin" (req_headers request) with
    | Some origin =>
        if isOriginAllowed origin then (origin, true) else (STOREFRONT_ORIGIN, false)
    | None => (STOREFRONT_ORIGIN, false)
    end.

(** The response shows the decision, with no [Vary] header when the origin is
    not echoed. *)
Definition follows_origin_decision (request : Request) (r : Response) : Prop :=
  allowOrigin r = Some (fst (origin_decision request))
  /\ vary r = if snd (origin_decision request) then Some "Origin" else None.

(* ===================================================================== *)
(** ** Further vocabulary *)
(* ===================================================================== *)

(** *** Query validation on every value *)

(** The item's query is truthy and its text fails the pattern. *)
Definition offends (req : SearchRequest) : bool :=
  ToBoolean (query req) && negb (test ALLOWED_QUERY_REGEX (ToString (query req))).

(** The item's query is truthy and its text has length 3 or more. *)
Definition counts_as_long (req : SearchRequest) : bool :=
  ToBoolean (query req) && (3 <=? length (ToString (query req)))%nat.

(** The truncated text that a rejection reports for an item. *)
Definition reported (req : SearchRequest) : jsstr :=
  substring0 100 (ToString (query req)).

(** *** Shapes of the allowed origins *)

Definition all_chars (p : ascii -> bool) (s : string) : bool :=
  forallb p (String.list_ascii_of_string s).

(** A non-empty run of lower-case letters, digits and dashes. *)
Definition is_label (s : string) : bool :=
  negb (String.eqb s "") && all_chars lower_alnum_dash s.

(** A non-empty run of digits. *)
Definition is_port (s : string) : bool :=
  negb (String.eqb s "") && all_chars digit s.

(** The labels, each followed by a dot. *)
Fixpoint subdomains (labels : list string) : string :=
  match labels with
  | [] => ""
  | l :: rest => l +:+ "." +:+ subdomains rest
  end.

Definition storefront_shape (origin : string) : Prop :=
  exists labels tld,
    forallb is_label labels = true
    /\ (tld = "de" \/ tld = "dev")
    /\ origin = "https://" +:+ subdomains labels +:+ "avocadostore." +:+ tld.

Definition localhost_shape (origin : string) : Prop :=
  origin = "http://localhost"
  \/ exists port, is_port port = true /\ origin = "http://localhost:" +:+ port.

(** *** Headers that the stamping writes *)

Definition STAMPED_NAMES : list string :=
  [ "access-control-allow-origin"; "vary"; "access-control-allow-methods";
    "access-control-allow-headers"; "access-control-max-age" ].

(** *** Reading a response and a history *)

(** The [ErrorDetail] that a JSON error body carries. *)
Definition body_detail (r : Response) : option ErrorDetail :=
  match body r with
  | BodyJson e => Some e
  | _ => None
  end.

Definition is_fetch (e : Event) : bool :=
  match e with EvFetch _ => true | _ => false end.

Definition is_cache_match (e : Event) : bool :=
  match e with EvCacheMatch _ => true | _ => false end.

Definition is_cache_put (e : Event) : bool :=
  match e with EvCachePut _ _ => true | _ => false end.

Definition is_log (e : Event) : bool :=
  match e with EvLog _ => true | _ => false end.

(** How many events of a kind a history has. *)
Definition count (p : Event -> bool) (evs : list Event) : nat :=
  length (List.filter p evs).

(** *** The runs of the handler *)

(** The runs of the handler from a world [w], each with the response, the
    events it adds to the history and the cache it leaves: a preflight, a
    rejected body, a cache hit, a miss followed by a dispatch that succeeded
    or failed, and a dispatch without the cache. *)
Inductive Handled (request : Request) (env : Env) (w : World)
  : Response -> list Event -> gmap string Response -> Prop :=
| Handled_preflight :
    method request = "OPTIONS" ->
    Handled request env w (handleOptions (requestContext request)) [] (cache w)
| Handled_rejected (error : Response) :
    method request <> "OPTIONS" ->
    validated request w = inl error ->
    Handled request env w error [EvLog LogError] (cache w)
| Handled_hit (bodyStr : option string) (r : Response) :
    method request <> "OPTIONS" ->
    validated request w = inr bodyStr ->
    cache_gate request env = true ->
    cache w !! key_of request = Some r ->
    Handled request env w
      (addCorsHeaders r (Some (ctx_origin (requestContext request))) (isSSR request))
      [EvCacheMatch (key_of request); EvLog (log_level r)] (cache w)
| Handled_stored (bodyStr : option string) (reqs : list FetchRequest) (r : Response) :
    method request <> "OPTIONS" ->
    validated request w = inr bodyStr ->
    cache_gate request env = true ->
    cache w !! key_of request = None ->
    fetchFromAlgolia (requestContext request) (req_headers request) bodyStr env
      (isSSR request) (advance w [EvCacheMatch (key_of request)])
    = (r, advance (advance w [EvCacheMatch (key_of request)]) (map EvFetch reqs)) ->
    ok r = true ->
    Handled request env w
      (addCorsHeaders r (Some (ctx_origin (requestContext request))) (isSSR request))
      (EvCacheMatch (key_of request) :: map EvFetch reqs
       ++ [EvCachePut (key_of request) (responseToStore r env (isSSR request));
           EvLog LogLog])
      (<[key_of request := responseToStore r env (isSSR request)]> (cache w))
| Handled_failed (bodyStr : option string) (reqs : list FetchRequest) (r : Response) :
    method request <> "OPTIONS" ->
    validated request w = inr bodyStr ->
    cache_gate request env = true ->
    cache w !! key_of request = None ->
    fetchFromAlgolia (requestContext request) (req_headers request) bodyStr env
      (isSSR request) (advance w [EvCacheMatch (key_of request)])
    = (r, advance (advance w [EvCacheMatch (key_of request)]) (map EvFetch reqs)) ->
    ok r = false ->
    Handled request env w
      (addCorsHeaders r (Some (ctx_origin (requestContext request))) (isSSR request))
      (EvCacheMatch (key_of request) :: map EvFetch reqs ++ [EvLog LogError]) (cache w)
| Handled_direct (bodyStr : option string) (reqs : list FetchRequest) (r : Response) :
    method request <> "OPTIONS" ->
    validated request w = inr bodyStr ->
    cache_gate request env = false ->
    fetchFromAlgolia (requestContext request) (req_headers request) bodyStr env
      (isSSR request) w
    = (r, advance w (map EvFetch reqs)) ->
    Handled request env w
      (addCorsHeaders r (Some (ctx_origin (requestContext request))) (isSSR request))
      (map EvFetch reqs ++ [EvLog (log_level r)]) (cache w).

(** The body that the handler forwards: the parsed body serialized again for
    a POST, none for another method. *)
Definition forwarded_body (request : Request) : option string :=
  if String.eqb (method request) "POST" then
    match json request with
    | JsonValue b => Some (stringify b)
    | JsonThrows _ | JsonIllTyped _ _ => None
    end
  else None.

(** The time-to-live that the handler stores a response with. *)
Definition cacheTtl (env : Env) (isSSRRequest : bool) : Z :=
  if isSSRRequest
  then parse_ttl (CACHE_TTL_SSR env) "600" 600
  else parse_ttl (CACHE_TTL_CLIENT env) "0" 0.

(** The names that the search path writes. *)
Definition SEARCH_NAMES : list string :=
  [ "x-algolia-api-key"; "x-algolia-application-id"; "x-algolia-agent" ].

(* ===================================================================== *)
(** ** The earlier validator *)
(* ===================================================================== *)

(** [isInvalidQuery] as [src/index.ts] has it: the same checks with a boolean
    result, [true] for a batch to reject. *)
Module Legacy.

(** The loop: [inl] is the [return true] from inside the loop, [inr] the
    value of [hasLongQuery] when the loop ends. *)
Fixpoint isInvalidQuery_loop (reqs : list SearchRequest) (hasLongQuery : bool)
  : bool + bool :=
  match reqs with
  | [] => inr hasLongQuery
  | req :: rest =>
      let queryValue := query req in
      if ToBoolean queryValue then
        let query := ToString queryValue in
        let hasLongQuery := if (3 <=? length query)%nat then true else hasLongQuery in
        if negb (test ALLOWED_QUERY_REGEX query) then inl true
        else isInvalidQuery_loop rest hasLongQuery
      else isInvalidQuery_loop rest hasLongQuery
  end.

Definition isInvalidQuery (reqs : list SearchRequest) : bool :=
  if forallb (fun req => bool_decide (query req = JString [])
                         || bool_decide (query req = JUndefined)) reqs
  then false
  else
    match isInvalidQuery_loop reqs false with
    | inl early => early
    | inr hasLongQuery => negb hasLongQuery
    end.

End Legacy.

(** A code unit that the query pattern has no place for: a control
    character, or a surrogate or a later code unit. *)
Definition control_or_astral (c : N) : bool :=
  (c <? 0x20)%N || in_range 0x7F 0x9F c || (0xD800 <=? c)%N.

(** The names of the four headers that every CORS answer carries. *)
Definition CORS_NAMES : list string :=
  [ "Access-Control-Allow-Origin"; "Access-Control-Allow-Methods";
    "Access-Control-Allow-Headers"; "Access-Control-Max-Age" ].

(** *** Exceptions while decoding and validating *)

(** The items that the validator can read of a value on which it can throw,
    and the message it throws with when it does. *)
Definition readable_items (ill : IllTypedRequests) : list SearchRequest :=
  match ill with
  | NotAnArray => []
  | ArrayWithNull before | ArrayWithUnconvertible before => before
  end.

Definition TypeError_message (ill : IllTypedRequests) : string :=
  match ill with
  | NotAnArray => NOT_AN_ARRAY_MESSAGE
  | ArrayWithNull _ => NULL_ITEM_MESSAGE
  | ArrayWithUnconvertible _ => UNCONVERTIBLE_MESSAGE
  end.

(** The message of the exception that decoding and validating a body ends
    with, if it ends with one: the parser's, or the validator's TypeError on a
    [requests] that is not an array, or on an item that cannot be read and
    that no item with a disallowed character precedes. *)
Definition thrown (j : JsonResult) : option string :=
  match j with
  | JsonThrows message => Some message
  | JsonValue _ => None
  | JsonIllTyped ill _ =>
      if existsb offends (readable_items ill) then None else Some (TypeError_message ill)
  end.

(** The key of a cache lookup or store. *)
Definition cache_key (e : Event) : option string :=
  match e with
  | EvCacheMatch key | EvCachePut key _ => Some key
  | _ => None
  end.

(* ===================================================================== *)
(** * Properties *)
(* ===================================================================== *)

(** ** The matcher decides the language of a pattern *)

Create HintDb re discriminated.
#[local] Hint Constructors lang : re.

Section RegexFacts.
Context {A : Type}.
Implicit Types (r s : regex A) (w u v : list A) (c : A).

Lemma lang_seq_inv r s w :
  lang (ReSeq r s) w -> exists u v, w = u ++ v /\ lang r u /\ lang s v.
Proof. inversion 1; subst; eauto. Qed.

Lemma lang_alt_inv r s w : lang (ReAlt r s) w -> lang r w \/ lang s w.
Proof. inversion 1; subst; auto. Qed.

Lemma lang_class_inv (p : A -> bool) w :
  lang (ReClass p) w -> exists c, w = [c] /\ p c = true.
Proof. inversion 1; subst; eauto. Qed.

Lemma lang_none_inv w : ~ lang (@ReNone A) w.
Proof. inversion 1. Qed.

Lemma lang_empty_inv w : lang (@ReEmpty A) w -> w = [].
Proof. inversion 1; reflexivity. Qed.

Lemma lang_nullable r : nullable r = true <-> lang r [].
Proof.
  induction r as [| |p|r IHr s IHs|r IHr s IHs|r IHr]; simpl; split; intros H;
    try discriminate; eauto with re.
  - now apply lang_none_inv in H.
  - apply lang_class_inv in H as (c & Hc & _). discriminate.
  - apply andb_true_iff in H as [Hr Hs].
    change (@nil A) with (@nil A ++ []). constructor; tauto.
  - apply lang_seq_inv in H as (u & v & Huv & Hu & Hv).
    symmetry in Huv. apply app_eq_nil in Huv as [-> ->].
    apply andb_true_iff; tauto.
  - apply orb_true_iff in H as [Hr|Hs]; [apply LAltL|apply LAltR]; tauto.
  - apply orb_true_iff. apply lang_alt_inv in H. tauto.
Qed.

(** A non-empty word of a starred pattern starts with a non-empty word of
    the pattern. *)
Lemma lang_star_cons r c w :
  lang (ReStar r) (c :: w) ->
  exists u v, w = u ++ v /\ lang r (c :: u) /\ lang (ReStar r) v.
Proof.
  remember (ReStar r) as rs eqn:Hrs. remember (c :: w) as cw eqn:Hcw.
  intros H. revert w Hcw. induction H as [| | | | | |r' u v Hu _ Hv IHv];
    intros w Hcw; try discriminate.
  injection Hrs as ->. destruct u as [|c' u'].
  - simpl in Hcw. apply IHv; auto.
  - simpl in Hcw. injection Hcw as -> <-. eauto.
Qed.

Lemma lang_deriv r c w : lang (deriv c r) w <-> lang r (c :: w).
Proof.
  revert w. induction r as [| |p|r IHr s IHs|r IHr s IHs|r IHr]; intros w; simpl.
  - split; intros H; now apply lang_none_inv in H.
  - split; intros H; [now apply lang_none_inv in H|].
    apply lang_empty_inv in H. discriminate.
  - destruct (p c) eqn:Hp; split; intros H.
    + apply lang_empty_inv in H as ->. now constructor.
    + apply lang_class_inv in H as (c' & [= -> ->] & _). constructor.
    + now apply lang_none_inv in H.
    + apply lang_class_inv in H as (c' & [= -> ->] & Hc'). congruence.
  - assert (Hcat : lang (ReSeq (deriv c r) s) w -> lang (ReSeq r s) (c :: w)).
    { intros H. apply lang_seq_inv in H as (u & v & -> & Hu & Hv).
      rewrite app_comm_cons. constructor; [apply IHr|]; assumption. }
    assert (Hsplit : lang (ReSeq r s) (c :: w) ->
                     lang (ReSeq (deriv c r) s) w \/
                     (lang r [] /\ lang s (c :: w))).
    { intros H. apply lang_seq_inv in H as (u & v & Huv & Hu & Hv).
      destruct u as [|c' u'].
      - right. simpl in Huv. subst v. auto.
      - left. simpl in Huv. injection Huv as <- ->.
        constructor; [apply IHr|]; assumption. }
    destruct (nullable r) eqn:Hn; split; intros H.
    + apply lang_alt_inv in H as [H|H]; [auto|].
      change (c :: w) with ([] ++ c :: w).
      constructor; [now apply lang_nullable | now apply IHs].
    + destruct (Hsplit H) as [H1|[_ H2]]; [now apply LAltL|].
      apply LAltR. now apply IHs.
    + auto.
    + destruct (Hsplit H) as [H1|[H1 _]]; [assumption|].
      apply lang_nullable in H1. congruence.
  - split; intros H; apply lang_alt_inv in H as [H|H];
      first [apply LAltL; now apply IHr | apply LAltR; now apply IHs].
  - split; intros H.
    + apply lang_seq_inv in H as (u & v & -> & Hu & Hv).
      rewrite app_comm_cons. constructor; [|assumption]. now apply IHr.
    + apply lang_star_cons in H as (u & v & -> & Hu & Hv).
      constructor; [now apply IHr | assumption].
Qed.

Theorem re_match_lang r w : re_match r w = true <-> lang r w.
Proof.
  revert r. induction w as [|c w IH]; intros r; simpl.
  - apply lang_nullable.
  - rewrite IH. apply lang_deriv.
Qed.

(** [/^[class]+$/] accepts exactly the non-empty inputs all of whose
    characters are in the class. *)
Lemma lang_star_class (p : A -> bool) w :
  lang (ReStar (ReClass p)) w <-> forallb p w = true.
Proof.
  split.
  - remember (ReStar (ReClass p)) as rs eqn:Hrs.
    induction 1 as [| | | | | |r' u v Hu _ Hv IHv]; try discriminate; [reflexivity|].
    injection Hrs as ->. apply lang_class_inv in Hu as (c & -> & Hc). simpl.
    rewrite IHv by reflexivity. now rewrite Hc.
  - induction w as [|c w IH]; simpl; intros H; [constructor|].
    apply andb_true_iff in H as [Hc Hw].
    change (c :: w) with ([c] ++ w). constructor; [now constructor | auto].
Qed.

Lemma re_match_plus_class (p : A -> bool) w :
  re_match (RePlus (ReClass p)) w =
  match w with [] => false | _ :: _ => forallb p w end.
Proof.
  apply eq_true_iff_eq. rewrite re_match_lang. unfold RePlus. split.
  - intros H. apply lang_seq_inv in H as (u & v & -> & Hu & Hv).
    apply lang_class_inv in Hu as (c & -> & Hc). simpl.
    apply lang_star_class in Hv. now rewrite Hc, Hv.
  - destruct w as [|c w]; [discriminate|]. simpl. intros H.
    apply andb_true_iff in H as [Hc Hw].
    change (c :: w) with ([c] ++ w).
    constructor; [now constructor | now apply lang_star_class].
Qed.
End RegexFacts.

(** *** Parsing inverts serialization *)

Section SearchParamsRoundTrip.
Import SearchParams.

Lemma occurs_app c a b : occurs c (a +:+ b) = occurs c a || occurs c b.
Proof. induction a as [|c' a IH]; simpl; [reflexivity|]. now rewrite IH, orb_assoc. Qed.

Ltac each_byte c := destruct c as [[] [] [] [] [] [] [] []].

Lemma decode_encode_byte c r : decode (encode_byte c +:+ r) = String c (decode r).
Proof. each_byte c; reflexivity. Qed.

Lemma decode_encode s : decode (encode s) = s.
Proof.
  induction s as [|c s IH]; simpl; [reflexivity|].
  now rewrite decode_encode_byte, IH.
Qed.

Lemma encode_byte_separators c :
  occurs "&" (encode_byte c) = false /\ occurs "=" (encode_byte c) = false.
Proof. each_byte c; split; reflexivity. Qed.

Lemma encode_separators s :
  occurs "&" (encode s) = false /\ occurs "=" (encode s) = false.
Proof.
  induction s as [|c s [IH1 IH2]]; simpl; [auto|].
  rewrite !occurs_app, IH1, IH2.
  destruct (encode_byte_separators c) as [-> ->]. auto.
Qed.

Lemma split_on_fresh sep a : occurs sep a = false -> split_on sep a = [a].
Proof.
  induction a as [|c a IH]; simpl; [reflexivity|]. intros H.
  apply orb_false_iff in H as [-> H]. now rewrite IH.
Qed.

Lemma split_on_app sep a b :
  occurs sep a = false -> split_on sep (a +:+ String sep b) = a :: split_on sep b.
Proof.
  induction a as [|c a IH]; simpl; intros H.
  - now rewrite Ascii.eqb_refl.
  - apply orb_false_iff in H as [-> H]. now rewrite IH.
Qed.

Lemma break_on_app sep a b :
  occurs sep a = false -> break_on sep (a +:+ String sep b) = (a, Some b).
Proof.
  induction a as [|c a IH]; simpl; intros H.
  - now rewrite Ascii.eqb_refl.
  - apply orb_false_iff in H as [-> H]. now rewrite IH.
Qed.

Lemma parse_pair_text kv : parse_pair (pair_text kv) = kv.
Proof.
  destruct kv as [k v]. unfold parse_pair, pair_text. simpl fst; simpl snd.
  change ("=" +:+ encode v) with (String "="%char (encode v)).
  rewrite break_on_app by apply encode_separators.
  simpl. now rewrite !decode_encode.
Qed.

Lemma pair_text_no_amp kv : occurs "&" (pair_text kv) = false.
Proof.
  unfold pair_text. rewrite !occurs_app.
  destruct (encode_separators (fst kv)) as [-> _].
  destruct (encode_separators (snd kv)) as [-> _]. reflexivity.
Qed.

Lemma pair_text_nonempty kv : String.eqb (pair_text kv) "" = false.
Proof.
  unfold pair_text. destruct (encode (fst kv)); reflexivity.
Qed.

Theorem parse_toString (l : URLSearchParams) : parse (toString l) = l.
Proof.
  unfold parse, toString.
  change (fun kv => encode (fst kv) +:+ "=" +:+ encode (snd kv)) with pair_text.
  induction l as [|kv l IH]; [reflexivity|].
  destruct l as [|kv' l].
  - cbn [map String.concat]. rewrite split_on_fresh by apply pair_text_no_amp.
    cbn [List.filter]. rewrite pair_text_nonempty. cbn [negb map].
    now rewrite parse_pair_text.
  - change (String.concat "&" (map pair_text (kv :: kv' :: l)))
      with (pair_text kv +:+ String "&"%char (String.concat "&" (map pair_text (kv' :: l)))).
    rewrite split_on_app by apply pair_text_no_amp.
    cbn [List.filter]. rewrite pair_text_nonempty. cbn [negb].
    rewrite map_cons, parse_pair_text. f_equal. exact IH.
Qed.

Corollary toString_inj (l1 l2 : URLSearchParams) :
  toString l1 = toString l2 -> l1 = l2.
Proof. intros H. rewrite <- (parse_toString l1), <- (parse_toString l2). now rewrite H. Qed.
End SearchParamsRoundTrip.

(** ** Sample evaluations *)

Example isInvalidQuery_ex_short :
  isInvalidQuery [mkSearchRequest (JString (units "ab")) []]
  = mkValidation true (Some too_short) (Some (units "ab")).
Proof. reflexivity. Qed.

Example isInvalidQuery_ex_ok :
  isInvalidQuery [mkSearchRequest (JString (units "schok")) []]
  = mkValidation false None None.
Proof. reflexivity. Qed.

Example isInvalidQuery_ex_bad :
  isInvalidQuery [mkSearchRequest (JString (units "ab" ++ [0xD83D; 0xDE00]%N)) []]
  = mkValidation true (Some invalid_characters)
      (Some (units "ab" ++ [0xD83D; 0xDE00]%N)).
Proof. reflexivity. Qed.

Example toString_ex :
  SearchParams.toString [("cacheKey", "a b&c"); ("ssr", "1")] = "cacheKey=a+b%26c&ssr=1".
Proof. reflexivity. Qed.

Example parse_ex :
  SearchParams.parse "q=a+b%26c&&x&y=%zz" = [("q", "a b&c"); ("x", ""); ("y", "%zz")].
Proof. reflexivity. Qed.

Example set_ex :
  SearchParams.set "k" "9" [("a", "1"); ("k", "2"); ("b", "3"); ("k", "4")]
  = [("a", "1"); ("k", "9"); ("b", "3")].
Proof. reflexivity. Qed.

Example parseInt_ex :
  map parseInt ["600"; " 12px"; "-5"; "abc"; ""; "-0"; "+7"]
  = [Some 600; Some 12; Some (-5); None; None; Some 0; Some 7]%Z.
Proof. reflexivity. Qed.

Example parse_ttl_ex :
  (parse_ttl None "0" 0, parse_ttl (Some "") "600" 600, parse_ttl (Some "x") "600" 600,
   parse_ttl (Some "1800") "600" 600, parse_ttl (Some "0") "600" 600)
  = (0, 600, 600, 1800, 600)%Z.
Proof. reflexivity. Qed.

Example isOriginAllowed_ex :
  map isOriginAllowed
    [ "https://www.avocadostore.de"; "https://shop.avocadostore.de";
      "https://avocadostore.dev"; "https://a.b-c.avocadostore.dev";
      "http://localhost"; "http://localhost:3000"; "https://dash.cloudflare.com";
      "https://evil.com"; "http://www.avocadostore.de"; "https://avocadostore.de.evil.com";
      "https://evilavocadostore.de"; "http://localhost:"; "*"; "" ]
  = [ true; true; true; true; true; true; true;
      false; false; false; false; false; false; false ].
Proof. reflexivity. Qed.

(* ===================================================================== *)
(** ** Query validator *)
(* ===================================================================== *)

Lemma negb_forallb {A : Type} (p : A -> bool) (l : list A) :
  negb (forallb p l) = existsb (fun x => negb (p x)) l.
Proof.
  induction l as [|x l IH]; simpl; [reflexivity|].
  now rewrite negb_andb, IH.
Qed.

(** The pattern test fails exactly when some code unit is outside the class
    (or the input is empty). *)
Lemma test_ALLOWED_QUERY_REGEX (c : N) (s : jsstr) :
  negb (test ALLOWED_QUERY_REGEX (c :: s))
  = existsb (fun u => negb (ALLOWED_QUERY_CLASS u)) (c :: s).
Proof.
  unfold test, ALLOWED_QUERY_REGEX. rewrite re_match_plus_class.
  apply negb_forallb.
Qed.

(** No allowed code unit is a surrogate, so the class is one of whole
    characters: a string has a code point outside it exactly when it has a
    code unit outside it. *)
Lemma ALLOWED_QUERY_CLASS_below_surrogates (c : N) :
  ALLOWED_QUERY_CLASS c = true -> (c < 0xD800)%N.
Proof.
  unfold ALLOWED_QUERY_CLASS, in_range. intros H.
  apply orb_true_iff in H as [H|H]; [apply orb_true_iff in H as [H|H]|].
  - apply andb_true_iff in H as [_ H]. apply N.leb_le in H. lia.
  - apply andb_true_iff in H as [_ H]. apply N.leb_le in H. lia.
  - apply existsb_exists in H as (x & Hin & Hx). apply N.eqb_eq in Hx. subst x.
    unfold ALLOWED_QUERY_LITERALS in Hin. simpl in Hin.
    repeat (destruct Hin as [<-|Hin]; [lia|]). destruct Hin.
Qed.

(** The scanning loop on a batch of strings, absent and falsy queries. *)
Lemma isInvalidQuery_loop_classified (reqs : list SearchRequest) (acc : bool) :
  forallb string_or_falsy reqs = true ->
  match isInvalidQuery_loop reqs acc with
  | inl early =>
      existsb has_disallowed_character reqs = true
      /\ invalid early = true /\ v_errorType early = Some invalid_characters
  | inr hasLongQuery =>
      existsb has_disallowed_character reqs = false
      /\ hasLongQuery = acc || existsb is_long reqs
  end.
Proof.
  revert acc. induction reqs as [|req reqs IH]; intros acc Hscope.
  - simpl. now rewrite orb_false_r.
  - cbn [forallb] in Hscope. apply andb_true_iff in Hscope as [Hreq Hreqs].
    cbn [isInvalidQuery_loop existsb].
    unfold string_or_falsy in Hreq.
    unfold has_disallowed_character at 1 3, is_long at 1.
    destruct (query req) as [| |[]|text|[|c s]|obj] eqn:Hq; try discriminate;
      cbn [ToBoolean ToString]; rewrite ?Hreq; cbn [negb].
    1-5: specialize (IH acc Hreqs); destruct (isInvalidQuery_loop reqs acc); exact IH.
    + rewrite test_ALLOWED_QUERY_REGEX.
      destruct (existsb _ (c :: s)) eqn:Hbad; [now cbn|].
      set (acc' := if (3 <=? length (c :: s))%nat then true else acc).
      specialize (IH acc' Hreqs). cbn [orb].
      destruct (isInvalidQuery_loop reqs acc') as [early|long]; [exact IH|].
      destruct IH as [IH1 IH2]. split; [exact IH1|]. rewrite IH2. subst acc'.
      destruct (3 <=? length (c :: s))%nat; cbn [orb];
        [now rewrite orb_true_r | reflexivity].
Qed.

Lemma all_empty_check (reqs : list SearchRequest) :
  forallb (fun req => bool_decide (query req = JString [])
                      || bool_decide (query req = JUndefined)) reqs
  = forallb empty_or_absent reqs.
Proof.
  induction reqs as [|req reqs IH]; [reflexivity|].
  cbn [forallb]. rewrite IH. f_equal. unfold empty_or_absent.
  destruct (query req) as [| | | |[|c s]|text]; reflexivity.
Qed.

(** C3.  On every batch of items whose query is a string or absent (the
    declared type [query?: string]) or a falsy value, the validator gives the
    outcome of the specification's four rules: accept when
    every query is empty or absent; otherwise reject as invalid-characters
    when some non-empty query has a character outside the allowed class,
    whatever the lengths; otherwise reject as too-short when no query has
    length 3 or more; otherwise accept. *)
Theorem C3_isInvalidQuery_classification (reqs : list SearchRequest) :
  forallb string_or_falsy reqs = true ->
  outcome_of (isInvalidQuery reqs) = classify_spec reqs.
Proof.
  intros Hscope. unfold isInvalidQuery, classify_spec.
  rewrite all_empty_check.
  destruct (forallb empty_or_absent reqs); [reflexivity|].
  pose proof (isInvalidQuery_loop_classified reqs false Hscope) as Hloop.
  destruct (isInvalidQuery_loop reqs false) as [early|long].
  - destruct Hloop as (-> & Hinv & Hty). unfold outcome_of. now rewrite Hinv, Hty.
  - destruct Hloop as (-> & ->). simpl.
    destruct (existsb is_long reqs); reflexivity.
Qed.

(** C3 on a batch with a short query, an absent query and a query with a
    character outside the class. *)
Lemma C3_isInvalidQuery_classification_witness :
  let reqs := [ mkSearchRequest (JString (units "ab")) [];
                mkSearchRequest JUndefined [("indexName", "products")];
                mkSearchRequest (JString (units "abcd" ++ [0x263A]%N)) [] ] in
  forallb string_or_falsy reqs = true
  /\ outcome_of (isInvalidQuery reqs) = Rejected_as invalid_characters.
Proof.
  intros reqs. split; [reflexivity|].
  rewrite (C3_isInvalidQuery_classification reqs); reflexivity.
Defined.

(* ===================================================================== *)
(** ** Runs of the dispatcher *)
(* ===================================================================== *)

Ltac unfold_monad := unfold mbind, M_bind, mret, M_ret in *; cbn beta iota.

Lemma advance_nil w : advance w [] = w.
Proof. destruct w. unfold advance. simpl. now rewrite app_nil_r. Qed.

Lemma advance_advance w a b : advance (advance w a) b = advance w (a ++ b).
Proof. unfold advance. simpl. now rewrite app_assoc. Qed.

Lemma record_advance w e : record e w = advance w [e].
Proof. reflexivity. Qed.

Lemma attempt_text_attempt_of host o :
  attempt_text (attempt_of host o) = host +:+ status_text o.
Proof.
  destruct o as [r|e]; [|reflexivity].
  unfold attempt_text, status_text. simpl. now destruct (status r).
Qed.

Lemma length_outcomes w reqs : length (outcomes w reqs) = length reqs.
Proof. revert w. induction reqs as [|rq reqs IH]; intros w; simpl; [reflexivity|]. now rewrite IH. Qed.

(** The [k]-th outcome is the answer to the [k]-th call after the calls
    before it. *)
Lemma outcomes_lookup w reqs k o :
  outcomes w reqs !! k = Some o ->
  exists rq, reqs !! k = Some rq
             /\ o = upstream w (trace w ++ map EvFetch (take k reqs)) rq.
Proof.
  revert w k. induction reqs as [|rq reqs IH]; intros w k H; [discriminate|].
  destruct k as [|k]; simpl in H.
  - injection H as <-. exists rq. simpl. now rewrite app_nil_r.
  - apply IH in H as (rq' & Hrq' & ->). exists rq'. split; [exact Hrq'|].
    simpl. now rewrite <- app_assoc.
Qed.

Lemma first_success_Some outs k r :
  first_success outs = Some (k, r) ->
  outs !! k = Some (Resolved r) /\ ok r = true
  /\ forall j o, (j < k)%nat -> outs !! j = Some o -> succeeded o = None.
Proof.
  revert k. induction outs as [|o outs IH]; intros k H; [discriminate|].
  simpl in H. destruct (succeeded o) as [r'|] eqn:Ho.
  - injection H as <- <-. destruct o as [r0|e]; [|discriminate]. simpl in Ho.
    destruct (ok r0) eqn:Hok; [|discriminate]. injection Ho as ->.
    repeat split; [assumption|]. intros j o Hj. lia.
  - destruct (first_success outs) as [[k' r']|]; [|discriminate].
    injection H as <- <-. destruct (IH k' eq_refl) as (H1 & H2 & H3).
    repeat split; [exact H1 | exact H2 |].
    intros [|j] o' Hj Ho'; simpl in Ho'.
    + now injection Ho' as <-.
    + apply (H3 j); [lia | exact Ho'].
Qed.

Lemma first_success_None outs :
  first_success outs = None -> forall o, o ∈ outs -> succeeded o = None.
Proof.
  induction outs as [|o outs IH]; intros H o' Hin; [now apply elem_of_nil in Hin|].
  simpl in H. destruct (succeeded o) eqn:Ho; [discriminate|].
  destruct (first_success outs); [discriminate|].
  apply elem_of_cons in Hin as [->|Hin]; [exact Ho | now apply IH].
Qed.

(** The loop, as a function of the outcomes of the calls it can make. *)
Lemma tryAlgoliaHosts_loop_run pathname search method headers bodyStr hosts attempts w :
  let reqs := map (hostRequest pathname search method headers bodyStr) hosts in
  let outs := outcomes w reqs in
  tryAlgoliaHosts_loop pathname search method headers bodyStr hosts attempts w
  = match first_success outs with
    | Some (k, r) => (inl r, advance w (map EvFetch (take (S k) reqs)))
    | None => (inr (attempts ++ zip_with attempt_of hosts outs),
               advance w (map EvFetch reqs))
    end.
Proof.
  revert attempts w. induction hosts as [|host hosts IH]; intros attempts w; simpl.
  - now rewrite app_nil_r, advance_nil.
  - unfold_monad. unfold do_fetch.
    fold (hostRequest pathname search method headers bodyStr host).
    set (rq := hostRequest pathname search method headers bodyStr host).
    destruct (upstream w (trace w) rq) as [r|e] eqn:Hout; simpl.
    + destruct (ok r) eqn:Hok; [reflexivity|].
      rewrite IH. cbv zeta.
      destruct (first_success _) as [[k r']|]; simpl.
      * now rewrite record_advance, advance_advance.
      * now rewrite record_advance, advance_advance, <- app_assoc.
    + rewrite IH. cbv zeta.
      destruct (first_success _) as [[k r']|]; simpl.
      * now rewrite record_advance, advance_advance.
      * now rewrite record_advance, advance_advance, <- app_assoc.
Qed.

Lemma map_attempt_text hosts outs :
  map attempt_text (zip_with attempt_of hosts outs)
  = zip_with (fun h o => h +:+ status_text o) hosts outs.
Proof.
  revert outs. induction hosts as [|h hosts IH]; intros [|o outs]; simpl; try reflexivity.
  now rewrite attempt_text_attempt_of, IH.
Qed.

(** C2 (amended).  The search path tries the four hosts derived from the
    application id, in the fixed order primary then fallbacks 1, 2, 3.  Either
    some attempt is the first to resolve with a success status: then exactly
    the hosts up to that one were contacted and its response is returned; or
    no attempt succeeds: then all four were contacted in order and the result
    is a 502 whose JSON body has errorType [algolia] and whose details name
    every host in order, each followed by its status in parentheses when the
    attempt got a response (the text of a thrown error and the body of a
    failed response are not in the details). *)
Theorem C2_failover_order_and_aggregate_failure
    (w : World) (pathname search method : string) (headers : Headers)
    (bodyStr : option string) (applicationId : string)
    (isSSRRequest : bool) (userAgent : string) :
  let hosts := getHosts applicationId in
  let reqs := map (hostRequest pathname search method headers bodyStr) hosts in
  let outs := outcomes w reqs in
  let result := tryAlgoliaHosts pathname search method headers bodyStr hosts
                  isSSRRequest userAgent w in
  hosts = [ applicationId +:+ "-dsn.algolia.net"; applicationId +:+ "-1.algolianet.com";
            applicationId +:+ "-2.algolianet.com"; applicationId +:+ "-3.algolianet.com" ]
  /\ ((exists k r,
          outs !! k = Some (Resolved r) /\ ok r = true
          /\ (forall j o, (j < k)%nat -> outs !! j = Some o -> succeeded o = None)
          /\ result = (r, advance w (map EvFetch (take (S k) reqs))))
      \/ ((forall o, o ∈ outs -> succeeded o = None)
          /\ snd result = advance w (map EvFetch reqs)
          /\ status (fst result) = 502%N
          /\ body_errorType (fst result) = Some algolia
          /\ details_text (fst result)
             = Some ("Tried 4 host(s): "
                     +:+ String.concat ", "
                           (zip_with (fun h o => h +:+ status_text o) hosts outs)))).
Proof.
  intros hosts reqs outs result. split; [reflexivity|].
  subst result. unfold tryAlgoliaHosts. unfold_monad.
  rewrite tryAlgoliaHosts_loop_run. fold reqs. fold outs.
  destruct (first_success outs) as [[k r]|] eqn:Hfirst.
  - left. exists k, r.
    destruct (first_success_Some _ _ _ Hfirst) as (H1 & H2 & H3). auto.
  - right. split; [now apply first_success_None|].
    unfold now. cbn [fst snd]. repeat split.
    unfold details_text, attempts_details. cbn [body Response_of_text details app].
    rewrite map_attempt_text, length_zip_with.
    unfold outs. rewrite length_outcomes. reflexivity.
Qed.

(** C2, counterexample to the claim as stated: when all four hosts throw, the
    details name the hosts but carry no error text. *)
Lemma C2_details_omit_thrown_errors :
  let w := sample_world (always_throws "Error: Network error") in
  let hosts := getHosts "testtest" in
  let response := fst (tryAlgoliaHosts "/1/indexes/*/queries" "?x=1" "POST" ∅ None hosts
                         false "unknown" w) in
  match fst (tryAlgoliaHosts_loop "/1/indexes/*/queries" "?x=1" "POST" ∅ None hosts [] w) with
  | inl _ => False
  | inr attempts =>
      length attempts = 4%nat /\ status response = 502%N
      /\ ~ details_list_every_attempt response attempts
  end.
Proof.
  cbv zeta. split; [reflexivity|]. split; [reflexivity|].
  intros (text & Htext & Hall).
  vm_compute in Htext. injection Htext as <-.
  specialize (Hall (mkHostAttempt "testtest-dsn.algolia.net" None
                      (Some (Thrown "Error: Network error")) None)).
  assert (Hin : mkHostAttempt "testtest-dsn.algolia.net" None
                  (Some (Thrown "Error: Network error")) None
                ∈ [ mkHostAttempt "testtest-dsn.algolia.net" None
                      (Some (Thrown "Error: Network error")) None;
                    mkHostAttempt "testtest-1.algolianet.com" None
                      (Some (Thrown "Error: Network error")) None;
                    mkHostAttempt "testtest-2.algolianet.com" None
                      (Some (Thrown "Error: Network error")) None;
                    mkHostAttempt "testtest-3.algolianet.com" None
                      (Some (Thrown "Error: Network error")) None ])
    by (apply elem_of_cons; left; reflexivity).
  specialize (Hall Hin). vm_compute in Hall. discriminate.
Qed.

(* ===================================================================== *)
(** ** [URLSearchParams]: reading after writing *)
(* ===================================================================== *)

Section SearchParamsFacts.
Import SearchParams.
Implicit Types (l : URLSearchParams) (name value : string).

Lemma name_is_true name kv : name_is name kv = true <-> fst kv = name.
Proof. unfold name_is. apply String.eqb_eq. Qed.

Lemma name_is_false name kv : name_is name kv = false <-> fst kv <> name.
Proof. unfold name_is. apply String.eqb_neq. Qed.

Lemma get_named name l : get name l = snd <$> head (named name l).
Proof.
  unfold get, named. induction l as [|kv l IH]; simpl; [reflexivity|].
  destruct (name_is name kv); [reflexivity | exact IH].
Qed.

Lemma named_delete_eq name l : named name (delete name l) = [].
Proof.
  unfold named, delete. induction l as [|kv l IH]; simpl; [reflexivity|].
  destruct (name_is name kv) eqn:Hkv; simpl; [exact IH|]. now rewrite Hkv.
Qed.

Lemma named_delete_ne name name' l :
  name <> name' -> named name (delete name' l) = named name l.
Proof.
  intros Hne. unfold named, delete. induction l as [|kv l IH]; simpl; [reflexivity|].
  destruct (name_is name' kv) eqn:Hkv'; simpl.
  - apply name_is_true in Hkv'.
    assert (name_is name kv = false) as -> by (apply name_is_false; congruence).
    exact IH.
  - now rewrite IH.
Qed.

Lemma named_set_eq name value l : named name (set name value l) = [(name, value)].
Proof.
  induction l as [|kv l IH]; simpl.
  - unfold named. simpl. unfold name_is at 1. simpl. now rewrite String.eqb_refl.
  - destruct (name_is name kv) eqn:Hkv.
    + apply name_is_true in Hkv. rewrite Hkv.
      change (named name ((name, value) :: delete name l))
        with (if name_is name (name, value)
              then (name, value) :: named name (delete name l)
              else named name (delete name l)).
      unfold name_is at 1. simpl. now rewrite String.eqb_refl, named_delete_eq.
    + change (named name (kv :: set name value l))
        with (if name_is name kv then kv :: named name (set name value l)
              else named name (set name value l)).
      now rewrite Hkv.
Qed.

Lemma named_set_ne name name' value l :
  name <> name' -> named name (set name' value l) = named name l.
Proof.
  intros Hne. induction l as [|kv l IH]; simpl.
  - unfold named. simpl.
    assert (name_is name (name', value) = false) as ->
        by (apply name_is_false; simpl; congruence).
    reflexivity.
  - destruct (name_is name' kv) eqn:Hkv'.
    + apply name_is_true in Hkv'.
      assert (Hkv : name_is name kv = false) by (apply name_is_false; congruence).
      assert (Hkv2 : name_is name (fst kv, value) = false)
        by (apply name_is_false; simpl; congruence).
      unfold named. simpl. rewrite Hkv, Hkv2.
      now apply named_delete_ne.
    + unfold named. simpl. unfold named in IH. now rewrite IH.
Qed.

Lemma get_set_eq name value l : get name (set name value l) = Some value.
Proof. now rewrite get_named, named_set_eq. Qed.

Lemma get_set_ne name name' value l :
  name <> name' -> get name (set name' value l) = get name l.
Proof. intros. now rewrite !get_named, named_set_ne. Qed.

Lemma string_app_nonempty (a b : string) :
  String.eqb a "" = false -> String.eqb (a +:+ b) "" = false.
Proof. destruct a; [discriminate | reflexivity]. Qed.

Lemma toString_cons_nonempty kv l : String.eqb (toString (kv :: l)) "" = false.
Proof.
  unfold toString. cbn [map]. fold (pair_text kv).
  destruct l as [|kv' l]; cbn [String.concat map].
  - apply pair_text_nonempty.
  - apply string_app_nonempty, pair_text_nonempty.
Qed.

Lemma set_nonempty name value l : set name value l <> [].
Proof. destruct l as [|kv l]; simpl; [discriminate|]. destruct (name_is name kv); discriminate. Qed.
End SearchParamsFacts.

(* ===================================================================== *)
(** ** Cache key synthesis *)
(* ===================================================================== *)

Lemma string_length_app (a b : string) :
  String.length (a +:+ b) = (String.length a + String.length b)%nat.
Proof. induction a as [|c a IH]; simpl; [reflexivity | now rewrite IH]. Qed.

Lemma string_app_inv_head (a b1 b2 : string) : a +:+ b1 = a +:+ b2 -> b1 = b2.
Proof. induction a as [|c a IH]; simpl; intros H; [exact H|]. injection H as H. auto. Qed.

Lemma string_app_inv_tail (a1 a2 b : string) : a1 +:+ b = a2 +:+ b -> a1 = a2.
Proof.
  revert a2. induction a1 as [|c a1 IH]; intros [|c' a2] H; simpl in H.
  - reflexivity.
  - apply (f_equal String.length) in H. rewrite !string_length_app in H.
    change (String.length (String c' a2)) with (S (String.length a2)) in H.
    change (String.length "") with 0%nat in H. lia.
  - apply (f_equal String.length) in H. rewrite !string_length_app in H.
    change (String.length (String c a1)) with (S (String.length a1)) in H.
    change (String.length "") with 0%nat in H. lia.
  - injection H as -> H. f_equal. now apply IH.
Qed.

Lemma search_with_searchParams (u : URL) (l : URLSearchParams) :
  l <> [] -> search (with_searchParams u l) = Some (SearchParams.toString l).
Proof.
  intros Hl. destruct l as [|kv l]; [congruence|]. unfold with_searchParams. cbn [search].
  pose proof (toString_cons_nonempty kv l) as Hne.
  destruct (SearchParams.toString (kv :: l)); [discriminate | reflexivity].
Qed.

(** The key is the URL with the two parameters set. *)
Lemma cacheKeyUrl_shape (u : URL) (token : string) (ssr : bool) :
  cacheKeyUrl u token ssr
  = url_origin u +:+ pathname u +:+ ("?" +:+
      SearchParams.toString
        (SearchParams.set "ssr" (if ssr then "1" else "0")
           (SearchParams.set "cacheKey" token (searchParams u)))) +:+ hash u.
Proof.
  unfold cacheKeyUrl, href.
  rewrite search_with_searchParams by apply set_nonempty. reflexivity.
Qed.

Lemma cacheKeyUrl_nonempty (u : URL) (token : string) (ssr : bool) :
  String.eqb (cacheKeyUrl u token ssr) "" = false.
Proof.
  rewrite cacheKeyUrl_shape.
  destruct (String.eqb _ "") eqn:H; [|reflexivity].
  apply String.eqb_eq in H. apply (f_equal String.length) in H.
  rewrite !string_length_app in H. simpl in H. lia.
Qed.

(** The key determines the token and the flag it was built from. *)
Lemma cacheKeyUrl_inj (u1 u2 : URL) (t1 t2 : string) (s1 s2 : bool) :
  url_origin u1 = url_origin u2 -> pathname u1 = pathname u2 -> hash u1 = hash u2 ->
  cacheKeyUrl u1 t1 s1 = cacheKeyUrl u2 t2 s2 -> t1 = t2 /\ s1 = s2.
Proof.
  intros Ho Hp Hh Hkey. rewrite !cacheKeyUrl_shape, Ho, Hp, Hh in Hkey.
  do 2 apply string_app_inv_head in Hkey.
  apply string_app_inv_tail in Hkey. injection Hkey as Hkey.
  apply toString_inj in Hkey.
  split.
  - apply (f_equal (SearchParams.get "cacheKey")) in Hkey.
    rewrite 2!(get_set_ne "cacheKey" "ssr"), 2!get_set_eq in Hkey by discriminate.
    congruence.
  - apply (f_equal (SearchParams.get "ssr")) in Hkey.
    rewrite 2!get_set_eq in Hkey. destruct s1, s2; congruence.
Qed.

(* ===================================================================== *)
(** ** Cache token *)
(* ===================================================================== *)

(** C9, counterexample to the claim as stated: a request carries both an
    (empty) [cacheKey] query parameter and the header, and the token is the
    header's value. *)
Lemma C9_empty_query_parameter_yields_to_header :
  let request := {| method := "POST";
                    url := queries_url (Some "cacheKey=");
                    req_headers := {[ "x-as-cache-key" := "from-header" ]};
                    json := search_body "search" |} in
  SearchParams.get "cacheKey" (searchParams (url request)) = Some ""
  /\ Headers.get "X-AS-Cache-Key" (req_headers request) = Some "from-header"
  /\ cacheKeyParam request <> SearchParams.get "cacheKey" (searchParams (url request))
  /\ cacheKeyParam request = Some "from-header".
Proof. cbv zeta. repeat split. vm_compute. discriminate. Qed.

(** C9 (amended).  When a request carries both a [cacheKey] query parameter
    and an [X-AS-Cache-Key] header, the cache token is the (first) value of
    the query parameter when that value is not empty, and the header's value
    when it is empty; in the first case the key is built from the query
    parameter's value. *)
Theorem C9_query_parameter_precedence (request : Request) (q h : string) :
  SearchParams.get "cacheKey" (searchParams (url request)) = Some q ->
  Headers.get "X-AS-Cache-Key" (req_headers request) = Some h ->
  cacheKeyParam request = Some (if String.eqb q "" then h else q)
  /\ (q <> "" -> key_of request = cacheKeyUrl (url request) q (isSSR request)).
Proof.
  intros Hq Hh. unfold key_of, cacheKeyParam, js_or. rewrite Hq, Hh. unfold truthy.
  destruct (String.eqb q "") eqn:Hempty; cbn [negb].
  - split; [reflexivity|]. apply String.eqb_eq in Hempty. congruence.
  - split; reflexivity.
Qed.

(** C9 on a request with two [cacheKey] parameters and the header. *)
Lemma C9_query_parameter_precedence_witness :
  let request := {| method := "POST";
                    url := queries_url (Some "cacheKey=from-query&cacheKey=second");
                    req_headers := {[ "x-as-cache-key" := "from-header" ]};
                    json := search_body "search" |} in
  cacheKeyParam request = Some "from-query"
  /\ key_of request = "https://example.com/1/indexes/*/queries?cacheKey=from-query&ssr=0".
Proof.
  intros request.
  destruct (C9_query_parameter_precedence request "from-query" "from-header")
    as [Htoken Hkey]; [reflexivity | reflexivity |].
  split; [exact Htoken|]. rewrite Hkey by discriminate. reflexivity.
Defined.

(* ===================================================================== *)
(** ** Analytics path *)
(* ===================================================================== *)

Lemma query_of_insightsUrl (ctx : RequestContext) (env : Env) :
  SearchParams.parse (query_of (insightsUrl ctx env)) = insightsParams ctx env.
Proof. unfold query_of, insightsUrl. cbn. apply parse_toString. Qed.

(** On the analytics path there is one upstream call, to the analytics URL. *)
Lemma fetchFromAlgolia_events (ctx : RequestContext) (originalHeaders : Headers)
    (bodyStr : option string) (env : Env) (isSSRRequest : bool) (w : World) :
  ctx_pathname ctx = "/1/events" ->
  let rq := {| f_url := insightsUrl ctx env; f_method := ctx_method ctx;
               f_headers := originalHeaders; f_body := bodyStr |} in
  fetchFromAlgolia ctx originalHeaders bodyStr env isSSRRequest w
  = (match upstream w (trace w) rq with
     | Resolved response => response
     | Rejected _ => INSIGHTS_FAILURE
     end, advance w [EvFetch rq]).
Proof.
  intros Hpath rq. unfold fetchFromAlgolia. rewrite Hpath, String.eqb_refl.
  unfold_monad. unfold do_fetch. fold rq.
  destruct (upstream w (trace w) rq); reflexivity.
Qed.

(** C8, counterexample to the claim as stated: a credential parameter that
    the caller spells in capitals is forwarded next to the lower-case one. *)
Lemma C8_other_casings_are_forwarded :
  let ctx := events_context [("X-ALGOLIA-API-KEY", "caller-key")] in
  let w := sample_world (always_resolves (text_response 200 ∅ "{}")) in
  match trace (snd (fetchFromAlgolia ctx ∅ None sample_env false w)) with
  | [EvFetch rq] =>
      is_substring "?X-ALGOLIA-API-KEY=caller-key&x-algolia-api-key=testtest&" (f_url rq) = true
      /\ SearchParams.has "X-ALGOLIA-API-KEY" (SearchParams.parse (query_of (f_url rq))) = true
      /\ lowercase_credentials_only (SearchParams.parse (query_of (f_url rq))) = false
  | _ => False
  end.
Proof. vm_compute. repeat split. Qed.

(** C8 (amended).  On the analytics path the forwarded URL carries the API
    key and the application id exactly once each, under their lower-case
    names and with the configured values; parameters named exactly
    [X-Algolia-Application-Id] or [X-Algolia-API-Key] are absent; every
    caller parameter under another name, other spellings of the credential
    names included, is forwarded unchanged. *)
Theorem C8_insights_credentials (ctx : RequestContext) (originalHeaders : Headers)
    (bodyStr : option string) (env : Env) (isSSRRequest : bool) (w : World) :
  ctx_pathname ctx = "/1/events" ->
  exists rq,
    snd (fetchFromAlgolia ctx originalHeaders bodyStr env isSSRRequest w)
    = advance w [EvFetch rq]
    /\ let forwarded := SearchParams.parse (query_of (f_url rq)) in
       f_url rq = "https://insights.algolia.io/1/events?" +:+ SearchParams.toString forwarded
       /\ named "x-algolia-api-key" forwarded
          = [("x-algolia-api-key", ALGOLIA_API_KEY env)]
       /\ named "x-algolia-application-id" forwarded
          = [("x-algolia-application-id", ALGOLIA_APPLICATION_ID env)]
       /\ named "X-Algolia-Application-Id" forwarded = []
       /\ named "X-Algolia-API-Key" forwarded = []
       /\ forall name, name ∉ INSIGHTS_NAMES ->
                       named name forwarded = named name (ctx_searchParams ctx).
Proof.
  intros Hpath. eexists. rewrite fetchFromAlgolia_events by exact Hpath.
  split; [reflexivity|]. cbn [f_url].
  cbv zeta. rewrite query_of_insightsUrl. split; [reflexivity|].
  unfold insightsParams. rewrite parse_toString.
  repeat split.
  - rewrite !named_delete_ne, !named_set_ne, named_set_eq by discriminate. reflexivity.
  - rewrite !named_delete_ne, named_set_ne, named_set_eq by discriminate. reflexivity.
  - rewrite named_delete_ne, named_delete_eq by discriminate. reflexivity.
  - apply named_delete_eq.
  - intros name Hname. unfold INSIGHTS_NAMES in Hname.
    rewrite !elem_of_cons, elem_of_nil in Hname.
    rewrite !named_delete_ne, !named_set_ne by (intros ->; tauto). reflexivity.
Qed.

(** C8 on the parameters that the insights client sends. *)
Lemma C8_insights_credentials_witness :
  let ctx := events_context [ ("X-Algolia-Application-Id", "UPPERCASE_APP_ID");
                              ("X-Algolia-API-Key", "UPPERCASE_API_KEY");
                              ("userToken", "user-456") ] in
  let w := sample_world (always_resolves (text_response 200 ∅ "{}")) in
  ctx_pathname ctx = "/1/events"
  /\ exists rq,
       snd (fetchFromAlgolia ctx ∅ None sample_env false w) = advance w [EvFetch rq]
       /\ named "x-algolia-api-key" (SearchParams.parse (query_of (f_url rq)))
          = [("x-algolia-api-key", "testtest")]
       /\ named "X-Algolia-API-Key" (SearchParams.parse (query_of (f_url rq))) = []
       /\ named "userToken" (SearchParams.parse (query_of (f_url rq)))
          = [("userToken", "user-456")].
Proof.
  intros ctx w. split; [reflexivity|].
  destruct (C8_insights_credentials ctx ∅ None sample_env false w eq_refl)
    as (rq & Hrun & _ & Hkey & _ & _ & Hgone & Hkept).
  exists rq. split; [exact Hrun|]. split; [exact Hkey|]. split; [exact Hgone|].
  rewrite Hkept; [reflexivity|].
  unfold INSIGHTS_NAMES. rewrite !elem_of_cons, elem_of_nil.
  intros [H|[H|[H|[H|[H|[]]]]]]; discriminate.
Defined.

(* ===================================================================== *)
(** ** Runs of the handler *)
(* ===================================================================== *)

Lemma events_of_advance {A : Type} (m : M A) (w : World) (evs : list Event) :
  snd (m w) = advance w evs -> events_of m w = evs.
Proof.
  intros H. unfold events_of. rewrite H. unfold advance. cbn [trace].
  now rewrite drop_app_length.
Qed.

Lemma parseRequestBody_world (request : Request) (w : World) :
  snd (parseRequestBody request w) = w.
Proof.
  unfold parseRequestBody.
  destruct (json request) as [message|b|ill text]; [reflexivity| |].
  - destruct (requests b) as [reqs|]; [|reflexivity].
    destruct (invalid (isInvalidQuery reqs)); reflexivity.
  - destruct (isInvalidQuery_ill_typed ill); reflexivity.
Qed.

(** The handler, case by case. *)
Lemma fetch_unfold (request : Request) (env : Env) (w : World) :
  fetch request env w
  = if String.eqb (method request) "OPTIONS"
    then (handleOptions (requestContext request), w)
    else
      match validated request w with
      | inl error => (error, advance w [EvLog LogError])
      | inr bodyStr =>
          let origin := Some (ctx_origin (requestContext request)) in
          let key := key_of request in
          if cache_gate request env then
            match cache w !! key with
            | Some r =>
                (addCorsHeaders r origin (isSSR request),
                 advance w [EvCacheMatch key; EvLog (log_level r)])
            | None =>
                let '(r, w1) :=
                  fetchFromAlgolia (requestContext request) (req_headers request) bodyStr
                    env (isSSR request) (advance w [EvCacheMatch key]) in
                (addCorsHeaders r origin (isSSR request),
                 if ok r
                 then advance
                        (with_cache w1
                           (<[key := responseToStore r env (isSSR request)]> (cache w1)))
                        [EvCachePut key (responseToStore r env (isSSR request));
                         EvLog LogLog]
                 else advance w1 [EvLog LogError])
            end
          else
            let '(r, w1) :=
              fetchFromAlgolia (requestContext request) (req_headers request) bodyStr
                env (isSSR request) w in
            (addCorsHeaders r origin (isSSR request), advance w1 [EvLog (log_level r)])
      end.
Proof.
  unfold fetch. destruct (String.eqb (method request) "OPTIONS"); [reflexivity|].
  unfold validated, cache_gate. unfold_monad.
  destruct (String.eqb (method request) "POST") eqn:Hpost.
  - pose proof (parseRequestBody_world request w) as Hw.
    destruct (parseRequestBody request w) as [[error|b] w0]. all: cbn [fst snd] in *; subst w0.
    + reflexivity.
    + cbn [requestContext ctx_isSSRRequest].
      destruct (truthy (cacheKeyParam request)) eqn:Htoken;
        destruct (shouldCache request env) eqn:Hshould; cbn [andb].
      2-4: destruct (fetchFromAlgolia _ _ _ _ _ _) as [r w1]; reflexivity.
      unfold cache_match. fold (key_of request).
      destruct (cache w !! key_of request) as [r|] eqn:Hhit.
      { unfold log. cbn beta iota. now rewrite !record_advance, advance_advance. }
      cbv zeta. rewrite record_advance.
      destruct (fetchFromAlgolia _ _ _ _ _ _) as [r w1].
      unfold truthy. cbn [default]. unfold key_of at 1.
      rewrite cacheKeyUrl_nonempty. cbn [negb andb]. rewrite andb_true_r.
      unfold cache_put, log. cbv beta iota zeta.
      destruct (ok r) eqn:Hok; cbv beta iota zeta; rewrite ?Hok; [|reflexivity].
      now rewrite !record_advance, advance_advance.
  - cbn [andb requestContext ctx_isSSRRequest].
    destruct (fetchFromAlgolia _ _ _ _ _ _) as [r w1]. reflexivity.
Qed.

(** The dispatcher only makes upstream calls; when its response has a success
    status, that response is what the last call resolved to. *)
Lemma fetchFromAlgolia_run (ctx : RequestContext) (originalHeaders : Headers)
    (bodyStr : option string) (env : Env) (isSSRRequest : bool) (w : World) :
  exists reqs,
    snd (fetchFromAlgolia ctx originalHeaders bodyStr env isSSRRequest w)
    = advance w (map EvFetch reqs)
    /\ (ok (fst (fetchFromAlgolia ctx originalHeaders bodyStr env isSSRRequest w)) = true ->
        exists pre rq,
          reqs = pre ++ [rq]
          /\ upstream w (trace w ++ map EvFetch pre) rq
             = Resolved (fst (fetchFromAlgolia ctx originalHeaders bodyStr env isSSRRequest w))).
Proof.
  destruct (String.eqb (ctx_pathname ctx) "/1/events") eqn:Hpath.
  - apply String.eqb_eq in Hpath.
    rewrite (fetchFromAlgolia_events _ _ _ _ _ _ Hpath). cbn [fst snd].
    eexists [_]. split; [reflexivity|]. intros Hok.
    eexists [], _. split; [reflexivity|]. cbn [map]. rewrite app_nil_r.
    destruct (upstream w (trace w) _) as [r|e]; [reflexivity | discriminate].
  - unfold fetchFromAlgolia. rewrite Hpath. unfold tryAlgoliaHosts. unfold_monad.
    rewrite tryAlgoliaHosts_loop_run.
    set (reqs := map _ (getHosts _)).
    destruct (first_success (outcomes w reqs)) as [[k r]|] eqn:Hfirst; cbn [fst snd].
    + exists (take (S k) reqs). split; [reflexivity|]. intros _.
      destruct (first_success_Some _ _ _ Hfirst) as (Hk & _ & _).
      apply outcomes_lookup in Hk as (rq & Hrq & Hout).
      exists (take k reqs), rq. split; [now apply take_S_r | now rewrite <- Hout].
    + exists reqs. split; [reflexivity|]. intros Hok.
      unfold now in Hok. cbn in Hok. discriminate.
Qed.

Lemma Forall_not_cache_fetches (reqs : list FetchRequest) :
  Forall (fun e => is_cache_event e = false) (map EvFetch reqs).
Proof. induction reqs; constructor; auto. Qed.

(** With the gate closed, the handler neither consults nor changes the
    cache. *)
Lemma fetch_gate_closed (request : Request) (env : Env) (w : World) :
  cache_gate request env = false ->
  Forall (fun e => is_cache_event e = false) (events_of (fetch request env) w)
  /\ cache (snd (fetch request env w)) = cache w.
Proof.
  intros Hgate.
  assert (H : exists evs, snd (fetch request env w) = advance w evs
                          /\ Forall (fun e => is_cache_event e = false) evs).
  { rewrite fetch_unfold. destruct (String.eqb (method request) "OPTIONS").
    - exists []. cbn [snd]. now rewrite advance_nil.
    - destruct (validated request w) as [error|bodyStr].
      + exists [EvLog LogError]. split; [reflexivity|]. repeat constructor.
      + cbv zeta. rewrite Hgate.
        destruct (fetchFromAlgolia_run (requestContext request) (req_headers request)
                    bodyStr env (isSSR request) w) as (reqs & Hrun & _).
        destruct (fetchFromAlgolia _ _ _ _ _ _) as [r w1]. cbn [snd] in *. subst w1.
        rewrite advance_advance. eexists. split; [reflexivity|].
        apply Forall_app. split; [apply Forall_not_cache_fetches | repeat constructor]. }
  destruct H as (evs & Hrun & Hevs).
  rewrite (events_of_advance _ _ _ Hrun), Hrun. auto.
Qed.

(** With the gate open, a request that passes validation starts with a cache
    lookup under its key. *)
Lemma fetch_gate_open (request : Request) (env : Env) (w : World) :
  cache_gate request env = true ->
  (forall error, validated request w <> inl error) ->
  exists rest, events_of (fetch request env) w = EvCacheMatch (key_of request) :: rest.
Proof.
  intros Hgate Hvalid.
  assert (Hmethod : String.eqb (method request) "OPTIONS" = false).
  { unfold cache_gate in Hgate. apply andb_true_iff in Hgate as [Hgate _].
    apply andb_true_iff in Hgate as [Hpost _]. apply String.eqb_eq in Hpost.
    now rewrite Hpost. }
  assert (H : exists rest, trace (snd (fetch request env w))
                           = trace w ++ EvCacheMatch (key_of request) :: rest).
  { rewrite fetch_unfold, Hmethod.
    destruct (validated request w) as [error|bodyStr]; [now destruct (Hvalid error)|].
    cbv zeta. rewrite Hgate. destruct (cache w !! key_of request) as [r|].
    - eexists. reflexivity.
    - destruct (fetchFromAlgolia_run (requestContext request) (req_headers request)
                  bodyStr env (isSSR request) (advance w [EvCacheMatch (key_of request)]))
        as (reqs & Hrun & _).
      destruct (fetchFromAlgolia _ _ _ _ _ _) as [r w1]. cbn [snd] in *. subst w1.
      destruct (ok r); cbn [with_cache advance trace];
        rewrite <- !app_assoc; cbn [app]; eexists; reflexivity. }
  destruct H as (rest & Hrun). exists rest. unfold events_of.
  now rewrite Hrun, drop_app_length.
Qed.

(** C4.  The cache is looked up or written only for a POST request that
    carries a cache token and is eligible, where an SSR-flagged request is
    eligible and another request is eligible only when the client-side TTL is
    greater than zero.  For a non-SSR request with a client TTL of zero (or
    less), and for a request without a token, the cache is neither consulted
    nor populated.  An eligible POST request with a token that passes
    validation starts with a lookup under its key. *)
Theorem C4_cache_only_when_eligible (request : Request) (env : Env) (w : World) :
  let evs := events_of (fetch request env) w in
  let w' := snd (fetch request env w) in
  ((exists e, e ∈ evs /\ is_cache_event e = true) ->
   method request = "POST" /\ truthy (cacheKeyParam request) = true
   /\ (isSSR request = true \/ (0 < cacheTtlClient env)%Z))
  /\ (isSSR request = false -> (cacheTtlClient env <= 0)%Z ->
      Forall (fun e => is_cache_event e = false) evs /\ cache w' = cache w)
  /\ (truthy (cacheKeyParam request) = false ->
      Forall (fun e => is_cache_event e = false) evs /\ cache w' = cache w)
  /\ (method request = "POST" -> truthy (cacheKeyParam request) = true ->
      isSSR request = true \/ (0 < cacheTtlClient env)%Z ->
      (forall error, validated request w <> inl error) ->
      exists rest, evs = EvCacheMatch (key_of request) :: rest).
Proof.
  intros evs w'. repeat split.
  8: { intros Hpost Htoken Heligible Hvalid. apply fetch_gate_open; [|exact Hvalid].
       apply String.eqb_eq in Hpost.
       unfold cache_gate, shouldCache. rewrite Hpost, Htoken. cbn [andb].
       destruct Heligible as [->|Httl]; [reflexivity|].
       apply Z.ltb_lt in Httl. rewrite Httl. now rewrite orb_true_r. }
  1-3: destruct H as (e & Hin & He);
       destruct (cache_gate request env) eqn:Hgate;
       [| destruct (fetch_gate_closed request env w Hgate) as [Hall _];
          rewrite Forall_forall in Hall; specialize (Hall e Hin); congruence];
       unfold cache_gate in Hgate;
       apply andb_true_iff in Hgate as [Hgate Hshould];
       apply andb_true_iff in Hgate as [Hpost Htoken].
  - now apply String.eqb_eq.
  - exact Htoken.
  - unfold shouldCache in Hshould. apply orb_true_iff in Hshould as [Hssr|Httl]; [now left|].
    right. now apply Z.ltb_lt.
  - apply fetch_gate_closed. unfold cache_gate, shouldCache. rewrite H.
    assert ((0 <? cacheTtlClient env)%Z = false) as -> by (apply Z.ltb_ge; lia).
    now rewrite andb_false_r.
  - apply fetch_gate_closed. unfold cache_gate, shouldCache. rewrite H.
    assert ((0 <? cacheTtlClient env)%Z = false) as -> by (apply Z.ltb_ge; lia).
    now rewrite andb_false_r.
  - apply fetch_gate_closed. unfold cache_gate. rewrite H. now rewrite andb_false_r.
  - apply fetch_gate_closed. unfold cache_gate. rewrite H. now rewrite andb_false_r.
Qed.

(** C4 on a client request with a token and no client TTL, an SSR request
    without a token, and an SSR request with a token. *)
Lemma C4_cache_only_when_eligible_witness :
  let w := sample_world (always_resolves hits) in
  let client := search_request (Some "cacheKey=test-key")
                  (browser_headers "https://www.avocadostore.de") "search" in
  let no_token := search_request None ssr_headers "search" in
  let ssr := search_request (Some "cacheKey=test-key") ssr_headers "search" in
  (isSSR client = false /\ (cacheTtlClient sample_env <= 0)%Z
   /\ Forall (fun e => is_cache_event e = false) (events_of (fetch client sample_env) w))
  /\ (truthy (cacheKeyParam no_token) = false
      /\ Forall (fun e => is_cache_event e = false) (events_of (fetch no_token sample_env) w))
  /\ ((exists e, e ∈ events_of (fetch ssr sample_env) w /\ is_cache_event e = true)
      /\ method ssr = "POST" /\ isSSR ssr = true).
Proof.
  intros w client no_token ssr.
  assert (Hclient : isSSR client = false) by reflexivity.
  assert (Httl : (cacheTtlClient sample_env <= 0)%Z) by (vm_compute; discriminate).
  assert (Htoken : truthy (cacheKeyParam no_token) = false) by reflexivity.
  destruct (C4_cache_only_when_eligible client sample_env w) as (_ & Hzero & _ & _).
  destruct (C4_cache_only_when_eligible no_token sample_env w) as (_ & _ & Hnone & _).
  destruct (C4_cache_only_when_eligible ssr sample_env w) as (Honly & _ & _ & Hopen).
  assert (Hev : exists e, e ∈ events_of (fetch ssr sample_env) w /\ is_cache_event e = true).
  { destruct (Hopen eq_refl eq_refl (or_introl eq_refl)) as (rest & ->);
      [intros error; discriminate|].
    eexists. split; [apply elem_of_cons; left; reflexivity | reflexivity]. }
  split; [|split].
  - split; [exact Hclient|]. split; [exact Httl|]. exact (proj1 (Hzero Hclient Httl)).
  - split; [exact Htoken|]. exact (proj1 (Hnone Htoken)).
  - split; [exact Hev|].
    destruct (Honly Hev) as (Hpost & _ & _). split; [exact Hpost | reflexivity].
Defined.

(* ===================================================================== *)
(** ** What is written to the cache *)
(* ===================================================================== *)

(** C5.  Whenever the handler writes to the cache, the lookup under the same
    key missed, the write comes directly after an upstream call that resolved
    with a success status, and what is written is that response with its
    [Cache-Control] rewritten.  A response with a non-success status, the
    handler's own 502, and an attempt that threw are never written, whatever
    the request and the upstream outcomes. *)
Theorem C5_store_only_after_upstream_success
    (request : Request) (env : Env) (w : World) (key : string) (stored : Response) :
  EvCachePut key stored ∈ events_of (fetch request env) w ->
  key = key_of request
  /\ cache w !! key = None
  /\ ok stored = true
  /\ exists pre rq response,
       events_of (fetch request env) w
       = EvCacheMatch key :: map EvFetch pre
         ++ [EvFetch rq; EvCachePut key stored; EvLog LogLog]
       /\ upstream w (trace w ++ EvCacheMatch key :: map EvFetch pre) rq = Resolved response
       /\ ok response = true
       /\ stored = responseToStore response env (isSSR request).
Proof.
  intros Hin.
  assert (Hnot : forall reqs tail,
             Forall (fun e => is_cache_event e = false) tail ->
             EvCachePut key stored ∈ map EvFetch reqs ++ tail -> False).
  { intros reqs tail Htail H. apply elem_of_app in H as [H|H].
    - pose proof (Forall_not_cache_fetches reqs) as Hall.
      rewrite Forall_forall in Hall. specialize (Hall _ H). discriminate.
    - rewrite Forall_forall in Htail. specialize (Htail _ H). discriminate. }
  unfold events_of in Hin. rewrite fetch_unfold in Hin. unfold events_of. rewrite fetch_unfold.
  destruct (String.eqb (method request) "OPTIONS").
  { cbn [snd] in Hin. rewrite drop_all in Hin. now apply elem_of_nil in Hin. }
  destruct (validated request w) as [error|bodyStr].
  { cbn [snd advance trace] in Hin. rewrite drop_app_length in Hin.
    apply list_elem_of_singleton in Hin. discriminate. }
  cbv zeta in *. destruct (cache_gate request env).
  - destruct (cache w !! key_of request) as [r|] eqn:Hhit.
    { cbn [snd advance trace] in Hin. rewrite drop_app_length in Hin.
      rewrite !elem_of_cons, elem_of_nil in Hin. destruct Hin as [H|[H|[]]]; discriminate. }
    destruct (fetchFromAlgolia_run (requestContext request) (req_headers request)
                bodyStr env (isSSR request) (advance w [EvCacheMatch (key_of request)]))
      as (reqs & Hrun & Hlast).
    destruct (fetchFromAlgolia _ _ _ _ _ _) as [r w1]. cbn [fst snd] in *. subst w1.
    destruct (ok r) eqn:Hok.
    + cbn [snd advance with_cache trace] in Hin |- *.
      rewrite <- !app_assoc, drop_app_length in Hin |- *.
      destruct (Hlast eq_refl) as (pre & rq & -> & Hout).
      cbn [app] in Hin. apply elem_of_cons in Hin as [Hin|Hin]; [discriminate|].
      rewrite map_app, <- app_assoc in Hin. cbn [map app] in Hin.
      apply elem_of_app in Hin as [Hin|Hin].
      { pose proof (Forall_not_cache_fetches pre) as Hall.
        rewrite Forall_forall in Hall. specialize (Hall _ Hin). discriminate. }
      rewrite !elem_of_cons, elem_of_nil in Hin.
      destruct Hin as [H|[H|[H|[]]]]; try discriminate.
      injection H as -> ->.
      split; [reflexivity|]. split; [exact Hhit|]. split; [exact Hok|].
      exists pre, rq, r. split; [|split; [|split]].
      * cbn [app]. f_equal. rewrite map_app, <- app_assoc. reflexivity.
      * cbn [advance trace] in Hout. rewrite <- app_assoc in Hout. exact Hout.
      * exact Hok.
      * reflexivity.
    + cbn [snd advance trace] in Hin.
      rewrite <- !app_assoc, drop_app_length in Hin.
      cbn [app] in Hin. apply elem_of_cons in Hin as [Hin|Hin]; [discriminate|].
      exfalso. apply (Hnot reqs [EvLog LogError]); [repeat constructor | exact Hin].
  - destruct (fetchFromAlgolia_run (requestContext request) (req_headers request)
                bodyStr env (isSSR request) w) as (reqs & Hrun & _).
    destruct (fetchFromAlgolia _ _ _ _ _ _) as [r w1]. cbn [fst snd] in *. subst w1.
    cbn [advance trace] in Hin. rewrite <- app_assoc, drop_app_length in Hin.
    exfalso. apply (Hnot reqs [EvLog (log_level r)]); [repeat constructor | exact Hin].
Qed.

(** C5 on an SSR request whose first host throws and whose second host
    answers 200. *)
Lemma C5_store_only_after_upstream_success_witness :
  let w := sample_world (throws_then_resolves 1 "Error: Network error" hits) in
  let request := search_request (Some "cacheKey=test-key") ssr_headers "search" in
  let key := "https://example.com/1/indexes/*/queries?cacheKey=test-key&ssr=1" in
  let stored := responseToStore hits sample_env true in
  EvCachePut key stored ∈ events_of (fetch request sample_env) w
  /\ Headers.get "Cache-Control" (headers stored) = Some "public, max-age=600"
  /\ key = key_of request /\ cache w !! key = None /\ ok stored = true.
Proof.
  intros w request key stored.
  assert (Hin : EvCachePut key stored ∈ events_of (fetch request sample_env) w).
  { apply list_elem_of_In. vm_compute. do 3 right. left. reflexivity. }
  split; [exact Hin|]. split; [reflexivity|].
  destruct (C5_store_only_after_upstream_success request sample_env w key stored Hin)
    as (Hkey & Hmiss & Hok & _).
  auto.
Defined.

(* ===================================================================== *)
(** ** Queries that are neither strings nor absent *)
(* ===================================================================== *)

Lemma falsy_non_string_ToBoolean (v : JsValue) :
  falsy_non_string v = true -> ToBoolean v = false.
Proof.
  destruct v as [| |[]|text|s|text]; simpl; try discriminate; try reflexivity.
  now intros ->.
Qed.

Lemma falsy_non_string_not_empty (v : JsValue) :
  falsy_non_string v = true ->
  bool_decide (v = JString []) || bool_decide (v = JUndefined) = false.
Proof. destruct v as [| |[]|text|s|text]; simpl; try discriminate; reflexivity. Qed.

Lemma isInvalidQuery_loop_falsy (reqs : list SearchRequest) (acc : bool) :
  forallb (fun req => falsy_non_string (query req)) reqs = true ->
  isInvalidQuery_loop reqs acc = inr acc
  /\ find (fun r => ToBoolean (query r)) reqs = None.
Proof.
  induction reqs as [|req reqs IH]; cbn [forallb isInvalidQuery_loop find]; [auto|].
  intros H. apply andb_true_iff in H as [Hreq Hreqs].
  rewrite (falsy_non_string_ToBoolean _ Hreq). auto.
Qed.

Lemma isInvalidQuery_falsy (reqs : list SearchRequest) :
  reqs <> [] ->
  forallb (fun req => falsy_non_string (query req)) reqs = true ->
  isInvalidQuery reqs
  = {| invalid := true; v_errorType := Some too_short; v_query := None |}.
Proof.
  intros Hne Hall. unfold isInvalidQuery.
  destruct (isInvalidQuery_loop_falsy reqs false Hall) as [-> ->].
  destruct reqs as [|req reqs]; [congruence|].
  cbn [forallb] in *. apply andb_true_iff in Hall as [Hreq _].
  now rewrite (falsy_non_string_not_empty _ Hreq).
Qed.

(** C10.  A POST body whose [requests] array is non-empty and all of whose
    items have a query that is [null], [false] or zero is rejected with HTTP
    400 and kind too-short, and nothing is sent upstream: the all-empty check
    accepts only the empty string and an absent query, and the scanning loop
    skips falsy queries, so none counts as long. *)
Theorem C10_falsy_non_string_queries_rejected
    (request : Request) (env : Env) (w : World) (b : IncomingBody)
    (reqs : list SearchRequest) :
  method request = "POST" ->
  json request = JsonValue b ->
  requests b = Some reqs ->
  reqs <> [] ->
  forallb (fun req => falsy_non_string (query req)) reqs = true ->
  isInvalidQuery reqs = {| invalid := true; v_errorType := Some too_short; v_query := None |}
  /\ status (fst (fetch request env w)) = 400%N
  /\ body_errorType (fst (fetch request env w)) = Some (of_validation too_short)
  /\ events_of (fetch request env) w = [EvLog LogError].
Proof.
  intros Hpost Hjson Hreqs Hne Hall.
  pose proof (isInvalidQuery_falsy reqs Hne Hall) as Hval.
  split; [exact Hval|].
  assert (Hrun : fetch request env w
                 = (Response_of_text
                      (BodyJson {| error := "Query too short (minimum 3 characters)";
                                   errorType := of_validation too_short;
                                   details := None;
                                   timestamp := clock w;
                                   algolia_url := None; algolia_method := None;
                                   algolia_headers := None; algolia_body := None |})
                      400 json_headers,
                    advance w [EvLog LogError])).
  { rewrite fetch_unfold, Hpost. unfold validated, parseRequestBody.
    rewrite Hpost, Hjson, Hreqs, Hval. reflexivity. }
  rewrite (events_of_advance (fetch request env) w [EvLog LogError]) by now rewrite Hrun.
  rewrite Hrun. repeat split.
Qed.

(** C10 on a batch with a [null], a [false] and a zero query. *)
Lemma C10_falsy_non_string_queries_rejected_witness :
  let reqs := [ mkSearchRequest JNull [("indexName", "test")];
                mkSearchRequest (JBool false) [];
                mkSearchRequest (JNumber (units "0")) [] ] in
  let request := {| method := "POST"; url := queries_url None;
                    req_headers := browser_headers "https://www.avocadostore.de";
                    json := JsonValue {| requests := Some reqs;
                                         stringify := "<the JSON text of the body>" |} |} in
  let w := sample_world (always_resolves hits) in
  outcome_of (isInvalidQuery reqs) = Rejected_as too_short
  /\ status (fst (fetch request sample_env w)) = 400%N
  /\ events_of (fetch request sample_env) w = [EvLog LogError].
Proof.
  intros reqs request w.
  destruct (C10_falsy_non_string_queries_rejected request sample_env w _ reqs
              eq_refl eq_refl eq_refl) as (Hval & Hstatus & _ & Hevents);
    [discriminate | reflexivity |].
  split; [now rewrite Hval|]. split; [exact Hstatus | exact Hevents].
Defined.

(* ===================================================================== *)
(** ** CORS headers and the origin decision *)
(* ===================================================================== *)

Lemma headers_get_set_eq (name value : string) (h : Headers) :
  Headers.get name (Headers.set name value h) = Some value.
Proof. unfold Headers.get, Headers.set. apply lookup_insert_eq. Qed.

Lemma headers_get_set_ne (name name' value : string) (h : Headers) :
  Headers.lowercase name' <> Headers.lowercase name ->
  Headers.get name (Headers.set name' value h) = Headers.get name h.
Proof. intros Hne. unfold Headers.get, Headers.set. now apply lookup_insert_ne. Qed.

Ltac headers :=
  repeat first
    [ rewrite headers_get_set_eq
    | rewrite headers_get_set_ne by (vm_compute; discriminate) ].

Lemma addCorsHeaders_cors (inner : Response) (origin : option string) (isSSRRequest : bool) :
  carries_cors_headers (addCorsHeaders inner origin isSSRRequest).
Proof.
  unfold carries_cors_headers, allowOrigin, addCorsHeaders. cbn [headers].
  repeat split; headers; try reflexivity.
  destruct (_ || _); headers; eauto.
Qed.

Lemma handleOptions_cors (ctx : RequestContext) : carries_cors_headers (handleOptions ctx).
Proof.
  unfold carries_cors_headers, allowOrigin, handleOptions. cbn [headers].
  destruct (ctx_isSSRRequest ctx); [|destruct (_ && _)];
    repeat split; headers; eauto.
Qed.

(** The origin that the handler works with decides as the header does. *)
Lemma ctx_origin_decision (request : Request) :
  let origin := ctx_origin (requestContext request) in
  String.eqb origin "" = false
  /\ (if isSSR request then (STOREFRONT_ORIGIN, false)
      else if isOriginAllowed origin then (origin, true) else (STOREFRONT_ORIGIN, false))
     = origin_decision request.
Proof.
  unfold origin_decision. cbn [requestContext ctx_origin]. unfold js_or, truthy.
  destruct (Headers.get "Origin" (req_headers request)) as [o|]; cbn [default].
  - destruct (String.eqb o "") eqn:Ho; cbn [negb default].
    + apply String.eqb_eq in Ho. subst o. split; [reflexivity|].
      destruct (isSSR request); reflexivity.
    + split; [exact Ho | reflexivity].
  - split; [reflexivity|]. destruct (isSSR request); reflexivity.
Qed.

Lemma addCorsHeaders_decision (request : Request) (inner : Response) :
  let response := addCorsHeaders inner (Some (ctx_origin (requestContext request)))
                    (isSSR request) in
  allowOrigin response = Some (fst (origin_decision request))
  /\ vary response = if snd (origin_decision request) then Some "Origin" else vary inner.
Proof.
  destruct (ctx_origin_decision request) as [Hne <-].
  unfold allowOrigin, vary, addCorsHeaders, truthy. cbn [headers default]. rewrite Hne.
  cbn [negb orb].
  destruct (isSSR request); cbn [orb fst snd]; [split; headers; reflexivity|].
  unfold id.
  destruct (isOriginAllowed _); cbn [negb fst snd]; split; headers; reflexivity.
Qed.

Lemma handleOptions_decision (request : Request) :
  follows_origin_decision request (handleOptions (requestContext request))
  /\ status (handleOptions (requestContext request)) = 204%N.
Proof.
  split; [|reflexivity]. unfold follows_origin_decision.
  destruct (ctx_origin_decision request) as [Hne <-].
  unfold allowOrigin, vary, handleOptions. cbn [headers ctx_isSSRRequest requestContext].
  fold (ctx_origin (requestContext request)). rewrite Hne. cbn [negb andb].
  destruct (isSSR request); cbn [fst snd]; [split; headers; reflexivity|].
  destruct (isOriginAllowed _); cbn [fst snd]; split; headers; reflexivity.
Qed.

(** A request that is not a preflight and passes validation is answered with
    a response from the cache or from upstream, stamped by [addCorsHeaders];
    on a cache hit it is the cached response, and otherwise it is what the
    dispatcher returned. *)
Lemma fetch_stamped (request : Request) (env : Env) (w : World) :
  String.eqb (method request) "OPTIONS" = false ->
  (forall error, validated request w <> inl error) ->
  exists inner,
    fst (fetch request env w)
    = addCorsHeaders inner (Some (ctx_origin (requestContext request))) (isSSR request)
    /\ (forall cached, cache_gate request env = true ->
                       cache w !! key_of request = Some cached -> inner = cached)
    /\ (cache_gate request env = false \/ cache w !! key_of request = None ->
        exists bodyStr w0,
          validated request w = inr bodyStr
          /\ inner = fst (fetchFromAlgolia (requestContext request) (req_headers request)
                            bodyStr env (isSSR request) w0)).
Proof.
  intros Hmethod Hvalid. rewrite fetch_unfold, Hmethod.
  destruct (validated request w) as [error|bodyStr]; [now destruct (Hvalid error)|].
  cbv zeta. destruct (cache_gate request env).
  - destruct (cache w !! key_of request) as [r|].
    + exists r. split; [reflexivity|]. split; [congruence|].
      intros [H|H]; discriminate.
    + destruct (fetchFromAlgolia _ _ _ _ _ _) as [r w1] eqn:Hdispatch. exists r.
      split; [reflexivity|]. split; [discriminate|]. intros _.
      eexists bodyStr, _. split; [reflexivity|]. now rewrite Hdispatch.
  - destruct (fetchFromAlgolia _ _ _ _ _ _) as [r w1] eqn:Hdispatch. exists r.
    split; [reflexivity|]. split; [discriminate|]. intros _.
    eexists bodyStr, _. split; [reflexivity|]. now rewrite Hdispatch.
Qed.

(** Preflight responses and the responses to requests that pass validation
    carry the CORS header set. *)
Lemma cors_headers_outside_validation_failures (request : Request) (env : Env) (w : World) :
  (forall error, validated request w <> inl error) ->
  carries_cors_headers (fst (fetch request env w)).
Proof.
  intros Hvalid. destruct (String.eqb (method request) "OPTIONS") eqn:Hmethod.
  - rewrite fetch_unfold, Hmethod. apply handleOptions_cors.
  - destruct (fetch_stamped request env w Hmethod Hvalid) as (inner & -> & _).
    apply addCorsHeaders_cors.
Qed.

(** A validation failure is answered with the validator's response as it is:
    status 400 and [Content-Type] as its only header. *)
Lemma validation_failure_unstamped (request : Request) (env : Env) (w : World)
    (error : Response) :
  method request <> "OPTIONS" ->
  validated request w = inl error ->
  fst (fetch request env w) = error
  /\ status error = 400%N
  /\ headers error = json_headers
  /\ allowOrigin error = None.
Proof.
  intros Hmethod Hvalid. apply String.eqb_neq in Hmethod.
  rewrite fetch_unfold, Hmethod, Hvalid. split; [reflexivity|].
  unfold validated, parseRequestBody in Hvalid. unfold_monad.
  destruct (String.eqb (method request) "POST"); [|discriminate].
  destruct (json request) as [message|b|ill text].
  - injection Hvalid as <-. repeat split.
  - destruct (requests b) as [reqs|]; [|discriminate].
    destruct (invalid (isInvalidQuery reqs)); [|discriminate].
    injection Hvalid as <-. repeat split.
  - destruct (isInvalidQuery_ill_typed ill); injection Hvalid as <-; repeat split.
Qed.

(** C1, the code at a failing input: the 400 response to a too-short query
    carries none of the CORS headers, for every configuration and world. *)
Theorem C1_validation_failure_lacks_cors_headers (env : Env) (w : World) :
  let request := search_request None (browser_headers "https://www.avocadostore.de") "ab" in
  let response := fst (fetch request env w) in
  status response = 400%N
  /\ body_errorType response = Some (of_validation too_short)
  /\ allowOrigin response = None
  /\ Headers.get "Access-Control-Allow-Methods" (headers response) = None
  /\ Headers.get "Access-Control-Allow-Headers" (headers response) = None
  /\ Headers.get "Access-Control-Max-Age" (headers response) = None
  /\ ~ carries_cors_headers response.
Proof.
  cbv zeta. rewrite fetch_unfold.
  repeat split. intros (Habsurd & _). destruct Habsurd as [o Ho]. discriminate.
Qed.

(** C7, counterexample to the claim as stated: for a disallowed origin the
    response has the storefront origin, and the [Vary] header that came with
    the upstream response. *)
Lemma C7_upstream_vary_is_kept :
  let w := sample_world
             (always_resolves
                (text_response 200 {[ "vary" := "Accept-Encoding" ]} "{hits: []}")) in
  let request := search_request None (browser_headers "https://evil.com") "search" in
  let response := fst (fetch request sample_env w) in
  isSSR request = false
  /\ origin_decision request = (STOREFRONT_ORIGIN, false)
  /\ allowOrigin response = Some STOREFRONT_ORIGIN
  /\ vary response = Some "Accept-Encoding"
  /\ ~ follows_origin_decision request response.
Proof.
  cbv zeta. repeat split. intros (_ & Hvary).
  vm_compute in Hvary. discriminate.
Qed.

(** C7 (amended).  The allowed origin is the storefront origin for an
    SSR-flagged request; otherwise the request's [Origin] when it is present
    and matches one of the two patterns or the dashboard literal, and then
    [Vary: Origin] is set; otherwise the storefront origin.  A preflight
    response shows exactly this, with no [Vary] header when the origin is not
    echoed, also for an SSR-flagged request.  A response from upstream or from
    the cache (the cached response on a hit, what the dispatcher returned
    otherwise, its 502 included) is stamped with the same allowed origin and,
    when the origin is echoed, with [Vary: Origin]; when it is not echoed the
    handler sets no [Vary] header and a [Vary] header already on that response
    stays. *)
Theorem C7_origin_decision_applied (request : Request) (env : Env) (w : World) :
  let response := fst (fetch request env w) in
  (method request = "OPTIONS" ->
   status response = 204%N /\ follows_origin_decision request response)
  /\ (method request <> "OPTIONS" ->
      (forall error, validated request w <> inl error) ->
      exists inner,
        response = addCorsHeaders inner (Some (ctx_origin (requestContext request)))
                     (isSSR request)
        /\ allowOrigin response = Some (fst (origin_decision request))
        /\ vary response
           = (if snd (origin_decision request) then Some "Origin" else vary inner)
        /\ (forall cached, cache_gate request env = true ->
                           cache w !! key_of request = Some cached -> inner = cached)
        /\ (cache_gate request env = false \/ cache w !! key_of request = None ->
            exists bodyStr w0,
              validated request w = inr bodyStr
              /\ inner = fst (fetchFromAlgolia (requestContext request)
                                (req_headers request) bodyStr env (isSSR request) w0))).
Proof.
  intros response. subst response. split.
  - intros Hmethod. rewrite fetch_unfold, Hmethod. cbn [fst].
    destruct (handleOptions_decision request) as [Hdecision Hstatus]. auto.
  - intros Hmethod Hvalid. apply String.eqb_neq in Hmethod.
    destruct (fetch_stamped request env w Hmethod Hvalid)
      as (inner & Hresponse & Hhit & Hmiss).
    exists inner. rewrite Hresponse.
    destruct (addCorsHeaders_decision request inner) as [Hallow Hvary]. auto.
Qed.

(** C7 on a preflight from an allowed subdomain, on the same preflight with
    the SSR flag, and on a cache hit for a localhost origin. *)
Lemma C7_origin_decision_applied_witness :
  let w := {| upstream := always_resolves hits;
              cache := {[ "https://example.com/1/indexes/*/queries?cacheKey=k&ssr=0"
                          := text_response 200 {[ "vary" := "Accept-Encoding" ]} "{cached}" ]};
              clock := "2025-01-01T00:00:00.000Z"; trace := [] |} in
  let env := {| ALGOLIA_APPLICATION_ID := "testtest"; ALGOLIA_API_KEY := "testtest";
                CACHE_TTL_SSR := None; CACHE_TTL_CLIENT := Some "60" |} in
  let preflight := {| method := "OPTIONS"; url := queries_url None;
                      req_headers := {[ "origin" := "https://shop.avocadostore.de" ]};
                      json := JsonThrows "Unexpected end of JSON input" |} in
  let flagged := {| method := "OPTIONS"; url := queries_url None;
                    req_headers := {[ "origin" := "https://shop.avocadostore.de";
                                      "x-ssr-request" := SSR_SENTINEL ]};
                    json := JsonThrows "Unexpected end of JSON input" |} in
  let hit := search_request (Some "cacheKey=k") (browser_headers "http://localhost:3000")
               "search" in
  (method preflight = "OPTIONS"
   /\ allowOrigin (fst (fetch preflight env w)) = Some "https://shop.avocadostore.de"
   /\ vary (fst (fetch preflight env w)) = Some "Origin")
  /\ (method flagged = "OPTIONS"
      /\ allowOrigin (fst (fetch flagged env w)) = Some STOREFRONT_ORIGIN
      /\ vary (fst (fetch flagged env w)) = None)
  /\ (method hit <> "OPTIONS"
      /\ body (fst (fetch hit env w)) = BodyText "{cached}"
      /\ allowOrigin (fst (fetch hit env w)) = Some "http://localhost:3000"
      /\ vary (fst (fetch hit env w)) = Some "Origin").
Proof.
  intros w env preflight flagged hit.
  destruct (C7_origin_decision_applied preflight env w) as [Hoptions _].
  destruct (C7_origin_decision_applied flagged env w) as [Hflagged _].
  destruct (C7_origin_decision_applied hit env w) as [_ Hother].
  split; [|split].
  - split; [reflexivity|].
    destruct (Hoptions eq_refl) as (_ & Hallow & Hvary).
    split; [exact Hallow | exact Hvary].
  - split; [reflexivity|].
    destruct (Hflagged eq_refl) as (_ & Hallow & Hvary).
    split; [exact Hallow | exact Hvary].
  - assert (Hmethod : method hit <> "OPTIONS") by discriminate.
    split; [exact Hmethod|].
    destruct (Hother Hmethod) as (inner & Hresponse & Hallow & Hvary & Hhit & _);
      [intros error; discriminate|].
    split; [|split; [exact Hallow | exact Hvary]].
    rewrite Hresponse, (Hhit _ eq_refl eq_refl). reflexivity.
Defined.

(* ===================================================================== *)
(** ** Scenarios of the test suite *)
(* ===================================================================== *)

Example preflight_allowed_origin :
  let request := {| method := "OPTIONS"; url := queries_url None;
                    req_headers := {[ "origin" := "https://shop.avocadostore.de" ]};
                    json := JsonThrows "Unexpected end of JSON input" |} in
  let response := fst (fetch request sample_env (sample_world (always_resolves hits))) in
  (status response, allowOrigin response, vary response)
  = (204%N, Some "https://shop.avocadostore.de", Some "Origin").
Proof. reflexivity. Qed.

Example failover_to_second_host :
  let w := sample_world (throws_then_resolves 1 "Error: Network error" hits) in
  let request := search_request None (browser_headers "https://www.avocadostore.de")
                   "search" in
  let '(response, w') := fetch request sample_env w in
  status response = 200%N
  /\ map f_url (omap fetched (trace w'))
     = [ "https://testtest-dsn.algolia.net/1/indexes/*/queries?x-algolia-api-key=testtest&x-algolia-application-id=testtest&x-algolia-agent=Algolia%2520for%2520JavaScript%2520%285.8.1%29%253B%2520Lite%2520%285.8.1%29%253B%2520Browser%253B%2520autocomplete-core%2520%281.17.4%29%253B%2520autocomplete-js%2520%281.17.4%29";
         "https://testtest-1.algolianet.com/1/indexes/*/queries?x-algolia-api-key=testtest&x-algolia-application-id=testtest&x-algolia-agent=Algolia%2520for%2520JavaScript%2520%285.8.1%29%253B%2520Lite%2520%285.8.1%29%253B%2520Browser%253B%2520autocomplete-core%2520%281.17.4%29%253B%2520autocomplete-js%2520%281.17.4%29" ].
Proof. vm_compute. split; reflexivity. Qed.

Example all_hosts_fail :
  let w := sample_world (always_resolves (text_response 429 ∅ "Rate limit exceeded")) in
  let request := search_request None (browser_headers "https://www.avocadostore.de")
                   "search" in
  let response := fst (fetch request sample_env w) in
  (status response, body_errorType response, details_text response,
   allowOrigin response)
  = (502%N, Some algolia,
     Some "Tried 4 host(s): testtest-dsn.algolia.net (429), testtest-1.algolianet.com (429), testtest-2.algolianet.com (429), testtest-3.algolianet.com (429)",
     Some "https://www.avocadostore.de").
Proof. vm_compute. reflexivity. Qed.

Example insights_unreachable :
  let w := sample_world (always_throws "Error: Network error") in
  let request := {| method := "POST";
                    url := {| url_origin := "https://example.com"; pathname := "/1/events";
                              search := None; hash := "" |};
                    req_headers := browser_headers "https://www.avocadostore.de";
                    json := JsonValue {| requests := None;
                                         stringify := "<the JSON text of the body>" |} |} in
  let '(response, w') := fetch request sample_env w in
  (status response, body response, length (omap fetched (trace w')))
  = (502%N, BodyText "Failed to reach Algolia Insights endpoint", 1%nat).
Proof. vm_compute. reflexivity. Qed.

Example malformed_json_body :
  let request := {| method := "POST"; url := queries_url None;
                    req_headers := browser_headers "https://www.avocadostore.de";
                    json := JsonThrows "Unexpected token i in JSON at position 2" |} in
  let '(response, w') := fetch request sample_env (sample_world (always_resolves hits)) in
  (status response, body_errorType response, trace w')
  = (400%N, Some (of_validation malformed_json), [EvLog LogError]).
Proof. vm_compute. reflexivity. Qed.

Example repeat_is_served_from_cache :
  let w := sample_world (always_resolves hits) in
  let request := search_request (Some "cacheKey=some-cache-key") ssr_headers "schok" in
  let w1 := snd (fetch request sample_env w) in
  let '(response, w2) := fetch request sample_env w1 in
  body response = BodyText "{hits: []}"
  /\ length (omap fetched (trace w1)) = 1%nat
  /\ length (omap fetched (trace w2)) = 1%nat
  /\ Headers.get "Cache-Control" (headers response) = Some "public, max-age=600".
Proof. vm_compute. repeat split. Qed.

(* ===================================================================== *)
(** ** The validator on every kind of query value *)
(* ===================================================================== *)

(** The scanning loop on any batch: it returns at the first item whose text
    fails the pattern, and otherwise tells whether some text is long. *)
Lemma isInvalidQuery_loop_find (reqs : list SearchRequest) (acc : bool) :
  isInvalidQuery_loop reqs acc
  = match find offends reqs with
    | Some req => inl {| invalid := true;
                         v_errorType := Some invalid_characters;
                         v_query := Some (reported req) |}
    | None => inr (acc || existsb counts_as_long reqs)
    end.
Proof.
  revert acc. induction reqs as [|req reqs IH]; intros acc.
  - cbn. now rewrite orb_false_r.
  - cbn [isInvalidQuery_loop find existsb]. unfold offends at 1, counts_as_long at 1.
    destruct (ToBoolean (query req)); cbn [andb]; [|apply IH].
    destruct (negb (test ALLOWED_QUERY_REGEX (ToString (query req)))); [reflexivity|].
    rewrite IH. destruct (find offends reqs); [reflexivity|].
    destruct (3 <=? length (ToString (query req)))%nat; cbn [orb];
      [now rewrite orb_true_r | reflexivity].
Qed.

Lemma find_none_existsb {A : Type} (p : A -> bool) (l : list A) :
  find p l = None <-> existsb p l = false.
Proof.
  induction l as [|x l IH]; cbn; [tauto|].
  destruct (p x); cbn; [split; discriminate | exact IH].
Qed.

(** The outcome of the validator on any batch, by three tests on its items. *)
Lemma isInvalidQuery_outcome (reqs : list SearchRequest) :
  outcome_of (isInvalidQuery reqs)
  = if forallb empty_or_absent reqs then Accepted
    else if existsb offends reqs then Rejected_as invalid_characters
    else if existsb counts_as_long reqs then Accepted
    else Rejected_as too_short.
Proof.
  unfold isInvalidQuery. rewrite all_empty_check.
  destruct (forallb empty_or_absent reqs); [reflexivity|].
  rewrite isInvalidQuery_loop_find.
  destruct (find offends reqs) as [req|] eqn:Hfind.
  - assert (existsb offends reqs = true) as ->; [|reflexivity].
    destruct (existsb offends reqs) eqn:H; [reflexivity|].
    apply find_none_existsb in H. congruence.
  - apply find_none_existsb in Hfind. rewrite Hfind. cbn [orb].
    destruct (existsb counts_as_long reqs); reflexivity.
Qed.

Lemma forallb_Permutation {A : Type} (p : A -> bool) (l1 l2 : list A) :
  l1 ≡ₚ l2 -> forallb p l1 = forallb p l2.
Proof.
  induction 1 as [|x l1 l2 _ IH|x y l|l1 l2 l3 _ IH1 _ IH2]; cbn.
  - reflexivity.
  - now rewrite IH.
  - destruct (p x), (p y); reflexivity.
  - congruence.
Qed.

Lemma existsb_Permutation {A : Type} (p : A -> bool) (l1 l2 : list A) :
  l1 ≡ₚ l2 -> existsb p l1 = existsb p l2.
Proof.
  induction 1 as [|x l1 l2 _ IH|x y l|l1 l2 l3 _ IH1 _ IH2]; cbn.
  - reflexivity.
  - now rewrite IH.
  - destruct (p x), (p y); reflexivity.
  - congruence.
Qed.

(** X1.  Whether a batch is accepted, and the kind of its rejection, do not
    depend on the order of its items, for every kind of query value. *)
Theorem isInvalidQuery_order_independent (reqs1 reqs2 : list SearchRequest) :
  reqs1 ≡ₚ reqs2 ->
  outcome_of (isInvalidQuery reqs1) = outcome_of (isInvalidQuery reqs2).
Proof.
  intros Hperm. rewrite !isInvalidQuery_outcome.
  rewrite (forallb_Permutation _ _ _ Hperm).
  rewrite (existsb_Permutation offends _ _ Hperm).
  now rewrite (existsb_Permutation counts_as_long _ _ Hperm).
Qed.

(** X1 on a batch and its reversal, which report different queries. *)
Lemma isInvalidQuery_order_independent_witness :
  let reqs := [ mkSearchRequest (JString [0x263B]%N) [] ;
                mkSearchRequest (JString [0x263A]%N) [] ;
                mkSearchRequest (JString (units "shoes")) [] ] in
  reqs ≡ₚ reverse reqs
  /\ outcome_of (isInvalidQuery (reverse reqs)) = Rejected_as invalid_characters
  /\ v_query (isInvalidQuery reqs) <> v_query (isInvalidQuery (reverse reqs)).
Proof.
  intros reqs.
  assert (Hperm : reqs ≡ₚ reverse reqs) by (symmetry; apply reverse_Permutation).
  split; [exact Hperm|]. split.
  - rewrite <- (isInvalidQuery_order_independent reqs (reverse reqs) Hperm). reflexivity.
  - vm_compute. discriminate.
Defined.

Lemma find_first {A : Type} (p : A -> bool) (l : list A) (x : A) :
  find p l = Some x ->
  exists pre post, l = pre ++ x :: post /\ p x = true /\ existsb p pre = false.
Proof.
  induction l as [|y l IH]; cbn; [discriminate|].
  destruct (p y) eqn:Hy.
  - intros [= ->]. exists [], l. auto.
  - intros H. destruct (IH H) as (pre & post & -> & Hx & Hpre).
    exists (y :: pre), post. cbn. rewrite Hy. auto.
Qed.

(** X2.  The query that a rejection reports is the text of one item of the
    batch, cut to at most 100 code units: for invalid-characters the first
    item whose text fails the pattern, for too-short the first item with a
    truthy query. *)
Theorem reported_query_is_truncated_culprit (reqs : list SearchRequest) (q : jsstr) :
  v_query (isInvalidQuery reqs) = Some q ->
  (length q <= 100)%nat
  /\ exists pre req post,
       reqs = pre ++ req :: post
       /\ q = firstn 100 (ToString (query req))
       /\ ToBoolean (query req) = true
       /\ match v_errorType (isInvalidQuery reqs) with
          | Some invalid_characters => offends req = true /\ existsb offends pre = false
          | _ => existsb (fun r => ToBoolean (query r)) pre = false
          end.
Proof.
  unfold isInvalidQuery. destruct (forallb _ reqs); [discriminate|].
  rewrite isInvalidQuery_loop_find.
  destruct (find offends reqs) as [req|] eqn:Hfind.
  - cbn [v_query v_errorType]. intros H.
    assert (Hq : q = firstn 100 (ToString (query req)))
      by (unfold reported, substring0 in H; congruence).
    subst q. clear H. split; [apply firstn_le_length|].
    destruct (find_first _ _ _ Hfind) as (pre & post & -> & Hreq & Hpre).
    exists pre, req, post. repeat split; auto.
    unfold offends in Hreq. now apply andb_true_iff in Hreq as [-> _].
  - cbn [orb]. destruct (existsb counts_as_long reqs); [discriminate|].
    cbn [v_query v_errorType].
    destruct (find (fun r => ToBoolean (query r)) reqs) as [req|] eqn:Htruthy;
      [|discriminate].
    intros H.
    assert (Hq : q = firstn 100 (ToString (query req))) by (unfold substring0 in H; congruence).
    subst q. clear H. split; [apply firstn_le_length|].
    destruct (find_first _ _ _ Htruthy) as (pre & post & -> & Hreq & Hpre).
    exists pre, req, post. repeat split; auto.
Qed.

(** X2 on a batch whose first truthy query is short. *)
Lemma reported_query_is_truncated_culprit_witness :
  let reqs := [ mkSearchRequest JNull [] ;
                mkSearchRequest (JString (units "ab")) [] ;
                mkSearchRequest (JString (units "c")) [] ] in
  v_query (isInvalidQuery reqs) = Some (units "ab") /\ (length (units "ab") <= 100)%nat.
Proof.
  intros reqs. split; [reflexivity|].
  exact (proj1 (reported_query_is_truncated_culprit reqs (units "ab") eq_refl)).
Defined.

(* ===================================================================== *)
(** ** The origins that are allowed *)
(* ===================================================================== *)

Section OriginShapes.
Local Abbreviation chars := String.list_ascii_of_string.
Local Abbreviation text := String.string_of_list_ascii.

Lemma chars_app (a b : string) : chars (a +:+ b) = chars a ++ chars b.
Proof. induction a as [|c a IH]; simpl; [reflexivity | now rewrite IH]. Qed.

Lemma text_app (u v : list ascii) : text (u ++ v) = text u +:+ text v.
Proof. induction u as [|c u IH]; simpl; [reflexivity | now rewrite IH]. Qed.

Lemma chars_inj (a b : string) : chars a = chars b -> a = b.
Proof.
  intros H. rewrite <- (String.string_of_list_ascii_of_string a),
              <- (String.string_of_list_ascii_of_string b). now rewrite H.
Qed.

Lemma lang_chr (c : ascii) (w : list ascii) : lang (chr c) w <-> w = [c].
Proof.
  unfold chr. split.
  - intros H. apply lang_class_inv in H as (c' & -> & Hc).
    apply Ascii.eqb_eq in Hc. now subst.
  - intros ->. constructor. apply Ascii.eqb_refl.
Qed.

Lemma lang_lit (s : string) (w : list ascii) : lang (lit s) w <-> w = chars s.
Proof.
  revert w. induction s as [|c s IH]; intros w; cbn.
  - split; [apply lang_empty_inv | intros ->; constructor].
  - split.
    + intros H. apply lang_seq_inv in H as (u & v & -> & Hu & Hv).
      apply lang_chr in Hu as ->. apply IH in Hv as ->. reflexivity.
    + intros ->. change (c :: chars s) with ([c] ++ chars s).
      constructor; [now apply lang_chr | now apply IH].
Qed.

Lemma lang_plus_class (p : ascii -> bool) (w : list ascii) :
  lang (RePlus (ReClass p)) w <-> w <> [] /\ forallb p w = true.
Proof.
  rewrite <- re_match_lang, re_match_plus_class.
  destruct w as [|c w]; [split; [discriminate | intros [H _]; congruence]|].
  split; [intros H; split; [discriminate | exact H] | tauto].
Qed.

(** A word of a starred pattern is a concatenation of words of the pattern. *)
Lemma lang_star_concat {A : Type} (r : regex A) (w : list A) :
  lang (ReStar r) w <-> exists ws, Forall (lang r) ws /\ w = concat ws.
Proof.
  split.
  - remember (ReStar r) as rs eqn:Hrs.
    induction 1 as [| | | | | |r' u v Hu _ Hv IHv]; try discriminate.
    + exists []. split; [constructor | reflexivity].
    + injection Hrs as ->. destruct (IHv eq_refl) as (ws & Hws & ->).
      exists (u :: ws). split; [now constructor | reflexivity].
  - intros (ws & Hws & ->). induction Hws as [|u ws Hu _ IH]; cbn; now constructor.
Qed.

Lemma is_label_chars (l : string) :
  is_label l = true <-> chars l <> [] /\ forallb lower_alnum_dash (chars l) = true.
Proof.
  unfold is_label, all_chars. rewrite andb_true_iff, negb_true_iff, String.eqb_neq.
  split; intros [Hne Hall]; (split; [|exact Hall]).
  - intros H. apply Hne. now apply chars_inj.
  - intros ->. now apply Hne.
Qed.

Lemma chars_subdomains (labels : list string) :
  chars (subdomains labels) = concat (map (fun l => chars l ++ ["."%char]) labels).
Proof.
  induction labels as [|l labels IH]; cbn [subdomains map concat]; [reflexivity|].
  rewrite !chars_app, IH. cbn. now rewrite <- app_assoc.
Qed.

(** The words of [([a-z0-9-]+\.)*] are the dotted label sequences. *)
Lemma lang_subdomains (w : list ascii) :
  lang (ReStar (ReSeq (RePlus (ReClass lower_alnum_dash)) (chr "."))) w
  <-> exists labels, forallb is_label labels = true /\ w = chars (subdomains labels).
Proof.
  rewrite lang_star_concat. split.
  - intros (ws & Hws & ->). induction Hws as [|u ws Hu _ (labels & Hlabels & IH)].
    + exists []. split; reflexivity.
    + apply lang_seq_inv in Hu as (l & dot & -> & Hl & Hdot).
      apply lang_chr in Hdot as ->. apply lang_plus_class in Hl as [Hne Hall].
      exists (text l :: labels). split.
      * cbn [forallb]. rewrite Hlabels, andb_true_r. apply is_label_chars.
        now rewrite String.list_ascii_of_string_of_list_ascii.
      * cbn [concat subdomains]. rewrite IH, !chars_app.
        rewrite String.list_ascii_of_string_of_list_ascii. cbn. now rewrite <- app_assoc.
  - intros (labels & Hlabels & ->). rewrite chars_subdomains.
    exists (map (fun l => chars l ++ ["."%char]) labels). split; [|reflexivity].
    apply Forall_map. apply Forall_forall. intros l Hin.
    assert (Hl : is_label l = true).
    { rewrite forallb_forall in Hlabels. apply Hlabels. now apply list_elem_of_In. }
    apply is_label_chars in Hl. cbn.
    constructor; [now apply lang_plus_class | now apply lang_chr].
Qed.

Lemma test_ALLOWED_ORIGIN_PATTERN (origin : string) :
  test ALLOWED_ORIGIN_PATTERN (chars origin) = true <-> storefront_shape origin.
Proof.
  unfold test. rewrite re_match_lang. unfold ALLOWED_ORIGIN_PATTERN, storefront_shape. split.
  - intros H. apply lang_seq_inv in H as (u1 & v1 & H1 & Hu1 & Hv1).
    apply lang_seq_inv in Hv1 as (u2 & v2 & -> & Hu2 & Hv2).
    apply lang_seq_inv in Hv2 as (u3 & v3 & -> & Hu3 & Hv3).
    apply lang_lit in Hu1 as ->. apply lang_lit in Hu3 as ->.
    apply lang_subdomains in Hu2 as (labels & Hlabels & ->).
    assert (Htld : exists tld, (tld = "de" \/ tld = "dev") /\ v3 = chars tld).
    { apply lang_alt_inv in Hv3 as [Hv3|Hv3]; apply lang_lit in Hv3 as ->;
        [exists "de" | exists "dev"]; auto. }
    destruct Htld as (tld & Htld & ->).
    exists labels, tld. repeat split; [exact Hlabels | exact Htld |].
    apply chars_inj. now rewrite H1, !chars_app.
  - intros (labels & tld & Hlabels & Htld & ->). rewrite !chars_app.
    constructor; [now apply lang_lit|].
    constructor; [apply lang_subdomains; eauto|].
    constructor; [now apply lang_lit|].
    destruct Htld as [->| ->]; [apply LAltL | apply LAltR]; now apply lang_lit.
Qed.

Lemma is_port_chars (port : string) :
  is_port port = true <-> chars port <> [] /\ forallb digit (chars port) = true.
Proof.
  unfold is_port, all_chars. rewrite andb_true_iff, negb_true_iff, String.eqb_neq.
  split; intros [Hne Hall]; (split; [|exact Hall]).
  - intros H. apply Hne. now apply chars_inj.
  - intros ->. now apply Hne.
Qed.

Lemma test_LOCALHOST_PATTERN (origin : string) :
  test LOCALHOST_PATTERN (chars origin) = true <-> localhost_shape origin.
Proof.
  unfold test. rewrite re_match_lang. unfold LOCALHOST_PATTERN, ReOpt, localhost_shape. split.
  - intros H. apply lang_seq_inv in H as (u & v & H1 & Hu & Hv).
    apply lang_lit in Hu as ->. apply lang_alt_inv in Hv as [Hv|Hv].
    + right. apply lang_seq_inv in Hv as (colon & port & -> & Hcolon & Hport).
      apply lang_chr in Hcolon as ->. apply lang_plus_class in Hport.
      exists (text port). split.
      * apply is_port_chars. now rewrite String.list_ascii_of_string_of_list_ascii.
      * apply chars_inj. rewrite H1, chars_app.
        rewrite String.list_ascii_of_string_of_list_ascii. reflexivity.
    + left. apply lang_empty_inv in Hv as ->. apply chars_inj.
      now rewrite H1, app_nil_r.
  - intros [->|(port & Hport & ->)].
    + rewrite <- (app_nil_r (chars "http://localhost")).
      constructor; [now apply lang_lit | apply LAltR; constructor].
    + apply is_port_chars in Hport.
      change "http://localhost:" with ("http://localhost" +:+ ":").
      rewrite chars_app, chars_app, <- app_assoc.
      constructor; [now apply lang_lit|]. apply LAltL.
      constructor; [now apply lang_chr | now apply lang_plus_class].
Qed.
End OriginShapes.

(** X3.  An origin is allowed exactly when it is [https://], any number of
    dot-terminated labels of lower-case letters, digits and dashes, then
    [avocadostore.de] or [avocadostore.dev]; or [http://localhost] with an
    optional port of digits; or the dashboard origin.  Nothing may follow, so
    no allowed origin has a path, a port on the storefront hosts, an
    upper-case letter or another suffix. *)
Theorem isOriginAllowed_shapes (origin : string) :
  isOriginAllowed origin = true
  <-> storefront_shape origin \/ localhost_shape origin \/ origin = CLOUDFLARE_DASHBOARD.
Proof.
  unfold isOriginAllowed. rewrite !orb_true_iff.
  rewrite test_ALLOWED_ORIGIN_PATTERN, test_LOCALHOST_PATTERN, String.eqb_eq. tauto.
Qed.

(* ===================================================================== *)
(** ** What the stamping leaves alone *)
(* ===================================================================== *)

(** X4.  Stamping a response changes neither its status, status text, body
    nor any header other than the four CORS headers and [Vary]. *)
Theorem addCorsHeaders_keeps_the_rest
    (response : Response) (origin : option string) (isSSRRequest : bool) :
  let stamped := addCorsHeaders response origin isSSRRequest in
  status stamped = status response
  /\ statusText stamped = statusText response
  /\ body stamped = body response
  /\ forall name, Headers.lowercase name ∉ STAMPED_NAMES ->
                  Headers.get name (headers stamped) = Headers.get name (headers response).
Proof.
  cbv zeta. repeat split. intros name Hname.
  unfold STAMPED_NAMES in Hname. rewrite !elem_of_cons, elem_of_nil in Hname.
  unfold addCorsHeaders, Headers.get, Headers.set. cbn [headers].
  destruct (_ || _);
    rewrite !lookup_insert_ne
      by (intros E; apply Hname; rewrite <- E; vm_compute; tauto);
    reflexivity.
Qed.

(** X5.  Stamping is idempotent: stamping a stamped response again, for the
    same origin and flag, gives the same response. *)
Theorem addCorsHeaders_idempotent
    (response : Response) (origin : option string) (isSSRRequest : bool) :
  addCorsHeaders (addCorsHeaders response origin isSSRRequest) origin isSSRRequest
  = addCorsHeaders response origin isSSRRequest.
Proof.
  unfold addCorsHeaders. cbn [status statusText headers body]. f_equal.
  unfold Headers.set.
  destruct (_ || _); apply map_eq; intros k; rewrite !lookup_insert;
    repeat case_decide; congruence.
Qed.

(* ===================================================================== *)
(** ** More on the dispatcher *)
(* ===================================================================== *)

(** X6.  The four candidate hosts are pairwise different, whatever the
    application id: no host is tried twice. *)
Theorem getHosts_NoDup (applicationId : string) : NoDup (getHosts applicationId).
Proof.
  unfold getHosts.
  repeat (apply NoDup_cons; split;
          [rewrite ?elem_of_cons, elem_of_nil;
           intros H; repeat (destruct H as [H|H]; [apply string_app_inv_head in H; discriminate|]);
           exact H|]).
  apply NoDup_nil. exact I.
Qed.

(** The failover on any list of hosts: it calls a prefix of the list, and
    either its last call succeeded or it called every host and answers 502. *)
Lemma tryAlgoliaHosts_run
    (w : World) (pathname search method : string) (hdrs : Headers)
    (bodyStr : option string) (hosts : list string)
    (isSSRRequest : bool) (userAgent : string) :
  let reqs := map (hostRequest pathname search method hdrs bodyStr) hosts in
  let result := tryAlgoliaHosts pathname search method hdrs bodyStr hosts
                  isSSRRequest userAgent w in
  exists n,
    (n <= length hosts)%nat
    /\ snd result = advance w (map EvFetch (take n reqs))
    /\ ((exists k, n = S k /\ ok (fst result) = true)
        \/ (n = length hosts
            /\ status (fst result) = 502%N
            /\ Headers.get "Content-Type" (headers (fst result)) = Some "application/json"
            /\ body_errorType (fst result) = Some algolia)).
Proof.
  intros reqs result. subst result. unfold tryAlgoliaHosts. unfold_monad.
  rewrite tryAlgoliaHosts_loop_run. fold reqs.
  destruct (first_success (outcomes w reqs)) as [[k r]|] eqn:Hfirst; cbn [fst snd].
  - destruct (first_success_Some _ _ _ Hfirst) as (Hk & Hok & _).
    exists (S k). split; [|split; [reflexivity | left; eauto]].
    apply lookup_lt_Some in Hk.
    rewrite length_outcomes in Hk. unfold reqs in Hk. rewrite length_map in Hk. lia.
  - exists (length hosts). split; [lia|]. split.
    + unfold now. cbn [snd]. rewrite take_ge; [reflexivity|].
      unfold reqs. now rewrite length_map.
    + right. unfold now. cbn [fst]. repeat split.
Qed.

(** X7.  For any list of hosts, the empty one included, the failover makes
    its calls to a prefix of the list in order.  It returns either a response
    with a success status, the answer to its last call, or, after calling
    every host, a 502 whose details count and name all hosts and whose
    [algolia_url] is the URL for the first host, or [unknown] when there is
    no host. *)
Theorem tryAlgoliaHosts_any_hosts
    (w : World) (pathname search method : string) (hdrs : Headers)
    (bodyStr : option string) (hosts : list string)
    (isSSRRequest : bool) (userAgent : string) :
  let reqs := map (hostRequest pathname search method hdrs bodyStr) hosts in
  let outs := outcomes w reqs in
  let result := tryAlgoliaHosts pathname search method hdrs bodyStr hosts
                  isSSRRequest userAgent w in
  exists n,
    (n <= length hosts)%nat
    /\ snd result = advance w (map EvFetch (take n reqs))
    /\ ((exists k, n = S k /\ outs !! k = Some (Resolved (fst result))
                   /\ ok (fst result) = true)
        \/ (n = length hosts
            /\ status (fst result) = 502%N
            /\ Headers.get "Content-Type" (headers (fst result)) = Some "application/json"
            /\ exists e,
                 body (fst result) = BodyJson e
                 /\ errorType e = algolia
                 /\ details e
                    = Some (DetailsText
                              ("Tried " +:+ pretty (length hosts) +:+ " host(s): "
                               +:+ String.concat ", "
                                     (zip_with (fun h o => h +:+ status_text o) hosts outs)))
                 /\ algolia_url e
                    = Some (match hosts with
                            | host :: _ => "https://" +:+ host +:+ pathname +:+ search
                            | [] => "unknown"
                            end)
                 /\ algolia_method e = Some method
                 /\ algolia_body e = bodyStr)).
Proof.
  intros reqs outs result. subst result. unfold tryAlgoliaHosts. unfold_monad.
  rewrite tryAlgoliaHosts_loop_run. fold reqs. fold outs.
  destruct (first_success outs) as [[k r]|] eqn:Hfirst; cbn [fst snd].
  - destruct (first_success_Some _ _ _ Hfirst) as (Hk & Hok & _).
    exists (S k). split; [|split; [reflexivity | left; eauto]].
    apply lookup_lt_Some in Hk. unfold outs in Hk.
    rewrite length_outcomes in Hk. unfold reqs in Hk. rewrite length_map in Hk. lia.
  - exists (length hosts). split; [lia|]. split.
    + unfold now. cbn [snd]. rewrite take_ge; [reflexivity|].
      unfold reqs. now rewrite length_map.
    + right. unfold now. cbn [fst]. split; [reflexivity|]. split; [reflexivity|].
      split; [reflexivity|]. eexists. split; [reflexivity|].
      cbn [errorType details algolia_url algolia_method algolia_body app].
      repeat split.
      unfold attempts_details. rewrite map_attempt_text, length_zip_with.
      unfold outs. rewrite length_outcomes. unfold reqs. rewrite length_map.
      now rewrite Nat.min_id.
Qed.

Lemma fetchFromAlgolia_search (ctx : RequestContext) (originalHeaders : Headers)
    (bodyStr : option string) (env : Env) (isSSRRequest : bool) (w : World) :
  ctx_pathname ctx <> "/1/events" ->
  fetchFromAlgolia ctx originalHeaders bodyStr env isSSRRequest w
  = tryAlgoliaHosts (ctx_pathname ctx)
      ("?" +:+ SearchParams.toString (searchPathParams ctx env)) (ctx_method ctx)
      originalHeaders bodyStr (getHosts (ALGOLIA_APPLICATION_ID env)) isSSRRequest
      (default "unknown" (js_or (Headers.get "User-Agent" originalHeaders) (Some "unknown")))
      w.
Proof.
  intros Hpath. apply String.eqb_neq in Hpath. unfold fetchFromAlgolia. now rewrite Hpath.
Qed.

(** The calls of one dispatch: between one and four, all with the method,
    headers and body handed to the dispatcher. *)
Lemma fetchFromAlgolia_calls (ctx : RequestContext) (originalHeaders : Headers)
    (bodyStr : option string) (env : Env) (isSSRRequest : bool) (w : World) :
  exists reqs,
    snd (fetchFromAlgolia ctx originalHeaders bodyStr env isSSRRequest w)
    = advance w (map EvFetch reqs)
    /\ (1 <= length reqs <= 4)%nat
    /\ Forall (fun rq => f_method rq = ctx_method ctx
                         /\ f_headers rq = originalHeaders
                         /\ f_body rq = bodyStr) reqs
    /\ (ctx_pathname ctx = "/1/events" ->
        reqs = [ {| f_url := insightsUrl ctx env; f_method := ctx_method ctx;
                    f_headers := originalHeaders; f_body := bodyStr |} ])
    /\ (ctx_pathname ctx <> "/1/events" ->
        Forall (fun rq => exists host,
                    host ∈ getHosts (ALGOLIA_APPLICATION_ID env)
                    /\ f_url rq = "https://" +:+ host +:+ ctx_pathname ctx +:+ "?"
                                  +:+ SearchParams.toString (searchPathParams ctx env)) reqs).
Proof.
  destruct (String.eqb (ctx_pathname ctx) "/1/events") eqn:Hpath.
  - apply String.eqb_eq in Hpath.
    rewrite (fetchFromAlgolia_events _ _ _ _ _ _ Hpath). cbn [snd].
    eexists [_]. split; [reflexivity|]. split; [cbn; lia|].
    split; [repeat constructor|]. split; [reflexivity | congruence].
  - apply String.eqb_neq in Hpath. rewrite (fetchFromAlgolia_search _ _ _ _ _ _ Hpath).
    set (search := "?" +:+ SearchParams.toString (searchPathParams ctx env)).
    destruct (tryAlgoliaHosts_run w (ctx_pathname ctx) search (ctx_method ctx)
                originalHeaders bodyStr (getHosts (ALGOLIA_APPLICATION_ID env)) isSSRRequest
                (default "unknown"
                   (js_or (Headers.get "User-Agent" originalHeaders) (Some "unknown"))))
      as (n & Hn & Hrun & Hcases).
    cbv zeta in Hrun, Hcases.
    set (reqs := map (hostRequest (ctx_pathname ctx) search (ctx_method ctx)
                        originalHeaders bodyStr) (getHosts (ALGOLIA_APPLICATION_ID env))) in *.
    exists (take n reqs). split; [exact Hrun|].
    assert (Hlen : length reqs = 4%nat) by reflexivity.
    split.
    { rewrite length_take, Hlen. cbn [length getHosts] in Hn.
      destruct Hcases as [(k & -> & _)|(-> & _)]; cbn [length getHosts]; lia. }
    split; [|split; [congruence|]].
    + apply Forall_take. unfold reqs. apply Forall_map. apply Forall_forall.
      intros host _. repeat split.
    + intros _. apply Forall_take. unfold reqs. apply Forall_map. apply Forall_forall.
      intros host Hhost. exists host. split; [exact Hhost | reflexivity].
Qed.

(** X8.  On the search path the caller gets either a response with a success
    status, exactly as some host sent it, or the dispatcher's own 502 with a
    JSON body of kind [algolia]: a non-success status or body from upstream is
    never passed on. *)
Theorem search_path_masks_upstream_failures
    (ctx : RequestContext) (originalHeaders : Headers) (bodyStr : option string)
    (env : Env) (isSSRRequest : bool) (w : World) :
  ctx_pathname ctx <> "/1/events" ->
  let response := fst (fetchFromAlgolia ctx originalHeaders bodyStr env isSSRRequest w) in
  (ok response = true
   /\ exists history rq, upstream w history rq = Resolved response)
  \/ (status response = 502%N
      /\ body_errorType response = Some algolia
      /\ Headers.get "Content-Type" (headers response) = Some "application/json").
Proof.
  intros Hpath response. subst response.
  destruct (fetchFromAlgolia_run ctx originalHeaders bodyStr env isSSRRequest w)
    as (reqs & _ & Hlast).
  destruct (ok (fst (fetchFromAlgolia ctx originalHeaders bodyStr env isSSRRequest w)))
    eqn:Hok.
  - left. split; [reflexivity|]. destruct (Hlast eq_refl) as (pre & rq & _ & Hout). eauto.
  - right. revert Hok. rewrite (fetchFromAlgolia_search _ _ _ _ _ _ Hpath).
    match goal with
    | |- context [tryAlgoliaHosts ?p ?s ?m ?h ?b ?hs ?i ?u w] =>
        destruct (tryAlgoliaHosts_run w p s m h b hs i u) as (n & _ & _ & Hcases)
    end.
    cbv zeta in Hcases. intros Hok.
    destruct Hcases as [(k & _ & Hok')|(_ & Hstatus & Htype & Hkind)].
    + congruence.
    + auto.
Qed.

(** X8 on a world where every host answers 404. *)
Lemma search_path_masks_upstream_failures_witness :
  let ctx := requestContext (search_request None (browser_headers "https://www.avocadostore.de")
                               "search") in
  let w := sample_world (always_resolves (text_response 404 ∅ "not found")) in
  ctx_pathname ctx <> "/1/events"
  /\ status (fst (fetchFromAlgolia ctx ∅ None sample_env false w)) = 502%N.
Proof.
  intros ctx w.
  assert (Hpath : ctx_pathname ctx <> "/1/events") by discriminate.
  split; [exact Hpath|].
  destruct (search_path_masks_upstream_failures ctx ∅ None sample_env false w Hpath)
    as [[Hok _]|[Hstatus _]]; [discriminate | exact Hstatus].
Defined.

(** X9.  On the analytics path there is exactly one upstream call and no
    failover: whatever that call resolves to is returned as it is, a
    non-success status included; if it throws, the result is a 502 with the
    fixed plain-text body. *)
Theorem analytics_path_passes_through
    (ctx : RequestContext) (originalHeaders : Headers) (bodyStr : option string)
    (env : Env) (isSSRRequest : bool) (w : World) :
  ctx_pathname ctx = "/1/events" ->
  exists rq,
    events_of (fetchFromAlgolia ctx originalHeaders bodyStr env isSSRRequest) w = [EvFetch rq]
    /\ f_method rq = ctx_method ctx /\ f_headers rq = originalHeaders /\ f_body rq = bodyStr
    /\ (forall r, upstream w (trace w) rq = Resolved r ->
                  fst (fetchFromAlgolia ctx originalHeaders bodyStr env isSSRRequest w) = r)
    /\ (forall e, upstream w (trace w) rq = Rejected e ->
                  let response :=
                    fst (fetchFromAlgolia ctx originalHeaders bodyStr env isSSRRequest w) in
                  status response = 502%N
                  /\ body response = BodyText "Failed to reach Algolia Insights endpoint"
                  /\ Headers.get "Content-Type" (headers response)
                     = Some "text/plain;charset=UTF-8"
                  /\ allowOrigin response = None).
Proof.
  intros Hpath. eexists.
  rewrite (events_of_advance _ w [_])
    by (rewrite (fetchFromAlgolia_events _ _ _ _ _ _ Hpath); reflexivity).
  split; [reflexivity|]. cbn [f_method f_headers f_body]. repeat split.
  - intros r Hr. rewrite (fetchFromAlgolia_events _ _ _ _ _ _ Hpath). cbn [fst].
    now rewrite Hr.
  - rewrite (fetchFromAlgolia_events _ _ _ _ _ _ Hpath). cbn [fst]. now rewrite H.
  - rewrite (fetchFromAlgolia_events _ _ _ _ _ _ Hpath). cbn [fst]. now rewrite H.
  - rewrite (fetchFromAlgolia_events _ _ _ _ _ _ Hpath). cbn [fst]. now rewrite H.
  - rewrite (fetchFromAlgolia_events _ _ _ _ _ _ Hpath). cbn [fst]. now rewrite H.
Qed.

(** X9 on an analytics endpoint that answers 404. *)
Lemma analytics_path_passes_through_witness :
  let ctx := events_context [] in
  let w := sample_world (always_resolves (text_response 404 ∅ "not found")) in
  ctx_pathname ctx = "/1/events"
  /\ status (fst (fetchFromAlgolia ctx ∅ None sample_env false w)) = 404%N.
Proof.
  intros ctx w. split; [reflexivity|].
  destruct (analytics_path_passes_through ctx ∅ None sample_env false w eq_refl)
    as (rq & Hevents & _ & _ & _ & Hpass & _).
  assert (Hrq : rq = {| f_url := insightsUrl ctx sample_env; f_method := "POST";
                        f_headers := ∅; f_body := None |}).
  { assert (H : [EvFetch rq]
                = [EvFetch {| f_url := insightsUrl ctx sample_env; f_method := "POST";
                              f_headers := ∅; f_body := None |}])
      by (rewrite <- Hevents; reflexivity).
    congruence. }
  rewrite (Hpass (text_response 404 ∅ "not found")); [reflexivity|].
  rewrite Hrq. reflexivity.
Defined.

(* ===================================================================== *)
(** ** The runs of the handler, case by case *)
(* ===================================================================== *)

(** Every run of the handler is one of the six of [Handled]; it changes the
    world by the events and the cache of that run only. *)
Lemma fetch_Handled (request : Request) (env : Env) (w : World) :
  exists response evs store,
    fetch request env w = (response, with_cache (advance w evs) store)
    /\ Handled request env w response evs store.
Proof.
  rewrite fetch_unfold. destruct (String.eqb (method request) "OPTIONS") eqn:Hmethod.
  { apply String.eqb_eq in Hmethod. exists (handleOptions (requestContext request)), [], (cache w).
    split; [|now constructor]. destruct w. unfold with_cache, advance. cbn.
    now rewrite app_nil_r. }
  apply String.eqb_neq in Hmethod.
  destruct (validated request w) as [error|bodyStr] eqn:Hvalid.
  { exists error, [EvLog LogError], (cache w). split; [reflexivity | now constructor]. }
  cbv zeta. destruct (cache_gate request env) eqn:Hgate.
  - destruct (cache w !! key_of request) as [r|] eqn:Hhit.
    { eexists _, _, _. split; [|eapply Handled_hit; eassumption]. reflexivity. }
    destruct (fetchFromAlgolia_run (requestContext request) (req_headers request)
                bodyStr env (isSSR request) (advance w [EvCacheMatch (key_of request)]))
      as (reqs & Hrun & _).
    destruct (fetchFromAlgolia _ _ _ _ _ _) as [r w1] eqn:Hdispatch.
    cbn [snd] in Hrun. subst w1.
    destruct (ok r) eqn:Hok.
    + eexists _, _, _. split; [|eapply Handled_stored; eassumption].
      unfold with_cache, advance. cbn. now rewrite <- !app_assoc.
    + eexists _, _, _. split; [|eapply Handled_failed; eassumption].
      unfold with_cache, advance. cbn. now rewrite <- !app_assoc.
  - destruct (fetchFromAlgolia_run (requestContext request) (req_headers request)
                bodyStr env (isSSR request) w) as (reqs & Hrun & _).
    destruct (fetchFromAlgolia _ _ _ _ _ _) as [r w1] eqn:Hdispatch.
    cbn [snd] in Hrun. subst w1.
    eexists _, _, _. split; [|eapply Handled_direct; eassumption].
    unfold with_cache, advance. cbn. now rewrite <- !app_assoc.
Qed.

Lemma events_of_with_cache {A : Type} (m : M A) (w : World) (a : A) (evs : list Event)
    (store : gmap string Response) :
  m w = (a, with_cache (advance w evs) store) -> events_of m w = evs.
Proof.
  intros H. unfold events_of. rewrite H. cbn. now rewrite drop_app_length.
Qed.

(** The cache events of a run carry the key of its request. *)
Lemma Handled_cache_key (request : Request) (env : Env) (w : World) (response : Response)
    (evs : list Event) (store : gmap string Response) (e : Event) (key : string) :
  Handled request env w response evs store ->
  e ∈ evs -> cache_key e = Some key -> key = key_of request.
Proof.
  assert (Hfetches : forall reqs, e ∈ map EvFetch reqs -> cache_key e = Some key -> False).
  { intros reqs H. apply list_elem_of_fmap in H as (rq & -> & _). discriminate. }
  intros Hrun Hin Hkey.
  destruct Hrun as [Hm|error Hm Hv|bodyStr r Hm Hv Hg Hhit|bodyStr reqs r Hm Hv Hg Hmiss Hd Hok
                   |bodyStr reqs r Hm Hv Hg Hmiss Hd Hok|bodyStr reqs r Hm Hv Hg Hd].
  all: repeat first
         [ apply elem_of_cons in Hin as [->|Hin]
         | apply elem_of_app in Hin as [Hin|Hin]
         | apply elem_of_nil in Hin; destruct Hin ].
  all: try discriminate; try (now destruct (Hfetches reqs)).
  all: cbn in Hkey; congruence.
Qed.

(** A run leaves the cache as it was, but for the key of its request. *)
Lemma Handled_other_keys (request : Request) (env : Env) (w : World) (response : Response)
    (evs : list Event) (store : gmap string Response) (key : string) :
  Handled request env w response evs store ->
  key <> key_of request -> store !! key = cache w !! key.
Proof.
  intros Hrun Hne. destruct Hrun; try reflexivity.
  now apply lookup_insert_ne.
Qed.

(** C6.  Two requests to the same origin and path whose cache tokens differ,
    or whose SSR flags differ, are handled under different cache keys,
    whatever their other query parameters: every lookup and every store of a
    run uses the key of its request, which is the URL with [cacheKey] set to
    the token and [ssr] set to [1] or [0], and the keys of the two requests
    differ.  So the run of one request leaves what the cache holds under the
    key of the other as it was. *)
Theorem C6_cache_keys_differ
    (request1 request2 : Request) (env : Env) (w1 w2 : World) (t1 t2 : string) :
  url_origin (url request1) = url_origin (url request2) ->
  pathname (url request1) = pathname (url request2) ->
  hash (url request1) = hash (url request2) ->
  cacheKeyParam request1 = Some t1 ->
  cacheKeyParam request2 = Some t2 ->
  t1 <> t2 \/ isSSR request1 <> isSSR request2 ->
  let key1 := cacheKeyUrl (url request1) t1 (isSSR request1) in
  let key2 := cacheKeyUrl (url request2) t2 (isSSR request2) in
  (forall e key, e ∈ events_of (fetch request1 env) w1 -> cache_key e = Some key ->
                 key = key1)
  /\ (forall e key, e ∈ events_of (fetch request2 env) w2 -> cache_key e = Some key ->
                    key = key2)
  /\ key1 <> key2
  /\ cache (snd (fetch request1 env w1)) !! key2 = cache w1 !! key2
  /\ cache (snd (fetch request2 env w2)) !! key1 = cache w2 !! key1
  /\ key1
     = url_origin (url request1) +:+ pathname (url request1) +:+ ("?" +:+
         SearchParams.toString
           (SearchParams.set "ssr" (if isSSR request1 then "1" else "0")
              (SearchParams.set "cacheKey" t1 (searchParams (url request1)))))
       +:+ hash (url request1).
Proof.
  intros Ho Hp Hh Ht1 Ht2 Hdiff key1 key2.
  assert (Hkey1 : key_of request1 = key1) by (unfold key_of; now rewrite Ht1).
  assert (Hkey2 : key_of request2 = key2) by (unfold key_of; now rewrite Ht2).
  assert (Hne : key1 <> key2).
  { intros Hkey. destruct (cacheKeyUrl_inj _ _ _ _ _ _ Ho Hp Hh Hkey) as [Ht Hs].
    destruct Hdiff; contradiction. }
  destruct (fetch_Handled request1 env w1) as (r1 & evs1 & store1 & Heq1 & Hrun1).
  destruct (fetch_Handled request2 env w2) as (r2 & evs2 & store2 & Heq2 & Hrun2).
  rewrite (events_of_with_cache _ _ _ _ _ Heq1), (events_of_with_cache _ _ _ _ _ Heq2).
  rewrite Heq1, Heq2. cbn [snd with_cache cache].
  split; [intros e key Hin Hkey; rewrite <- Hkey1;
          exact (Handled_cache_key _ _ _ _ _ _ _ _ Hrun1 Hin Hkey)|].
  split; [intros e key Hin Hkey; rewrite <- Hkey2;
          exact (Handled_cache_key _ _ _ _ _ _ _ _ Hrun2 Hin Hkey)|].
  split; [exact Hne|].
  split; [apply (Handled_other_keys _ _ _ _ _ _ _ Hrun1); congruence|].
  split; [apply (Handled_other_keys _ _ _ _ _ _ _ Hrun2); congruence|].
  apply cacheKeyUrl_shape.
Qed.

(** C6 on two SSR requests with the tokens [key-1] and [key-2], and on a
    client request with the token [key-1]: each run looks up and stores under
    its own key. *)
Lemma C6_cache_keys_differ_witness :
  let w := sample_world (always_resolves hits) in
  let env := {| ALGOLIA_APPLICATION_ID := "testtest"; ALGOLIA_API_KEY := "testtest";
                CACHE_TTL_SSR := None; CACHE_TTL_CLIENT := Some "60" |} in
  let first := search_request (Some "cacheKey=key-1") ssr_headers "search" in
  let second := search_request (Some "cacheKey=key-2") ssr_headers "search" in
  let client := search_request (Some "cacheKey=key-1")
                  (browser_headers "https://www.avocadostore.de") "search" in
  let key1 := "https://example.com/1/indexes/*/queries?cacheKey=key-1&ssr=1" in
  let key2 := "https://example.com/1/indexes/*/queries?cacheKey=key-2&ssr=1" in
  let key0 := "https://example.com/1/indexes/*/queries?cacheKey=key-1&ssr=0" in
  (EvCacheMatch key1 ∈ events_of (fetch first env) w
   /\ EvCacheMatch key2 ∈ events_of (fetch second env) w
   /\ EvCacheMatch key0 ∈ events_of (fetch client env) w)
  /\ key1 <> key2
  /\ key1 <> key0
  /\ (forall e key, e ∈ events_of (fetch first env) w -> cache_key e = Some key ->
                    key = key1)
  /\ cache (snd (fetch first env w)) !! key2 = None
  /\ cache (snd (fetch first env w)) !! key0 = None.
Proof.
  intros w env first second client key1 key2 key0.
  assert (Htokens : "key-1" <> "key-2" \/ isSSR first <> isSSR second)
    by (left; discriminate).
  assert (Hflags : "key-1" <> "key-1" \/ isSSR first <> isSSR client)
    by (right; discriminate).
  destruct (C6_cache_keys_differ first second env w w "key-1" "key-2"
              eq_refl eq_refl eq_refl eq_refl eq_refl Htokens)
    as (Hfirst & _ & Hne12 & Hkept2 & _).
  destruct (C6_cache_keys_differ first client env w w "key-1" "key-1"
              eq_refl eq_refl eq_refl eq_refl eq_refl Hflags)
    as (_ & _ & Hne10 & Hkept0 & _).
  split; [|split; [exact Hne12|split; [exact Hne10|split; [exact Hfirst|split]]]].
  - repeat split; apply list_elem_of_In; vm_compute; left; reflexivity.
  - etransitivity; [exact Hkept2 | reflexivity].
  - etransitivity; [exact Hkept0 | reflexivity].
Defined.

(** What passes the decode-and-validate step is the body that is forwarded. *)
Lemma validated_forwarded (request : Request) (w : World) (bodyStr : option string) :
  validated request w = inr bodyStr -> bodyStr = forwarded_body request.
Proof.
  unfold validated, forwarded_body, parseRequestBody. unfold_monad.
  destruct (String.eqb (method request) "POST"); [|congruence].
  destruct (json request) as [message|b|ill text]; [discriminate| |].
  - destruct (requests b) as [reqs|]; [|cbn; congruence].
    destruct (invalid (isInvalidQuery reqs)); cbn; congruence.
  - destruct (isInvalidQuery_ill_typed ill); discriminate.
Qed.

Lemma advance_inj (w : World) (evs evs' : list Event) :
  advance w evs = advance w evs' -> evs = evs'.
Proof.
  intros H. apply (f_equal trace) in H. cbn in H. now apply app_inv_head in H.
Qed.

Lemma map_EvFetch_inj (reqs reqs' : list FetchRequest) :
  map EvFetch reqs = map EvFetch reqs' -> reqs = reqs'.
Proof.
  revert reqs'. induction reqs as [|rq reqs IH]; intros [|rq' reqs'] H; try discriminate.
  - reflexivity.
  - cbn in H. injection H as -> H. f_equal. now apply IH.
Qed.

(** The calls of a dispatch that is known by its result. *)
Lemma dispatch_calls (ctx : RequestContext) (originalHeaders : Headers)
    (bodyStr : option string) (env : Env) (isSSRRequest : bool) (w : World)
    (r : Response) (reqs : list FetchRequest) :
  fetchFromAlgolia ctx originalHeaders bodyStr env isSSRRequest w
  = (r, advance w (map EvFetch reqs)) ->
  (1 <= length reqs <= 4)%nat
  /\ Forall (fun rq => f_method rq = ctx_method ctx
                       /\ f_headers rq = originalHeaders
                       /\ f_body rq = bodyStr) reqs
  /\ (ctx_pathname ctx = "/1/events" ->
      reqs = [ {| f_url := insightsUrl ctx env; f_method := ctx_method ctx;
                  f_headers := originalHeaders; f_body := bodyStr |} ])
  /\ (ctx_pathname ctx <> "/1/events" ->
      Forall (fun rq => exists host,
                  host ∈ getHosts (ALGOLIA_APPLICATION_ID env)
                  /\ f_url rq = "https://" +:+ host +:+ ctx_pathname ctx +:+ "?"
                                +:+ SearchParams.toString (searchPathParams ctx env)) reqs).
Proof.
  intros Hrun.
  destruct (fetchFromAlgolia_calls ctx originalHeaders bodyStr env isSSRRequest w)
    as (reqs' & Hrun' & H).
  rewrite Hrun in Hrun'. cbn [snd] in Hrun'.
  apply advance_inj, map_EvFetch_inj in Hrun'. now subst reqs'.
Qed.

Lemma elem_of_map_EvFetch (rq : FetchRequest) (reqs : list FetchRequest) :
  EvFetch rq ∈ map EvFetch reqs -> rq ∈ reqs.
Proof.
  intros H. apply list_elem_of_fmap in H as (rq' & Heq & Hin). now injection Heq as ->.
Qed.

(** X10.  On the search path every upstream call goes to one of the four
    hosts of the configured application, at the caller's path, with one and
    the same query: the API key, the application id and the agent appear
    exactly once each, under their lower-case names and with the worker's
    values, and every caller parameter under another name is forwarded
    unchanged. *)
Theorem search_path_forwarded_parameters
    (ctx : RequestContext) (originalHeaders : Headers) (bodyStr : option string)
    (env : Env) (isSSRRequest : bool) (w : World) :
  ctx_pathname ctx <> "/1/events" ->
  exists forwarded,
    named "x-algolia-api-key" forwarded = [("x-algolia-api-key", ALGOLIA_API_KEY env)]
    /\ named "x-algolia-application-id" forwarded
       = [("x-algolia-application-id", ALGOLIA_APPLICATION_ID env)]
    /\ named "x-algolia-agent" forwarded = [("x-algolia-agent", SEARCH_AGENT)]
    /\ (forall name, name ∉ SEARCH_NAMES ->
                     named name forwarded = named name (ctx_searchParams ctx))
    /\ forall rq,
         EvFetch rq ∈ events_of (fetchFromAlgolia ctx originalHeaders bodyStr env
                                   isSSRRequest) w ->
         exists host,
           host ∈ getHosts (ALGOLIA_APPLICATION_ID env)
           /\ f_url rq = "https://" +:+ host +:+ ctx_pathname ctx +:+ "?"
                         +:+ SearchParams.toString forwarded.
Proof.
  intros Hpath. exists (searchPathParams ctx env).
  unfold searchPathParams at 1 2 3 4. rewrite parse_toString. cbv zeta.
  repeat split.
  - rewrite !named_set_ne, named_set_eq by discriminate. reflexivity.
  - rewrite named_set_ne, named_set_eq by discriminate. reflexivity.
  - apply named_set_eq.
  - intros name Hname. unfold SEARCH_NAMES in Hname.
    rewrite !elem_of_cons, elem_of_nil in Hname.
    rewrite !named_set_ne by (intros ->; tauto). reflexivity.
  - intros rq Hin.
    destruct (fetchFromAlgolia_calls ctx originalHeaders bodyStr env isSSRRequest w)
      as (reqs & Hrun & _ & _ & _ & Hurls).
    rewrite (events_of_advance _ _ _ Hrun) in Hin. apply elem_of_map_EvFetch in Hin.
    specialize (Hurls Hpath). rewrite Forall_forall in Hurls.
    destruct (Hurls rq Hin) as (host & Hhost & Hurl).
    exists host. split; [exact Hhost | exact Hurl].
Qed.

(** X10 on a search request with a parameter of its own and a credential in
    capitals. *)
Lemma search_path_forwarded_parameters_witness :
  let request := search_request (Some "page=2&X-Algolia-API-Key=callers-own")
                   (browser_headers "https://www.avocadostore.de") "search" in
  let ctx := requestContext request in
  let w := sample_world (always_resolves hits) in
  ctx_pathname ctx <> "/1/events"
  /\ exists forwarded,
       named "x-algolia-api-key" forwarded = [("x-algolia-api-key", "testtest")]
       /\ named "page" forwarded = [("page", "2")]
       /\ named "X-Algolia-API-Key" forwarded = [("X-Algolia-API-Key", "callers-own")].
Proof.
  intros request ctx w.
  assert (Hpath : ctx_pathname ctx <> "/1/events") by discriminate.
  split; [exact Hpath|].
  destruct (search_path_forwarded_parameters ctx (req_headers request) None sample_env
              false w Hpath) as (forwarded & Hkey & _ & _ & Hkept & _).
  exists forwarded. split; [exact Hkey|].
  rewrite !Hkept; [split; reflexivity | |].
  all: unfold SEARCH_NAMES; rewrite !elem_of_cons, elem_of_nil;
    intros [H|[H|[H|[]]]]; discriminate.
Defined.

(** The upstream calls of a run belong to its one dispatch. *)
Lemma Handled_calls (request : Request) (env : Env) (w : World) (response : Response)
    (evs : list Event) (store : gmap string Response) (rq : FetchRequest) :
  Handled request env w response evs store ->
  EvFetch rq ∈ evs ->
  method request <> "OPTIONS"
  /\ exists bodyStr w0 r reqs,
       validated request w = inr bodyStr
       /\ fetchFromAlgolia (requestContext request) (req_headers request) bodyStr env
            (isSSR request) w0
          = (r, advance w0 (map EvFetch reqs))
       /\ rq ∈ reqs.
Proof.
  intros Hrun Hin.
  destruct Hrun as [Hm|error Hm Hv|bodyStr r Hm Hv Hg Hhit|bodyStr reqs r Hm Hv Hg Hmiss Hd Hok
                   |bodyStr reqs r Hm Hv Hg Hmiss Hd Hok|bodyStr reqs r Hm Hv Hg Hd].
  - inversion Hin.
  - apply elem_of_cons in Hin as [Hin|Hin]; [discriminate | inversion Hin].
  - apply elem_of_cons in Hin as [Hin|Hin]; [discriminate|].
    apply elem_of_cons in Hin as [Hin|Hin]; [discriminate | inversion Hin].
  - split; [exact Hm|]. eexists bodyStr, _, r, reqs. split; [exact Hv|]. split; [exact Hd|].
    apply elem_of_cons in Hin as [Hin|Hin]; [discriminate|].
    apply elem_of_app in Hin as [Hin|Hin]; [now apply elem_of_map_EvFetch|].
    apply elem_of_cons in Hin as [Hin|Hin]; [discriminate|].
    apply elem_of_cons in Hin as [Hin|Hin]; [discriminate | inversion Hin].
  - split; [exact Hm|]. eexists bodyStr, _, r, reqs. split; [exact Hv|]. split; [exact Hd|].
    apply elem_of_cons in Hin as [Hin|Hin]; [discriminate|].
    apply elem_of_app in Hin as [Hin|Hin]; [now apply elem_of_map_EvFetch|].
    apply elem_of_cons in Hin as [Hin|Hin]; [discriminate | inversion Hin].
  - split; [exact Hm|]. eexists bodyStr, _, r, reqs. split; [exact Hv|]. split; [exact Hd|].
    apply elem_of_app in Hin as [Hin|Hin]; [now apply elem_of_map_EvFetch|].
    apply elem_of_cons in Hin as [Hin|Hin]; [discriminate | inversion Hin].
Qed.

(** X11.  Every upstream call that the handler makes carries the caller's
    method and the caller's headers, all of them and unchanged; its body is
    the parsed body serialized again for a POST, and there is none for any
    other method.  Its URL is the analytics URL on the analytics path and the
    caller's path on one of the application's hosts otherwise. *)
Theorem handler_forwards_method_headers_body
    (request : Request) (env : Env) (w : World) (rq : FetchRequest) :
  EvFetch rq ∈ events_of (fetch request env) w ->
  f_method rq = method request
  /\ f_headers rq = req_headers request
  /\ (method request = "POST" ->
      exists b, json request = JsonValue b /\ f_body rq = Some (stringify b))
  /\ (method request <> "POST" -> f_body rq = None)
  /\ (pathname (url request) = "/1/events" ->
      f_url rq = insightsUrl (requestContext request) env)
  /\ (pathname (url request) <> "/1/events" ->
      exists host, host ∈ getHosts (ALGOLIA_APPLICATION_ID env)
                   /\ f_url rq = "https://" +:+ host +:+ pathname (url request) +:+ "?"
                        +:+ SearchParams.toString
                              (searchPathParams (requestContext request) env)).
Proof.
  intros Hin.
  destruct (fetch_Handled request env w) as (response & evs & store & Heq & Hrun).
  rewrite (events_of_with_cache _ _ _ _ _ Heq) in Hin.
  destruct (Handled_calls _ _ _ _ _ _ _ Hrun Hin)
    as (_ & bodyStr & w0 & r & reqs & Hvalid & Hdispatch & Hrq).
  destruct (dispatch_calls _ _ _ _ _ _ _ _ Hdispatch) as (_ & Hall & Hevents & Hsearch).
  rewrite Forall_forall in Hall. destruct (Hall rq Hrq) as (Hmethod & Hheaders & Hbody).
  cbn [requestContext ctx_method ctx_pathname] in *.
  split; [exact Hmethod|]. split; [exact Hheaders|].
  apply validated_forwarded in Hvalid. subst bodyStr. unfold forwarded_body in Hbody.
  repeat split.
  - intros Hpost. rewrite Hpost in Hbody. cbn in Hbody.
    destruct (json request) as [message|b|ill text] eqn:Hjson; [|eauto|].
    all: exfalso.
    all: destruct (Handled_calls _ _ _ _ _ _ _ Hrun Hin) as (_ & b' & _ & _ & _ & Hv & _).
    all: unfold validated, parseRequestBody in Hv; rewrite Hpost, Hjson in Hv.
    + discriminate.
    + destruct (isInvalidQuery_ill_typed ill); discriminate.
  - intros Hpost. apply String.eqb_neq in Hpost. now rewrite Hpost in Hbody.
  - intros Hpath. specialize (Hevents Hpath). subst reqs.
    apply list_elem_of_singleton in Hrq. now subst rq.
  - intros Hpath. specialize (Hsearch Hpath). rewrite Forall_forall in Hsearch.
    exact (Hsearch rq Hrq).
Qed.

(** X11 on a search request answered by the first host. *)
Lemma handler_forwards_method_headers_body_witness :
  let w := sample_world (always_resolves hits) in
  let request := search_request None (browser_headers "https://www.avocadostore.de")
                   "search" in
  exists rq,
    EvFetch rq ∈ events_of (fetch request sample_env) w
    /\ f_method rq = "POST"
    /\ f_headers rq = browser_headers "https://www.avocadostore.de".
Proof.
  intros w request.
  assert (H : exists rq, EvFetch rq ∈ events_of (fetch request sample_env) w).
  { eexists. apply list_elem_of_In. vm_compute. left. reflexivity. }
  destruct H as (rq & Hin). exists rq. split; [exact Hin|].
  destruct (handler_forwards_method_headers_body request sample_env w rq Hin)
    as (Hmethod & Hheaders & _).
  split; [exact Hmethod | exact Hheaders].
Defined.

Lemma count_app (p : Event -> bool) (evs evs' : list Event) :
  count p (evs ++ evs') = (count p evs + count p evs')%nat.
Proof. unfold count. now rewrite List.filter_app, length_app. Qed.

Lemma count_fetches (reqs : list FetchRequest) :
  count is_fetch (map EvFetch reqs) = length reqs.
Proof. unfold count. induction reqs as [|rq reqs IH]; cbn; [reflexivity | now rewrite IH]. Qed.

Lemma count_among_fetches (p : Event -> bool) (reqs : list FetchRequest) :
  (forall rq, p (EvFetch rq) = false) -> count p (map EvFetch reqs) = 0%nat.
Proof.
  intros Hp. unfold count. induction reqs as [|rq reqs IH]; cbn; [reflexivity|].
  now rewrite Hp.
Qed.

(** X12.  One request costs at most four upstream calls, one cache lookup,
    one cache write and one log entry; a write happens only after a lookup and
    at least one upstream call. *)
Theorem handler_work_is_bounded (request : Request) (env : Env) (w : World) :
  let evs := events_of (fetch request env) w in
  (count is_fetch evs <= 4)%nat
  /\ (count is_cache_match evs <= 1)%nat
  /\ (count is_cache_put evs <= 1)%nat
  /\ (count is_log evs <= 1)%nat
  /\ (length evs <= 7)%nat
  /\ (count is_cache_put evs = 1%nat ->
      count is_cache_match evs = 1%nat /\ (1 <= count is_fetch evs)%nat).
Proof.
  intros evs. subst evs.
  destruct (fetch_Handled request env w) as (response & evs & store & Heq & Hrun).
  rewrite (events_of_with_cache _ _ _ _ _ Heq).
  destruct Hrun as [Hm|error Hm Hv|bodyStr r Hm Hv Hg Hhit|bodyStr reqs r Hm Hv Hg Hmiss Hd Hok
                   |bodyStr reqs r Hm Hv Hg Hmiss Hd Hok|bodyStr reqs r Hm Hv Hg Hd].
  1-3: cbn; repeat split; lia.
  all: destruct (dispatch_calls _ _ _ _ _ _ _ _ Hd) as (Hlen & _).
  all: change (EvCacheMatch ?k :: ?l) with ([EvCacheMatch k] ++ l).
  all: rewrite ?length_app, ?length_map, ?count_app, ?count_fetches,
         ?(count_among_fetches is_cache_match), ?(count_among_fetches is_cache_put),
         ?(count_among_fetches is_log) by reflexivity.
  all: cbn; repeat split; lia.
Qed.

(* ===================================================================== *)
(** ** Rejections, preflights and the log *)
(* ===================================================================== *)

Lemma ok_addCorsHeaders (r : Response) (origin : option string) (isSSRRequest : bool) :
  ok (addCorsHeaders r origin isSSRRequest) = ok r.
Proof. reflexivity. Qed.

(** A rejected batch has one of the two kinds of the validator. *)
Lemma isInvalidQuery_kind (reqs : list SearchRequest) :
  invalid (isInvalidQuery reqs) = true ->
  v_errorType (isInvalidQuery reqs) = Some too_short
  \/ v_errorType (isInvalidQuery reqs) = Some invalid_characters.
Proof.
  unfold isInvalidQuery. destruct (forallb _ reqs); [discriminate|].
  rewrite isInvalidQuery_loop_find. destruct (find offends reqs); [now right|].
  destruct (false || existsb counts_as_long reqs); [discriminate | now left].
Qed.

Lemma all_empty_none_offends (reqs : list SearchRequest) :
  forallb empty_or_absent reqs = true -> existsb offends reqs = false.
Proof.
  induction reqs as [|req reqs IH]; [reflexivity|].
  cbn [forallb existsb]. intros H. apply andb_true_iff in H as [Hreq Hreqs].
  rewrite (IH Hreqs), orb_false_r. unfold empty_or_absent in Hreq. unfold offends.
  destruct (query req) as [| | | |[|c s]|text]; try discriminate; reflexivity.
Qed.

(** The validator on a value on which it can throw: it reports the first
    item with a disallowed character when one precedes the item that cannot be
    read, and throws otherwise. *)
Lemma isInvalidQuery_ill_typed_find (ill : IllTypedRequests) :
  isInvalidQuery_ill_typed ill
  = match find offends (readable_items ill) with
    | Some req => inr {| invalid := true;
                         v_errorType := Some invalid_characters;
                         v_query := Some (reported req) |}
    | None => inl (TypeError_message ill)
    end.
Proof.
  destruct ill as [|before|before]; cbn [isInvalidQuery_ill_typed readable_items
                                         TypeError_message find].
  - reflexivity.
  - rewrite all_empty_check.
    destruct (forallb empty_or_absent before) eqn:Hempty.
    + apply all_empty_none_offends, find_none_existsb in Hempty. now rewrite Hempty.
    + rewrite isInvalidQuery_loop_find. destruct (find offends before); reflexivity.
  - rewrite isInvalidQuery_loop_find. destruct (find offends before); reflexivity.
Qed.

(** X13.  A POST whose body does not parse or does not pass validation stops
    there: the answer is a 400 with a JSON error body of a validation kind, no
    upstream call is made, the cache is neither read nor changed, and the one
    event is an error log entry.  The kind is [malformed_json] exactly when an
    exception was caught: the parser's, or the validator's TypeError on a
    decoded value whose [requests] is not an array or has an item that cannot
    be read (a [null] item, a query that cannot be converted to a string) and
    that no item with a disallowed character precedes; [details] is then the
    message of the exception.  Otherwise the kind is the one that the
    validator found, and [details] holds the whole reported query. *)
Theorem rejected_body_stops_the_request
    (request : Request) (env : Env) (w : World) (error : Response) :
  method request <> "OPTIONS" ->
  validated request w = inl error ->
  method request = "POST"
  /\ fetch request env w = (error, advance w [EvLog LogError])
  /\ status error = 400%N
  /\ exists e kind,
       body error = BodyJson e
       /\ errorType e = of_validation kind
       /\ (kind = malformed_json <-> is_Some (thrown (json request)))
       /\ (forall message, thrown (json request) = Some message ->
                           details e = Some (DetailsText message))
       /\ (forall b, json request = JsonValue b ->
                     exists reqs,
                       requests b = Some reqs
                       /\ v_errorType (isInvalidQuery reqs) = Some kind
                       /\ details e = match v_query (isInvalidQuery reqs) with
                                      | Some (c :: s) => Some (DetailsQuery (c :: s))
                                      | _ => None
                                      end)
       /\ (forall ill text req,
             json request = JsonIllTyped ill text ->
             find offends (readable_items ill) = Some req ->
             kind = invalid_characters
             /\ details e = match reported req with
                            | c :: s => Some (DetailsQuery (c :: s))
                            | [] => None
                            end).
Proof.
  intros Hmethod Hvalid. pose proof Hvalid as Hv.
  apply String.eqb_neq in Hmethod. rewrite fetch_unfold, Hmethod, Hvalid. clear Hvalid.
  unfold validated, parseRequestBody in Hv. unfold_monad.
  destruct (String.eqb (method request) "POST") eqn:Hpost; [|discriminate].
  apply String.eqb_eq in Hpost. split; [exact Hpost|]. split; [reflexivity|].
  destruct (json request) as [message|b|ill text].
  - injection Hv as <-. split; [reflexivity|]. eexists _, malformed_json.
    split; [reflexivity|]. split; [reflexivity|]. cbn [thrown details].
    split; [split; eauto|]. split; [intros message' [= <-]; reflexivity|].
    split; discriminate.
  - destruct (requests b) as [reqs|] eqn:Hreqs; [|discriminate].
    destruct (invalid (isInvalidQuery reqs)) eqn:Hinvalid; [|discriminate].
    injection Hv as <-. split; [reflexivity|].
    eexists _, (default invalid_characters (v_errorType (isInvalidQuery reqs))).
    split; [reflexivity|]. split; [reflexivity|]. cbn [thrown details].
    destruct (isInvalidQuery_kind reqs Hinvalid) as [Hkind|Hkind]; rewrite Hkind;
      cbn [default].
    all: split; [split; [discriminate | intros [x Hx]; discriminate]|].
    all: split; [discriminate|].
    all: split; [|discriminate].
    all: intros b' Hb; injection Hb as <-; exists reqs.
    all: split; [exact Hreqs|]; split; [exact Hkind|].
    all: destruct (v_query (isInvalidQuery reqs)) as [[|c s]|]; reflexivity.
  - rewrite isInvalidQuery_ill_typed_find in Hv. cbn [thrown].
    destruct (find offends (readable_items ill)) as [req|] eqn:Hfind.
    + assert (Hoffends : existsb offends (readable_items ill) = true).
      { destruct (existsb offends (readable_items ill)) eqn:H; [reflexivity|].
        apply find_none_existsb in H. congruence. }
      rewrite Hoffends. injection Hv as <-. split; [reflexivity|].
      eexists _, invalid_characters. split; [reflexivity|]. split; [reflexivity|].
      split; [split; [discriminate | intros [x Hx]; discriminate]|].
      split; [discriminate|]. split; [discriminate|].
      intros ill' text' req' [= <- _] Hfind'. rewrite Hfind in Hfind'.
      injection Hfind' as <-. split; [reflexivity|].
      cbn [validation_failure body details v_query].
      destruct (reported req) as [|c s]; reflexivity.
    + pose proof Hfind as Hnone. apply find_none_existsb in Hnone. rewrite Hnone.
      injection Hv as <-. split; [reflexivity|].
      eexists _, malformed_json. split; [reflexivity|]. split; [reflexivity|].
      cbn [details].
      split; [split; eauto|]. split; [intros message' [= <-]; reflexivity|].
      split; [discriminate|].
      intros ill' text' req' [= <- _] Hfind'. congruence.
Qed.

(** X13 on a body that is not JSON, on valid JSON whose [requests] is a
    string, and on valid JSON whose [requests] has a [null] item after a query
    with a line feed. *)
Lemma rejected_body_stops_the_request_witness :
  let post := fun j => {| method := "POST"; url := queries_url None;
                          req_headers := browser_headers "https://www.avocadostore.de";
                          json := j |} in
  let w := sample_world (always_resolves hits) in
  let bad := {| query := JString (units "ab" ++ [0x0A%N]); otherFields := [] |} in
  (exists error,
     validated (post (JsonThrows "Unexpected token")) w = inl error
     /\ fetch (post (JsonThrows "Unexpected token")) sample_env w
        = (error, advance w [EvLog LogError])
     /\ body_errorType error = Some (of_validation malformed_json))
  /\ (exists error,
        validated (post (JsonIllTyped NotAnArray "<the JSON text of the body>")) w
        = inl error
        /\ status error = 400%N
        /\ body_errorType error = Some (of_validation malformed_json))
  /\ (exists error,
        validated (post (JsonIllTyped (ArrayWithNull [bad])
                           "<the JSON text of the body>")) w
        = inl error
        /\ body_errorType error = Some (of_validation invalid_characters)
        /\ body_detail error ≫= details
           = Some (DetailsQuery (units "ab" ++ [0x0A%N]))).
Proof.
  intros post w bad.
  assert (Hmethod : forall j, method (post j) <> "OPTIONS") by discriminate.
  split; [|split].
  - eexists. split; [reflexivity|].
    destruct (rejected_body_stops_the_request (post (JsonThrows "Unexpected token"))
                sample_env w _ (Hmethod _) eq_refl)
      as (_ & Hrun & _ & e & kind & Hbody & Hkind & Hiff & _).
    split; [exact Hrun|]. reflexivity.
  - eexists. split; [reflexivity|].
    destruct (rejected_body_stops_the_request
                (post (JsonIllTyped NotAnArray "<the JSON text of the body>"))
                sample_env w _ (Hmethod _) eq_refl)
      as (_ & _ & Hstatus & _).
    split; [exact Hstatus | reflexivity].
  - eexists. split; [reflexivity|].
    destruct (rejected_body_stops_the_request
                (post (JsonIllTyped (ArrayWithNull [bad]) "<the JSON text of the body>"))
                sample_env w _ (Hmethod _) eq_refl)
      as (_ & _ & _ & e & kind & Hbody & Hkind & _ & _ & _ & Hill).
    destruct (Hill _ _ bad eq_refl eq_refl) as (-> & Hdetails).
    unfold body_errorType, body_detail. rewrite Hbody. cbn [mbind option_bind].
    rewrite Hkind, Hdetails. split; reflexivity.
Defined.

(** X14.  A request whose method is neither POST nor OPTIONS is never
    validated and never cached: whatever its body, its cache token and its
    SSR flag, it is dispatched upstream without a body, the cache is neither
    read nor changed, and the answer is the dispatcher's response, stamped. *)
Theorem other_methods_bypass_validation_and_cache
    (request : Request) (env : Env) (w : World) :
  method request <> "POST" ->
  method request <> "OPTIONS" ->
  exists reqs r,
    fetchFromAlgolia (requestContext request) (req_headers request) None env
      (isSSR request) w
    = (r, advance w (map EvFetch reqs))
    /\ fetch request env w
       = (addCorsHeaders r (Some (ctx_origin (requestContext request))) (isSSR request),
          advance w (map EvFetch reqs ++ [EvLog (log_level r)]))
    /\ (1 <= length reqs)%nat
    /\ Forall (fun rq => f_body rq = None /\ f_method rq = method request) reqs.
Proof.
  intros Hpost Hoptions. apply String.eqb_neq in Hpost, Hoptions.
  rewrite fetch_unfold, Hoptions. unfold validated, cache_gate. rewrite Hpost. cbn [andb].
  cbv zeta.
  destruct (fetchFromAlgolia_calls (requestContext request) (req_headers request) None env
              (isSSR request) w) as (reqs & Hrun & Hlen & Hall & _).
  destruct (fetchFromAlgolia _ _ _ _ _ _) as [r w1]. cbn [snd] in Hrun. subst w1.
  exists reqs, r. split; [reflexivity|]. split; [now rewrite advance_advance|].
  split; [lia|]. eapply Forall_impl; [exact Hall|]. cbn. tauto.
Qed.

(** X14 on a GET that carries a cache token and the SSR flag. *)
Lemma other_methods_bypass_validation_and_cache_witness :
  let request := {| method := "GET"; url := queries_url (Some "cacheKey=test-key");
                    req_headers := ssr_headers; json := JsonThrows "no body" |} in
  let w := sample_world (always_resolves hits) in
  cache_gate request sample_env = false
  /\ exists reqs r,
       fetch request sample_env w
       = (addCorsHeaders r (Some (ctx_origin (requestContext request))) (isSSR request),
          advance w (map EvFetch reqs ++ [EvLog (log_level r)])).
Proof.
  intros request w. split; [reflexivity|].
  assert (Hpost : method request <> "POST") by discriminate.
  assert (Hoptions : method request <> "OPTIONS") by discriminate.
  destruct (other_methods_bypass_validation_and_cache request sample_env w Hpost Hoptions)
    as (reqs & r & _ & Hrun & _).
  exists reqs, r. exact Hrun.
Defined.

(** X15.  Every request other than a preflight is logged exactly once, as the
    last thing the handler does, at level error exactly when the response
    that the caller gets has no success status. *)
Theorem every_request_is_logged_once_at_the_end
    (request : Request) (env : Env) (w : World) :
  method request <> "OPTIONS" ->
  exists before,
    events_of (fetch request env) w
    = before ++ [EvLog (log_level (fst (fetch request env w)))]
    /\ Forall (fun e => is_log e = false) before.
Proof.
  intros Hmethod.
  assert (Hfetches : forall reqs, Forall (fun e => is_log e = false) (map EvFetch reqs)).
  { induction reqs; constructor; auto. }
  destruct (fetch_Handled request env w) as (response & evs & store & Heq & Hrun).
  rewrite (events_of_with_cache _ _ _ _ _ Heq), Heq. cbn [fst].
  destruct Hrun as [Hm|error Hm Hv|bodyStr r Hm Hv Hg Hhit|bodyStr reqs r Hm Hv Hg Hmiss Hd Hok
                   |bodyStr reqs r Hm Hv Hg Hmiss Hd Hok|bodyStr reqs r Hm Hv Hg Hd].
  - contradiction.
  - exists []. split; [|constructor].
    destruct (validation_failure_unstamped request env w error Hm Hv) as (_ & Hstatus & _).
    unfold log_level, ok. now rewrite Hstatus.
  - exists [EvCacheMatch (key_of request)]. split; [reflexivity | repeat constructor].
  - exists (EvCacheMatch (key_of request) :: map EvFetch reqs
            ++ [EvCachePut (key_of request) (responseToStore r env (isSSR request))]).
    split.
    + unfold log_level. rewrite ok_addCorsHeaders, Hok. cbn [app].
      now rewrite <- app_assoc.
    + constructor; [reflexivity|]. apply Forall_app. split; [apply Hfetches|].
      repeat constructor.
  - exists (EvCacheMatch (key_of request) :: map EvFetch reqs). split.
    + unfold log_level. now rewrite ok_addCorsHeaders, Hok.
    + constructor; [reflexivity | apply Hfetches].
  - exists (map EvFetch reqs). split; [reflexivity | apply Hfetches].
Qed.

(** X15 on a search request that every host answers with 500. *)
Lemma every_request_is_logged_once_at_the_end_witness :
  let request := search_request None (browser_headers "https://www.avocadostore.de")
                   "search" in
  let w := sample_world (always_resolves (text_response 500 ∅ "down")) in
  exists before,
    events_of (fetch request sample_env) w = before ++ [EvLog LogError]
    /\ Forall (fun e => is_log e = false) before.
Proof.
  intros request w.
  assert (Hmethod : method request <> "OPTIONS") by discriminate.
  destruct (every_request_is_logged_once_at_the_end request sample_env w Hmethod)
    as (before & Hevents & Hbefore).
  exists before. split; [|exact Hbefore].
  rewrite Hevents. reflexivity.
Defined.

(** X16.  A preflight is answered without reading the body and without any
    effect: no upstream call, no cache access, no log entry.  The answer has
    status 204, no body, and no header other than the CORS ones. *)
Theorem preflight_has_no_effect (request : Request) (env : Env) (w : World) :
  method request = "OPTIONS" ->
  let response := fst (fetch request env w) in
  snd (fetch request env w) = w
  /\ status response = 204%N
  /\ body response = BodyNull
  /\ forall name value, Headers.get name (headers response) = Some value ->
                        Headers.lowercase name ∈ STAMPED_NAMES.
Proof.
  intros Hmethod response. subst response.
  apply String.eqb_eq in Hmethod. rewrite fetch_unfold, Hmethod. cbn [fst snd].
  split; [reflexivity|]. split; [reflexivity|]. split; [reflexivity|].
  intros name value. unfold handleOptions, Headers.get, Headers.set, STAMPED_NAMES.
  cbn [headers].
  destruct (ctx_isSSRRequest _); [|destruct (_ && _)].
  all: generalize (Headers.lowercase name); intros k H.
  all: repeat (apply lookup_insert_Some in H as [[<- _]|[_ H]];
               [rewrite !elem_of_cons; vm_compute;
                repeat first [left; reflexivity | right]|]).
  all: now rewrite lookup_empty in H.
Qed.

(** X16 on a preflight from the storefront whose body is not JSON. *)
Lemma preflight_has_no_effect_witness :
  let request := {| method := "OPTIONS"; url := queries_url None;
                    req_headers := browser_headers "https://www.avocadostore.de";
                    json := JsonThrows "no body" |} in
  let w := sample_world (always_throws "Error: Network error") in
  snd (fetch request sample_env w) = w
  /\ status (fst (fetch request sample_env w)) = 204%N.
Proof.
  intros request w.
  destruct (preflight_has_no_effect request sample_env w eq_refl) as (Hworld & Hstatus & _).
  split; [exact Hworld | exact Hstatus].
Defined.

(* ===================================================================== *)
(** ** What the cache holds and serves *)
(* ===================================================================== *)


Lemma to_double_safe (z : Z) : (Z.abs z <= 2 ^ 53)%Z -> to_double z = z.
Proof. intros Hz. unfold to_double. apply Z.leb_le in Hz. now rewrite Hz. Qed.

Lemma number_text_safe (z : Z) : (Z.abs z <= 2 ^ 53)%Z -> number_text z = pretty z.
Proof. intros Hz. unfold number_text. apply Z.leb_le in Hz. now rewrite Hz. Qed.






(** X19.  The cache key is the request URL with its query rewritten: it has
    exactly one [cacheKey] parameter, which is the token, and exactly one
    [ssr] parameter, which is [1] or [0] by the flag, whatever parameters of
    these names the caller sent; every other parameter is kept. *)
Theorem cache_key_parameters (u : URL) (token : string) (isSSRRequest : bool) :
  exists params,
    cacheKeyUrl u token isSSRRequest
    = url_origin u +:+ pathname u +:+ ("?" +:+ SearchParams.toString params) +:+ hash u
    /\ named "cacheKey" params = [("cacheKey", token)]
    /\ named "ssr" params = [("ssr", if isSSRRequest then "1" else "0")]
    /\ forall name, name <> "cacheKey" -> name <> "ssr" ->
                    named name params = named name (searchParams u).
Proof.
  eexists. split; [apply cacheKeyUrl_shape|]. repeat split.
  - rewrite named_set_ne, named_set_eq by discriminate. reflexivity.
  - apply named_set_eq.
  - intros name Hkey Hssr. now rewrite !named_set_ne.
Qed.

(* ===================================================================== *)
(** ** The configured time-to-live *)
(* ===================================================================== *)

Lemma pretty_N_char_digit (d : N) :
  (d < 10)%N -> N_of_ascii (pretty_N_char d) = (0x30 + d)%N.
Proof.
  intros Hd.
  assert (d = 0 \/ d = 1 \/ d = 2 \/ d = 3 \/ d = 4 \/ d = 5 \/ d = 6 \/ d = 7 \/ d = 8
          \/ d = 9)%N as H by lia.
  repeat destruct H as [->|H]; try subst d; reflexivity.
Qed.

Lemma digits_prefix_digit (d : N) (rest : string) (acc : option N) :
  (d < 10)%N ->
  digits_prefix (String (pretty_N_char d) rest) acc
  = digits_prefix rest (Some (10 * default 0 acc + d))%N.
Proof.
  intros Hd. cbn [digits_prefix]. rewrite (pretty_N_char_digit d Hd).
  assert (in_range 48 57 (48 + d) = true) as ->.
  { unfold in_range. apply andb_true_iff. split; apply N.leb_le; lia. }
  do 2 f_equal. lia.
Qed.

(** The digits of a positive number, read back. *)
Lemma digits_prefix_pretty_N_go (x : N) :
  (0 < x)%N ->
  exists p, forall s acc,
    digits_prefix (pretty_N_go x s) acc = digits_prefix s (Some (default 0 acc * p + x))%N.
Proof.
  induction (N.lt_wf_0 x) as [x _ IH]. intros Hx.
  assert (Hmod : (x `mod` 10 < 10)%N) by (apply N.mod_lt; lia).
  destruct (decide (x `div` 10 = 0)%N) as [Hsmall|Hbig].
  - exists 10%N. intros s acc. rewrite pretty_N_go_step, Hsmall, pretty_N_go_0 by exact Hx.
    rewrite digits_prefix_digit by exact Hmod. do 2 f_equal.
    pose proof (N.div_mod x 10). lia.
  - destruct (IH (x `div` 10)%N) as (p & Hp);
      [apply N.div_lt; lia | now apply N.neq_0_lt_0 |].
    exists (10 * p)%N. intros s acc. rewrite pretty_N_go_step by exact Hx.
    rewrite Hp, digits_prefix_digit by exact Hmod. cbn [default]. do 2 f_equal.
    unfold id. pose proof (N.div_mod x 10). nia.
Qed.

(** The text of a positive number starts with a digit. *)
Lemma pretty_N_go_head (x : N) (s : string) :
  (0 < x)%N -> exists d rest, (d < 10)%N /\ pretty_N_go x s = String (pretty_N_char d) rest.
Proof.
  revert s. induction (N.lt_wf_0 x) as [x _ IH]. intros s Hx.
  rewrite pretty_N_go_step by exact Hx.
  destruct (decide (x `div` 10 = 0)%N) as [Hsmall|Hbig].
  - rewrite Hsmall, pretty_N_go_0. eexists _, _. split; [|reflexivity]. apply N.mod_lt. lia.
  - apply IH; [apply N.div_lt; lia | now apply N.neq_0_lt_0].
Qed.

Lemma parseInt_digit (d : N) (rest : string) :
  (d < 10)%N ->
  parseInt (String (pretty_N_char d) rest)
  = to_double <$> (Z.of_N <$> digits_prefix (String (pretty_N_char d) rest) None).
Proof.
  intros Hd.
  assert (d = 0 \/ d = 1 \/ d = 2 \/ d = 3 \/ d = 4 \/ d = 5 \/ d = 6 \/ d = 7 \/ d = 8
          \/ d = 9)%N as H by lia.
  repeat destruct H as [->|H]; try subst d.
  all: destruct rest as [|c1 [|c2 rest2]]; reflexivity.
Qed.

Lemma parseInt_pretty_N (n : N) : parseInt (pretty n) = Some (to_double (Z.of_N n)).
Proof.
  unfold pretty, pretty_N. case_decide as Hn; [now subst n|].
  assert (Hpos : (0 < n)%N) by lia.
  destruct (pretty_N_go_head n "" Hpos) as (d & rest & Hd & Hhead).
  rewrite Hhead, parseInt_digit, <- Hhead by exact Hd.
  destruct (digits_prefix_pretty_N_go n Hpos) as (p & Hp).
  rewrite Hp. cbn [fmap option_fmap option_map digits_prefix default].
  do 3 f_equal.
Qed.

(** [parseInt] reads the decimal text of an integer as the nearest double. *)
Lemma parseInt_pretty (z : Z) : parseInt (pretty z) = Some (to_double z).
Proof.
  destruct z as [|p|p].
  - reflexivity.
  - apply (parseInt_pretty_N (N.pos p)).
  - unfold pretty, pretty_Z.
    assert (H : forall rest,
               parseInt ("-" +:+ rest)
               = to_double <$> ((fun n => (- Z.of_N n)%Z) <$> digits_prefix rest None)).
    { intros [|c1 [|c2 rest2]]; reflexivity. }
    rewrite H. change (pretty p) with (pretty (N.pos p)). unfold pretty at 1, pretty_N.
    case_decide as Hn; [discriminate|].
    destruct (digits_prefix_pretty_N_go (N.pos p)) as (q & Hq); [lia|].
    rewrite Hq. reflexivity.
Qed.

Lemma pretty_Z_nonempty (z : Z) : String.eqb (pretty z) "" = false.
Proof.
  assert (H : forall n : N, String.eqb (pretty n) "" = false).
  { intros n. unfold pretty, pretty_N. case_decide as Hn; [reflexivity|].
    destruct (pretty_N_go_head n "") as (d & rest & _ & ->); [lia | reflexivity]. }
  destruct z as [|p|p]; [reflexivity | apply (H (N.pos p)) | reflexivity].
Qed.

(** X20.  A time-to-live configured as the decimal text of an integer (of
    at most 2^53 in absolute value, the integers that a JavaScript number
    holds exactly) is read back exactly, negative values included, and is
    what the stored response's [max-age] shows; the one exception is a
    configured zero for SSR requests, which gives the default of 600. *)
Theorem configured_ttl_is_read_back
    (env : Env) (isSSRRequest : bool) (z : Z) (response : Response) :
  (Z.abs z <= 2 ^ 53)%Z ->
  (if isSSRRequest then CACHE_TTL_SSR env else CACHE_TTL_CLIENT env) = Some (pretty z) ->
  let ttl := if isSSRRequest && (z =? 0)%Z then 600%Z else z in
  cacheTtl env isSSRRequest = ttl
  /\ Headers.get "Cache-Control" (headers (responseToStore response env isSSRRequest))
     = Some ("public, max-age=" +:+ pretty ttl).
Proof.
  intros Hsafe Hconfigured ttl.
  assert (Httl : cacheTtl env isSSRRequest = ttl).
  { subst ttl. unfold cacheTtl, parse_ttl, js_or, truthy.
    destruct isSSRRequest; rewrite Hconfigured, pretty_Z_nonempty; cbn [negb default andb];
      unfold id; rewrite parseInt_pretty, to_double_safe by exact Hsafe;
      destruct z; reflexivity. }
  split; [exact Httl|].
  unfold responseToStore. cbn [headers]. rewrite headers_get_set_eq.
  fold (cacheTtl env isSSRRequest). rewrite Httl, number_text_safe; [reflexivity|].
  subst ttl. destruct (isSSRRequest && (z =? 0)%Z); [|exact Hsafe].
  vm_compute. discriminate.
Qed.

(** X20 on a client-side time-to-live of 300 seconds. *)
Lemma configured_ttl_is_read_back_witness :
  let env := {| ALGOLIA_APPLICATION_ID := "testtest"; ALGOLIA_API_KEY := "testtest";
                CACHE_TTL_SSR := None; CACHE_TTL_CLIENT := Some "300" |} in
  cacheTtl env false = 300%Z
  /\ Headers.get "Cache-Control" (headers (responseToStore hits env false))
     = Some "public, max-age=300".
Proof.
  intros env.
  assert (Hsafe : (Z.abs 300 <= 2 ^ 53)%Z) by (vm_compute; discriminate).
  exact (configured_ttl_is_read_back env false 300 hits Hsafe eq_refl).
Defined.

(* ===================================================================== *)
(** ** More on the validator *)
(* ===================================================================== *)

Lemma ALLOWED_QUERY_CLASS_control_or_astral (c : N) :
  control_or_astral c = true -> ALLOWED_QUERY_CLASS c = false.
Proof.
  intros Hc. destruct (ALLOWED_QUERY_CLASS c) eqn:Hclass; [|reflexivity]. exfalso.
  assert (Hliterals : forallb (fun l => in_range 0x20 0x7E l || in_range 0xA0 0xD7FF l)
                        ALLOWED_QUERY_LITERALS = true) by reflexivity.
  assert (Hrange : in_range 0x20 0x7E c || in_range 0xA0 0xD7FF c = true).
  { unfold ALLOWED_QUERY_CLASS in Hclass.
    apply orb_true_iff in Hclass as [Hclass|Hclass];
      [apply orb_true_iff in Hclass as [Hclass|Hclass]|].
    - now rewrite Hclass.
    - unfold in_range in *. apply andb_true_iff in Hclass as [Hlo Hhi].
      apply N.leb_le in Hlo, Hhi. apply orb_true_iff. right. apply andb_true_iff.
      split; apply N.leb_le; lia.
    - apply existsb_exists in Hclass as (l & Hin & Hl). apply N.eqb_eq in Hl. subst l.
      rewrite forallb_forall in Hliterals. exact (Hliterals c Hin). }
  unfold control_or_astral, in_range in Hc. unfold in_range in Hrange.
  repeat match goal with
         | H : _ || _ = true |- _ => apply orb_true_iff in H as [H|H]
         | H : _ && _ = true |- _ => apply andb_true_iff in H as [? H]
         | H : (_ <=? _)%N = true |- _ => apply N.leb_le in H
         | H : (_ <? _)%N = true |- _ => apply N.ltb_lt in H
         end; lia.
Qed.

(** X21.  One control character, or one surrogate or later code unit (so any
    character outside the basic plane, an emoji for one), anywhere in the
    query of any item makes the validator reject the whole batch for invalid
    characters, whatever the other items are. *)
Theorem control_and_astral_characters_are_rejected
    (reqs : list SearchRequest) (req : SearchRequest) (q : jsstr) (c : N) :
  req ∈ reqs ->
  query req = JString q ->
  c ∈ q ->
  control_or_astral c = true ->
  outcome_of (isInvalidQuery reqs) = Rejected_as invalid_characters.
Proof.
  intros Hreq Hquery Hc Hbad. rewrite isInvalidQuery_outcome.
  assert (Hq : exists c0 s, q = c0 :: s).
  { destruct q as [|c0 s]; [inversion Hc | eauto]. }
  destruct Hq as (c0 & s & ->).
  assert (Hempty : forallb empty_or_absent reqs = false).
  { destruct (forallb empty_or_absent reqs) eqn:H; [|reflexivity].
    rewrite forallb_forall in H. apply list_elem_of_In in Hreq.
    specialize (H req Hreq). unfold empty_or_absent in H. rewrite Hquery in H.
    discriminate. }
  assert (Hoffends : existsb offends reqs = true).
  { apply existsb_exists. exists req. split; [now apply list_elem_of_In|].
    unfold offends. rewrite Hquery. cbn [ToBoolean ToString].
    rewrite test_ALLOWED_QUERY_REGEX. apply existsb_exists. exists c. split; [now apply list_elem_of_In|].
    now rewrite ALLOWED_QUERY_CLASS_control_or_astral. }
  now rewrite Hempty, Hoffends.
Qed.

(** X21 on a batch of a long plain query and a query with a line feed. *)
Lemma control_and_astral_characters_are_rejected_witness :
  let reqs := [ {| query := JString (units "organic cotton"); otherFields := [] |};
                {| query := JString (units "shoes" ++ [0x0A%N]); otherFields := [] |} ] in
  outcome_of (isInvalidQuery reqs) = Rejected_as invalid_characters.
Proof.
  intros reqs.
  apply (control_and_astral_characters_are_rejected reqs
           {| query := JString (units "shoes" ++ [0x0A%N]); otherFields := [] |}
           (units "shoes" ++ [0x0A%N]) 0x0A%N).
  - apply elem_of_cons. right. apply elem_of_cons. left. reflexivity.
  - reflexivity.
  - apply list_elem_of_In. vm_compute. tauto.
  - reflexivity.
Defined.

Lemma Legacy_isInvalidQuery_loop (reqs : list SearchRequest) (acc : bool) :
  Legacy.isInvalidQuery_loop reqs acc
  = match isInvalidQuery_loop reqs acc with
    | inl early => inl (invalid early)
    | inr hasLongQuery => inr hasLongQuery
    end.
Proof.
  revert acc. induction reqs as [|req reqs IH]; intros acc; [reflexivity|].
  cbn [Legacy.isInvalidQuery_loop isInvalidQuery_loop].
  destruct (ToBoolean (query req)); [|apply IH].
  cbv zeta. destruct (negb (test ALLOWED_QUERY_REGEX (ToString (query req))));
    [reflexivity | apply IH].
Qed.

(** X22.  The validator of the current handler, which reports a kind and a
    query, rejects exactly the batches that the earlier boolean validator of
    [src/index.ts] rejects: the added report changed no decision. *)
Theorem validators_reject_the_same_batches (reqs : list SearchRequest) :
  Legacy.isInvalidQuery reqs = invalid (isInvalidQuery reqs).
Proof.
  unfold Legacy.isInvalidQuery, isInvalidQuery.
  destruct (forallb _ reqs); [reflexivity|].
  rewrite Legacy_isInvalidQuery_loop.
  destruct (isInvalidQuery_loop reqs false) as [early|[]]; reflexivity.
Qed.

(** X24.  A POST body of the declared type passes validation as it is when
    it has no [requests] (or a falsy one), or when [requests] is an array of
    items whose queries are all empty or absent, the empty array included; the
    answer is then a response from the cache or from the dispatcher, stamped,
    not the validator's 400.  A decoded value whose [requests] is not an array,
    or is an array with an item that cannot be read (a [null] item, a query
    that cannot be converted to a string), never passes: it is answered
    400. *)
Theorem bodies_without_queries_pass (request : Request) (env : Env) (w : World) :
  method request = "POST" ->
  (forall b,
     json request = JsonValue b ->
     match requests b with
     | Some reqs => forallb empty_or_absent reqs = true
     | None => True
     end ->
     parseRequestBody request w = (inr b, w)
     /\ validated request w = inr (Some (stringify b))
     /\ exists inner,
          fst (fetch request env w)
          = addCorsHeaders inner (Some (ctx_origin (requestContext request)))
              (isSSR request))
  /\ (forall ill text,
        json request = JsonIllTyped ill text ->
        exists error,
          validated request w = inl error
          /\ fst (fetch request env w) = error
          /\ status error = 400%N).
Proof.
  intros Hpost. split.
  - intros b Hjson Hqueries.
    assert (Hparse : parseRequestBody request w = (inr b, w)).
    { unfold parseRequestBody. rewrite Hjson.
      destruct (requests b) as [reqs|]; [|reflexivity].
      unfold isInvalidQuery. rewrite all_empty_check, Hqueries. reflexivity. }
    assert (Hvalid : validated request w = inr (Some (stringify b))).
    { unfold validated. now rewrite Hpost, Hparse. }
    split; [exact Hparse|]. split; [exact Hvalid|].
    destruct (fetch_stamped request env w) as (inner & Hinner & _).
    + now rewrite Hpost.
    + intros error. rewrite Hvalid. discriminate.
    + eauto.
  - intros ill text Hjson.
    assert (Hvalid : exists error, validated request w = inl error).
    { unfold validated, parseRequestBody. rewrite Hpost, Hjson. unfold_monad.
      destruct (isInvalidQuery_ill_typed ill); eexists; reflexivity. }
    destruct Hvalid as (error & Hvalid). exists error. split; [exact Hvalid|].
    assert (Hmethod : method request <> "OPTIONS") by (rewrite Hpost; discriminate).
    destruct (validation_failure_unstamped request env w error Hmethod Hvalid)
      as (Hrun & Hstatus & _).
    split; [exact Hrun | exact Hstatus].
Qed.

(** X24 on an analytics body, which has no [requests], on a batch of an empty
    and an absent query, and on a body whose [requests] is [[null]]. *)
Lemma bodies_without_queries_pass_witness :
  let post := fun path j => {| method := "POST";
                               url := {| url_origin := "https://example.com";
                                         pathname := path; search := None; hash := "" |};
                               req_headers := browser_headers "https://www.avocadostore.de";
                               json := j |} in
  let events := {| requests := None; stringify := "<the JSON text of the events>" |} in
  let blank := {| requests := Some [ {| query := JString []; otherFields := [] |};
                                     {| query := JUndefined; otherFields := [] |} ];
                  stringify := "<the JSON text of the batch>" |} in
  let w := sample_world (always_resolves hits) in
  validated (post "/1/events" (JsonValue events)) w
  = inr (Some "<the JSON text of the events>")
  /\ validated (post "/1/indexes/*/queries" (JsonValue blank)) w
     = inr (Some "<the JSON text of the batch>")
  /\ status (fst (fetch (post "/1/indexes/*/queries"
                           (JsonIllTyped (ArrayWithNull []) "<the JSON text of the body>"))
                   sample_env w)) = 400%N.
Proof.
  intros post events blank w.
  destruct (bodies_without_queries_pass (post "/1/events" (JsonValue events))
              sample_env w eq_refl) as [Hevents _].
  destruct (bodies_without_queries_pass (post "/1/indexes/*/queries" (JsonValue blank))
              sample_env w eq_refl) as [Hblank _].
  destruct (bodies_without_queries_pass
              (post "/1/indexes/*/queries"
                 (JsonIllTyped (ArrayWithNull []) "<the JSON text of the body>"))
              sample_env w eq_refl) as [_ Hill].
  split; [exact (proj1 (proj2 (Hevents events eq_refl I)))|].
  split; [exact (proj1 (proj2 (Hblank blank eq_refl eq_refl)))|].
  destruct (Hill _ _ eq_refl) as (error & _ & -> & Hstatus). exact Hstatus.
Defined.

(* ===================================================================== *)
(** ** Preflight and response *)
(* ===================================================================== *)

(** X23.  The preflight answer and the stamped response of one caller agree:
    the allowed origin, methods, headers and max-age are the same in both.
    When the preflight answer has [Vary: Origin] the stamped response has it
    too; when it has no [Vary], the stamping leaves the [Vary] of the response
    as it was. *)
Theorem preflight_and_response_agree (ctx : RequestContext) (response : Response) :
  let preflight := handleOptions ctx in
  let stamped := addCorsHeaders response (Some (ctx_origin ctx)) (ctx_isSSRRequest ctx) in
  (forall name, name ∈ CORS_NAMES ->
                Headers.get name (headers preflight) = Headers.get name (headers stamped))
  /\ (vary preflight = Some "Origin" \/ vary preflight = None)
  /\ (vary preflight = Some "Origin" -> vary stamped = Some "Origin")
  /\ (vary preflight = None -> vary stamped = vary response).
Proof.
  assert (Hnames : forall name, name ∈ CORS_NAMES ->
            name = "Access-Control-Allow-Origin" \/ name = "Access-Control-Allow-Methods"
            \/ name = "Access-Control-Allow-Headers" \/ name = "Access-Control-Max-Age").
  { intros name Hname. unfold CORS_NAMES in Hname.
    rewrite !elem_of_cons, elem_of_nil in Hname. tauto. }
  cbv zeta. unfold handleOptions, addCorsHeaders, vary, truthy.
  cbn [headers default]. unfold id.
  destruct (ctx_isSSRRequest ctx); cbn [orb negb andb];
    [|destruct (String.eqb (ctx_origin ctx) ""); cbn [orb negb andb];
      [|destruct (isOriginAllowed (ctx_origin ctx)); cbn [orb negb andb]]].
  all: split; [intros name Hname;
               destruct (Hnames name Hname) as [H|[H|[H|H]]]; subst name; headers;
               reflexivity|].
  all: headers; change (Headers.get "Vary" ∅) with (@None string).
  all: repeat split; auto; discriminate.
Qed.
